(** * DynamoDB continuous incremental exports: the CDK application and its
      export workflow, embedded and verified.

    The development follows the sources of the repository:

    - [bin/dynamodb-continuous-incremental-exports.ts], the entry point that
      creates one nested export stack per configured source table;
    - [lib/dynamodb-continuous-incremental-exports-stack.ts], whose [init]
      validates the configuration, builds the Step Functions state machine
      ([deployStepFunction]) and creates the schedule that triggers it, and
      whose [deployNotificationModule] and [createOrUpdateSchedulerRole]
      construct what the stack is not given;
    - [lib/dynamodb-continuous-incremental-shared-resources-stack.ts], in
      its two versions, which constructs the topic, the key and the role
      that the nested stacks share.

    The state machine is built exactly as the source builds it: by running the
    builder calls ([addCatch], [addRetry], [next], [when], [afterwards]) in
    source order over a mutable graph.  The resulting graph is rendered as the
    CDK renders it and executed by an interpreter of the Amazon States
    Language. *)

From Stdlib Require Import List Bool Arith ZArith QArith Qround Qpower Lia.
From Stdlib Require Import Ascii String DecimalString.
Import ListNotations.

Local Close Scope Q_scope.
Local Open Scope nat_scope.
Local Open Scope list_scope.
Local Open Scope string_scope.

(* ------------------------------------------------------------------ *)
(** ** Exceptions *)

(** A computation that either returns or throws a JavaScript [Error]
    carrying a message. *)
Inductive Err (A : Type) : Type :=
| OK (a : A)
| Throw (message : string).
Arguments OK {A} a.
Arguments Throw {A} message.

Definition Err_bind {A B} (m : Err A) (k : A -> Err B) : Err B :=
  match m with
  | OK a => k a
  | Throw msg => Throw msg
  end.

(* ------------------------------------------------------------------ *)
(** ** JavaScript strings

    Strings are sequences of code units; the model covers the code units
    U+0000 to U+00FF, one [ascii] each.  (DynamoDB table names are drawn from
    [a-zA-Z0-9_.-], well inside that range.) *)
Module JsString.

(** [WhiteSpace] and [LineTerminator] code units below U+0100:
    TAB, LF, VT, FF, CR, SP and NBSP. *)
Definition isWhiteSpace (c : ascii) : bool :=
  let n := nat_of_ascii c in
  (((9 <=? n) && (n <=? 13)) || (n =? 32) || (n =? 160))%nat.

Fixpoint trimStart (s : string) : string :=
  match s with
  | EmptyString => EmptyString
  | String c s' => if isWhiteSpace c then trimStart s' else s
  end.

Fixpoint trimEnd (s : string) : string :=
  match s with
  | EmptyString => EmptyString
  | String c s' =>
      match trimEnd s' with
      | EmptyString => if isWhiteSpace c then EmptyString else String c EmptyString
      | t => String c t
      end
  end.

(** [String.prototype.trim] *)
Definition trim (s : string) : string := trimEnd (trimStart s).

(** Lower-casing of one code unit: [A-Z], and U+00C0..U+00DE without the
    multiplication sign U+00D7, move up by 32. *)
Definition lowerChar (c : ascii) : ascii :=
  let n := nat_of_ascii c in
  if (((65 <=? n) && (n <=? 90))
      || ((192 <=? n) && (n <=? 222) && negb (n =? 215)))%nat
  then ascii_of_nat (n + 32) else c.

(** [String.prototype.toLowerCase] *)
Fixpoint toLowerCase (s : string) : string :=
  match s with
  | EmptyString => EmptyString
  | String c s' => String (lowerChar c) (toLowerCase s')
  end.

(** [String.prototype.split] with a separator of one code unit, the only
    form the sources use: [split(',')] and [split("-")].  The result is
    never empty: the empty string splits into one empty piece. *)
Fixpoint split (sep : ascii) (s : string) : list string :=
  match s with
  | EmptyString => [EmptyString]
  | String c s' =>
      if Ascii.eqb c sep then EmptyString :: split sep s'
      else match split sep s' with
           | [] => [String c EmptyString]
           | piece :: pieces => String c piece :: pieces
           end
  end.

(** Template-literal rendering of an integral number. *)
Definition ofZ (z : Z) : string := NilZero.string_of_int (Z.to_int z).

End JsString.

(** Spec-side vocabulary for strings, used only in statements. *)
Fixpoint contains (c : ascii) (s : string) : bool :=
  match s with
  | EmptyString => false
  | String c' s' => Ascii.eqb c' c || contains c s'
  end.

Fixpoint allWhiteSpace (s : string) : bool :=
  match s with
  | EmptyString => true
  | String c s' => JsString.isWhiteSpace c && allWhiteSpace s'
  end.

(** [join sep pieces]: the pieces with [sep] between neighbours. *)
Fixpoint join (sep : ascii) (pieces : list string) : string :=
  match pieces with
  | [] => EmptyString
  | [p] => p
  | p :: ps => p ++ String sep (join sep ps)
  end.

(* ------------------------------------------------------------------ *)
(** ** [cdk.Duration] *)
Module Duration.

Inductive TimeUnit := Milliseconds | Seconds | Minutes | Hours | Days.

Definition inMillis (u : TimeUnit) : Z :=
  match u with
  | Milliseconds => 1
  | Seconds => 1000
  | Minutes => 60000
  | Hours => 3600000
  | Days => 86400000
  end%Z.

Record t := mk { amount : Q; unit : TimeUnit }.

(** The constructor refuses negative amounts. *)
Definition make (a : Q) (u : TimeUnit) : Err t :=
  if Qle_bool 0 a then OK (mk a u)
  else Throw "Duration amounts cannot be negative".

Definition seconds (a : Q) : Err t := make a Seconds.
Definition minutes (a : Q) : Err t := make a Minutes.

Definition isInteger (q : Q) : bool := Qeq_bool q (inject_Z (Qfloor q)).

(** [toSeconds()]: conversion with the default [integral: true], which
    throws unless the result is a whole number of seconds. *)
Definition toSeconds (d : t) : Err Z :=
  match unit d with
  | Seconds =>
      if isInteger (amount d) then OK (Qfloor (amount d))
      else Throw "must be a whole number of seconds"
  | u =>
      let value := (amount d * inject_Z (inMillis u) / inject_Z 1000)%Q in
      if isInteger value then OK (Qfloor value)
      else Throw "cannot be converted into a whole number of seconds"
  end.

End Duration.

(* ------------------------------------------------------------------ *)
(** ** Configuration

    The fields of [Configuration] that the two sources read. *)
Record Configuration := mkConfiguration {
  deploymentAlias : string;
  sourceDynamoDbTableName : string;
  dataExportBucketPrefix : string;
  dataExportBucketOwnerAccountId : string;
  incrementalExportWindowSizeInMinutes : Z
}.

(* ------------------------------------------------------------------ *)
(** ** The notification resources and the scheduler role

    What the stacks construct besides the workflow: the key, the topic, the
    parameters that publish their ARNs, the subscriptions, and the role and
    policy of the scheduler.  A construct is recorded with its id and the
    properties that name or connect resources; descriptions, removal
    policies, key rotation and [enforceSSL] are left out. *)
Module constructs.

(** Values that are known at deployment only. *)
Inductive Token :=
| keyArn (id : string)
| topicArn (id : string)
| roleArn (id : string)
| stateMachineArn (id : string)
| valueForStringParameter (parameterName : string).

(** [kms.IKey], [sns.ITopic] and [iam.Role], each known by its ARN. *)
Definition IKey := Token.
Definition ITopic := Token.
Definition Role := Token.

Inductive Protocol := SQS | EMAIL.

Inductive Construct :=
| Key (id : string) (nameTag : string)
| KeyFromArn (id : string) (arn : Token)
| Topic (id : string) (topicName : string) (masterKey : IKey)
| TopicFromArn (id : string) (arn : Token)
| StringParameter (id : string) (parameterName : string) (stringValue : Token)
| Subscription (id : string) (topic : ITopic) (endpoint : string)
               (protocol : Protocol) (allowlist : list string)
| NewRole (id : string) (roleName : option string) (assumedBy : string)
| Policy (id : string) (policyName : string) (attachedTo : Role)
         (actions : list string) (resources : list Token)
| CfnParameter (id : string) (parameterType : string) (defaultValue : string)
| ParameterImport (id : string) (parameterName : string).

Definition idOf (c : Construct) : string :=
  match c with
  | Key id _ | KeyFromArn id _ | Topic id _ _ | TopicFromArn id _
  | StringParameter id _ _ | Subscription id _ _ _ _ | NewRole id _ _
  | Policy id _ _ _ _ | CfnParameter id _ _ | ParameterImport id _ => id
  end.

(** The name under which a scope keeps a child: the id, with every path
    separator replaced ([Node.sanitizeId]). *)
Fixpoint sanitizeId (id : string) : string :=
  match id with
  | EmptyString => EmptyString
  | String c rest =>
      if Ascii.eqb c "/" then String "-" (String "-" (sanitizeId rest))
      else String c (sanitizeId rest)
  end.

(** The property names that every JavaScript object inherits. *)
Definition inherited : list string :=
  [ "constructor"; "__defineGetter__"; "__defineSetter__"; "hasOwnProperty";
    "__lookupGetter__"; "__lookupSetter__"; "isPrototypeOf";
    "propertyIsEnumerable"; "toString"; "valueOf"; "__proto__";
    "toLocaleString" ].

(** [Node.addChild], which every construct calls on its scope: a name under
    which the scope finds something already is refused.  The scope keeps its
    children in an object and looks the name up there
    ([this._children[childName]]), so it also finds what the object
    inherits.  (The message goes on to name the scope.) *)
Definition addChild (children : list string) (id : string)
  : Err (list string) :=
  let childName := sanitizeId id in
  if existsb (String.eqb childName) (inherited ++ children)%list
  then Throw ("There is already a Construct with name '" ++ childName ++ "'")
  else OK (children ++ [childName])%list.

(** The notification settings of [Configuration]; a setting that is not
    given is [undefined]. *)
Record Notifications := mkNotifications {
  successNotificationSqsArn : option string;
  successNotificationEmail : option string;
  failureNotificationEmail : option string
}.

(** [if (x)] on a string that may be [undefined]: the empty string is
    falsy. *)
Definition truthy (x : option string) : bool :=
  match x with
  | Some (String _ _) => true
  | _ => false
  end.

(** [x !== ""] *)
Definition notEmpty (x : option string) : bool :=
  match x with
  | Some EmptyString => false
  | _ => true
  end.

(** The endpoint passed to a subscription created under a truthy setting. *)
Definition endpointOf (x : option string) : string :=
  match x with Some s => s | None => EmptyString end.

Definition SCHEDULER : string := "scheduler.amazonaws.com".

Definition Token_beq (a b : Token) : bool :=
  match a, b with
  | keyArn x, keyArn y => String.eqb x y
  | topicArn x, topicArn y => String.eqb x y
  | roleArn x, roleArn y => String.eqb x y
  | stateMachineArn x, stateMachineArn y => String.eqb x y
  | valueForStringParameter x, valueForStringParameter y => String.eqb x y
  | _, _ => false
  end.

(** [new C(this, id, props)] adds the construct to the children of the
    stack. *)
Definition add (scope : list Construct) (c : Construct) : list Construct :=
  (scope ++ [c])%list.

End constructs.

(** The first version of
    [lib/dynamodb-continuous-incremental-shared-resources-stack.ts]. *)
Module SharedResourceStackV1.
Import constructs.

Record t := mk {
  ddbExportNotificationTopic : ITopic;
  kmsKeyUsedForSnsTopic : IKey;
  schedulerRole : Role;
  children : list Construct
}.

(** [deployNotificationModule]: the key, the topic it also stores in
    [this.ddbExportNotificationTopic], and the children added. *)
Definition deployNotificationModule (configuration : Configuration)
           (n : Notifications) (scope : list Construct)
  : IKey * ITopic * list Construct :=
  let snsKey := keyArn "ddb-export-notification-topic-key" in
  let scope :=
    add scope (Key "ddb-export-notification-topic-key"
                  (deploymentAlias configuration
                     ++ "-ddb-export-notification-topic-key")) in
  let topicName := deploymentAlias configuration ++ "-notification-topic" in
  let topic := topicArn "ddb-export-notification-topic" in
  let scope :=
    add scope (Topic "ddb-export-notification-topic" topicName snsKey) in
  let scope :=
    add scope (StringParameter "ddb-export-notification-topic-arn"
                              "/dynamodb/export/notification/topic" topic) in
  let scope :=
    if truthy (successNotificationSqsArn n)
    then add scope (Subscription "ddb-export-notification-success-subsc-sqs"
                                topic (endpointOf (successNotificationSqsArn n))
                                SQS ["SUCCESS"])
    else scope in
  let scope :=
    if truthy (successNotificationEmail n)
    then add scope (Subscription "ddb-export-notification-success-subsc"
                                topic (endpointOf (successNotificationEmail n))
                                EMAIL ["SUCCESS"])
    else scope in
  let scope :=
    if truthy (failureNotificationEmail n)
    then add scope (Subscription "ddb-export-notification-failure-subsc"
                                topic (endpointOf (failureNotificationEmail n))
                                EMAIL ["FAILED"])
    else scope in
  (snsKey, topic, scope).

(** [init] *)
Definition init (configuration : Configuration) (n : Notifications) : t :=
  let '(snsKey, topic, scope) := deployNotificationModule configuration n [] in
  let scope :=
    add scope (NewRole "step-function-trigger-role" None SCHEDULER) in
  {| ddbExportNotificationTopic := topic;
     kmsKeyUsedForSnsTopic := snsKey;
     schedulerRole := roleArn "step-function-trigger-role";
     children := scope |}.

End SharedResourceStackV1.

(** The second version of the shared stack, with
    [useExistingNotificationTopic]. *)
Module SharedResourceStack.
Import constructs.

Record t := mk {
  ddbExportNotificationTopic : ITopic;
  kmsKeyUsedForSnsTopic : IKey;
  schedulerRole : Role;
  children : list Construct
}.

(** [deployNotificationModule] *)
Definition deployNotificationModule (configuration : Configuration)
           (n : Notifications) (scope : list Construct)
  : IKey * ITopic * list Construct :=
  let snsKey := keyArn "ddb-export-notification-topic-key" in
  let scope :=
    add scope (Key "ddb-export-notification-topic-key"
                  (deploymentAlias configuration
                     ++ "-ddb-export-notification-topic-key")) in
  let scope :=
    add scope (StringParameter "ddb-export-notification-kms-arn"
                              "/dynamodb/export/notification/kms" snsKey) in
  let topicName := deploymentAlias configuration ++ "-notification-topic" in
  let topic := topicArn "ddb-export-notification-topic" in
  let scope :=
    add scope (Topic "ddb-export-notification-topic" topicName snsKey) in
  let scope :=
    add scope (StringParameter "ddb-export-notification-topic-arn"
                              "/dynamodb/export/notification/topic" topic) in
  let scope :=
    if truthy (successNotificationSqsArn n)
       && notEmpty (successNotificationSqsArn n)
    then add scope (Subscription "ddb-export-notification-success-subsc-sqs"
                                topic (endpointOf (successNotificationSqsArn n))
                                SQS ["SUCCESS"])
    else scope in
  let scope :=
    if truthy (successNotificationEmail n)
       && notEmpty (successNotificationEmail n)
    then add scope (Subscription "ddb-export-notification-success-subsc"
                                topic (endpointOf (successNotificationEmail n))
                                EMAIL ["SUCCESS"])
    else scope in
  let scope :=
    if truthy (failureNotificationEmail n)
       && notEmpty (failureNotificationEmail n)
    then add scope (Subscription "ddb-export-notification-failure-subsc"
                                topic (endpointOf (failureNotificationEmail n))
                                EMAIL ["FAILED"])
    else scope in
  (snsKey, topic, scope).

(** The id under which a stack keeps the value of an SSM parameter. *)
Definition importedValueId (parameterName : string) : string :=
  "SsmParameterValue:" ++ parameterName
    ++ ":C96584B6-F00A-464E-AD19-53AFF4B05118".

(** [ssm.StringParameter.valueForStringParameter(this, parameterName)]: the
    value is that of a parameter of the stack, of the type
    [AWS::SSM::Parameter::Value<String>] and with the name as its default,
    which the call adds to the stack together with the import that stands
    for the SSM parameter, unless the stack has that import already. *)
Definition valueOfStringParameter (parameterName : string)
           (scope : list Construct) : Token * list Construct :=
  let id := importedValueId parameterName in
  if existsb (fun c => String.eqb (sanitizeId (idOf c)) (sanitizeId id)) scope
  then (valueForStringParameter parameterName, scope)
  else
    let scope :=
      add scope (CfnParameter (id ++ ".Parameter")
                              "AWS::SSM::Parameter::Value<String>"
                              parameterName) in
    let scope := add scope (ParameterImport id parameterName) in
    (valueForStringParameter parameterName, scope).

(** [init] *)
Definition init (useExistingNotificationTopic : bool)
           (configuration : Configuration) (n : Notifications) : t :=
  let '(snsKey, topic, scope) :=
    if useExistingNotificationTopic
    then
      let '(notificationTopicArn, scope) :=
        valueOfStringParameter "/dynamodb/export/notification/topic" [] in
      let scope :=
        add scope (TopicFromArn "ddb-export-notification-topic"
                                notificationTopicArn) in
      let '(kmsArn, scope) :=
        valueOfStringParameter "/dynamodb/export/notification/kms" scope in
      let scope :=
        add scope (KeyFromArn "ddb-export-notification-topic-key" kmsArn) in
      (kmsArn, notificationTopicArn, scope)
    else deployNotificationModule configuration n [] in
  let scope :=
    add scope (NewRole "step-function-trigger-role" None SCHEDULER) in
  {| ddbExportNotificationTopic := topic;
     kmsKeyUsedForSnsTopic := snsKey;
     schedulerRole := roleArn "step-function-trigger-role";
     children := scope |}.

End SharedResourceStack.

(** The notification module and the scheduler role of
    [lib/dynamodb-continuous-incremental-exports-stack.ts]. *)
Module ExportsStackResources.
Import constructs.

(** [DynamoDbContinuousIncrementalExportsStackProps], without the
    configuration. *)
Record Props := mkProps {
  kmsKeyUsedForSnsTopic : option IKey;
  schedulerRole : option Role;
  ddbExportNotificationTopic : option ITopic
}.

(** [deployNotificationModule]: the key it returns, the topic it stores in
    [this.ddbExportNotificationTopic], and the children added. *)
Definition deployNotificationModule (props : Props)
           (configuration : Configuration) (n : Notifications)
           (scope : list Construct)
  : IKey * ITopic * list Construct :=
  let tableName := sourceDynamoDbTableName configuration in
  let '(snsKey, scope) :=
    match kmsKeyUsedForSnsTopic props with
    | Some snsKey => (snsKey, scope)
    | None =>
        (keyArn "ddb-export-notification-topic-key",
         add scope (Key "ddb-export-notification-topic-key"
                       (deploymentAlias configuration
                          ++ "-ddb-export-notification-topic-key")))
    end in
  match ddbExportNotificationTopic props with
  | Some topic => (snsKey, topic, scope)
  | None =>
      let topicName :=
        deploymentAlias configuration ++ "-notification-topic" in
      let topic := topicArn "ddb-export-notification-topic" in
      let scope :=
        add scope (Topic "ddb-export-notification-topic" topicName snsKey) in
      let scope :=
        add scope (StringParameter
                    "ddb-export-notification-topic-arn"
                    ("/dynamodb/export/notification/topic/" ++ tableName)
                    topic) in
      let scope :=
        if truthy (successNotificationSqsArn n)
           && notEmpty (successNotificationSqsArn n)
        then add scope (Subscription
                         "ddb-export-notification-success-subsc-sqs"
                         topic (endpointOf (successNotificationSqsArn n))
                         SQS ["SUCCESS"])
        else scope in
      let scope :=
        if truthy (successNotificationEmail n)
           && notEmpty (successNotificationEmail n)
        then add scope (Subscription
                         "ddb-export-notification-success-subsc"
                         topic (endpointOf (successNotificationEmail n))
                         EMAIL ["SUCCESS"])
        else scope in
      let scope :=
        if truthy (failureNotificationEmail n)
           && notEmpty (failureNotificationEmail n)
        then add scope (Subscription
                         "ddb-export-notification-failure-subsc"
                         topic (endpointOf (failureNotificationEmail n))
                         EMAIL ["FAILED"])
        else scope in
      (snsKey, topic, scope)
  end.

(** The names [deployStepFunction] gives the state machine and its role. *)
Definition stateMachineName (configuration : Configuration) : string :=
  deploymentAlias configuration ++ "-ddb-export-state-machine".

Definition stateRoleName (configuration : Configuration) : string :=
  deploymentAlias configuration ++ "-ddb-state-role".

(** [createOrUpdateSchedulerRole]: the role it returns and the children
    added. *)
Definition createOrUpdateSchedulerRole (configuration : Configuration)
           (props : Props) (scope : list Construct)
  : Role * list Construct :=
  let incrementalExportStateMachine :=
    stateMachineArn (stateMachineName configuration) in
  let '(role, scope) :=
    match schedulerRole props with
    | Some role => (role, scope)
    | None =>
        (roleArn "step-function-trigger-role",
         add scope (NewRole "step-function-trigger-role"
                           (Some (deploymentAlias configuration
                                    ++ "-incremental-export-schedule-role"))
                           SCHEDULER))
    end in
  match schedulerRole props with
  | None =>
      (role,
       add scope (Policy (deploymentAlias configuration
                           ++ "-step-function-trigger-policy")
                        (sourceDynamoDbTableName configuration
                           ++ "-step-function-trigger-policy")
                        role
                        ["states:StartExecution"]
                        [incrementalExportStateMachine]))
  | Some _ => (role, scope)
  end.

(** The properties the entry point passes to every nested stack: the topic,
    the key and the role of the shared stack. *)
Definition propsOfEntryPoint (shared : SharedResourceStack.t) : Props :=
  {| kmsKeyUsedForSnsTopic :=
       Some (SharedResourceStack.kmsKeyUsedForSnsTopic shared);
     ddbExportNotificationTopic :=
       Some (SharedResourceStack.ddbExportNotificationTopic shared);
     schedulerRole := Some (SharedResourceStack.schedulerRole shared) |}.

Definition isPolicy (c : Construct) : bool :=
  match c with Policy _ _ _ _ _ => true | _ => false end.

Definition isTopic (c : Construct) : bool :=
  match c with Topic _ _ _ => true | _ => false end.

(** The deployed parameters that a stack publishes, by name. *)
Definition published (children : list Construct) : list (string * Token) :=
  flat_map (fun c => match c with
                     | StringParameter _ name value => [(name, value)]
                     | _ => []
                     end) children.

(** The value a token has once the parameters [store] are deployed. *)
Definition resolve (store : list (string * Token)) (t : Token) : option Token :=
  match t with
  | valueForStringParameter name =>
      match find (fun entry => String.eqb (fst entry) name) store with
      | Some entry => Some (snd entry)
      | None => None
      end
  | other => Some other
  end.

(** The subscriptions of [topic] that receive a message whose body has the
    given [status]: those whose allowlist names it. *)
Definition receivers (children : list Construct) (topic : ITopic)
           (status : string) : list (Protocol * string) :=
  flat_map (fun c => match c with
                     | Subscription _ t endpoint protocol allowlist =>
                         if Token_beq t topic
                            && existsb (String.eqb status) allowlist
                         then [(protocol, endpoint)] else []
                     | _ => []
                     end) children.

End ExportsStackResources.

(* ------------------------------------------------------------------ *)
(** ** The entry point: one nested stack per source table *)
Module Bin.

(** What [new DynamoDbContinuousIncrementalExportsStack(scope, id, props)]
    receives, with the tag the entry point adds to it. *)
Record NestedStack := mkNestedStack {
  id : string;
  configuration : Configuration;
  costCategoryArea : string
}.

(** [tableNameParts[tableNameParts.length - 1]]; reading past the end of an
    array gives [undefined], on which [toLowerCase] throws. *)
Definition lastPart (tableNameParts : list string) : Err string :=
  match nth_error tableNameParts (List.length tableNameParts - 1) with
  | Some part => OK part
  | None => Throw "Cannot read properties of undefined (reading 'toLowerCase')"
  end.

(** The arguments of the constructor call in the body of the [forEach]
    callback. *)
Definition createStack (configuration : Configuration) (tableName : string)
  : Err NestedStack :=
  let tableNameParts := JsString.split "-" tableName in
  Err_bind
    (if (10 <? String.length tableName)%nat
     then lastPart tableNameParts else OK tableName)
    (fun picked =>
       let shortTableName := JsString.toLowerCase picked in
       OK {| id := tableName;
             configuration :=
               {| deploymentAlias :=
                    deploymentAlias configuration ++ "-" ++ shortTableName;
                  sourceDynamoDbTableName := tableName;
                  dataExportBucketPrefix :=
                    dataExportBucketPrefix configuration ++ "/" ++ tableName;
                  dataExportBucketOwnerAccountId :=
                    dataExportBucketOwnerAccountId configuration;
                  incrementalExportWindowSizeInMinutes :=
                    incrementalExportWindowSizeInMinutes configuration |};
             costCategoryArea := tableName |}).

(** The children of the shared stack when the loop starts, by name: the
    stack is the later version, constructed without
    [useExistingNotificationTopic] ([undefined] is falsy). *)
Definition sharedChildren (configuration : Configuration)
           (n : constructs.Notifications) : list string :=
  map (fun c => constructs.sanitizeId (constructs.idOf c))
      (SharedResourceStack.children
         (SharedResourceStack.init false configuration n)).

(** [new DynamoDbContinuousIncrementalExportsStack(scope, id, props)] under
    the shared stack: the nested stack adds itself to the children of the
    scope, and then the construct that holds its resource, under
    [id + '.NestedStack'].  ([init] is asynchronous and goes on after the
    constructor has returned.) *)
Definition newNestedStack (children : list string) (stack : NestedStack)
  : Err (list string) :=
  Err_bind (constructs.addChild children (id stack)) (fun children =>
  constructs.addChild children (id stack ++ ".NestedStack")).

(** The body of the [forEach] callback. *)
Definition callback (configuration : Configuration) (children : list string)
           (tableName : string) : Err (NestedStack * list string) :=
  Err_bind (createStack configuration tableName) (fun stack =>
  Err_bind (newNestedStack children stack) (fun children =>
  OK (stack, children))).

(** [Array.prototype.forEach] over a callback that constructs a stack
    under the shared-resources stack: the stacks accumulate in creation
    order among the children of the scope, and a throw stops the loop. *)
Fixpoint forEach (f : list string -> string -> Err (NestedStack * list string))
         (tableNames : list string) (children : list string)
         (stacks : list NestedStack) : Err (list NestedStack) :=
  match tableNames with
  | [] => OK stacks
  | tableName :: rest =>
      Err_bind (f children tableName)
               (fun made =>
                  forEach f rest (snd made) (stacks ++ [fst made])%list)
  end.

(** [new DynamoDbContinuousIncrementalSharedResourceStack(...)] and
    [configuration.sourceDynamoDbTableName.split(',').filter(...).forEach(...)],
    returning the nested stacks created. *)
Definition main (configuration : Configuration)
           (n : constructs.Notifications) : Err (list NestedStack) :=
  forEach (callback configuration)
          (filter (fun tableName =>
                     (0 <? String.length (JsString.trim tableName))%nat)
                  (JsString.split "," (sourceDynamoDbTableName configuration)))
          (sharedChildren configuration n)
          [].

End Bin.


(* ------------------------------------------------------------------ *)
(** ** The nodes and conditions of the workflow *)

(** The states that [NodeBuilder] exposes, under the names by which
    [deployStepFunction] reaches them ([nb.executeFullExport], ...). *)
Module nb.

Inductive node :=
| notifyOnIncrementalExport
| notifyOnTaskFailed
| didIncrementalExportCompleteSuccessfully
| incrementalExportFailed
| incrementalExportSucceeded
| setWorkflowStateParameterToPitrGap
| notifyOnIncrementalExportStartTimeOutsidePitrWindow
| incrementalExportStartTimeOutsidePitrWindowFail
| getNextIncrementalExportTimeLambdaInvoke
| checkIncrementalExportNeeded
| incrementalExportNotNeeded
| isEarliestRestoreDateTimeValidChoice
| executeIncrementalExport
| setLastIncrementalExportTimeParameter
| describeIncrementalExport
| incrementalExportCompletedState
| incrementalExportParameterTrue
| incrementalExportParameterFalse
| waitForIncrementalExport
| setWorkflowInitiatedParameter
| notifyOnFullExport
| didWorkflowInitiateSuccessfully
| fullExportFailed
| fullExportSucceeded
| taskFailedNode
| executeFullExport
| setFullExportTimeParameter
| setWorkflowActionParameterToRun
| setWorkflowStateParameterToNormal
| setEmptyWorkflowInitiatedParameter
| deleteLastIncrementalExportTimeParameter
| describeFullExport
| fullExportCompletedState
| workflowInitializedParameterTrue
| workflowInitializedParameterFalse
| waitForFullExport
| getParametersTask
| cleanParametersPassState
| checkWorkflowAction
| workflowPaused
| ensureTableExistsTask
| describeContinuousBackupsAwsServiceTask
| pitrEnabledChoice
| initializeWorkflowState
| notifyOnFullExportRunning
| fullExportStillRunning
| notifyOnPitrGap
| pitrGapFound
| isLastIncrementalExportParameterValid
| useLastIncrementalExportTimeParameterValue
| useFullExportTimeParameterValue
| notifyOnPitrDisabled
| pitrDisabledFail.

Scheme Equality for node.

(** Every node, for exhaustive checks. *)
Definition all : list node :=
  [ notifyOnIncrementalExport; notifyOnTaskFailed;
    didIncrementalExportCompleteSuccessfully; incrementalExportFailed;
    incrementalExportSucceeded; setWorkflowStateParameterToPitrGap;
    notifyOnIncrementalExportStartTimeOutsidePitrWindow;
    incrementalExportStartTimeOutsidePitrWindowFail;
    getNextIncrementalExportTimeLambdaInvoke; checkIncrementalExportNeeded;
    incrementalExportNotNeeded; isEarliestRestoreDateTimeValidChoice;
    executeIncrementalExport; setLastIncrementalExportTimeParameter;
    describeIncrementalExport; incrementalExportCompletedState;
    incrementalExportParameterTrue; incrementalExportParameterFalse;
    waitForIncrementalExport; setWorkflowInitiatedParameter;
    notifyOnFullExport; didWorkflowInitiateSuccessfully; fullExportFailed;
    fullExportSucceeded; taskFailedNode; executeFullExport;
    setFullExportTimeParameter; setWorkflowActionParameterToRun;
    setWorkflowStateParameterToNormal; setEmptyWorkflowInitiatedParameter;
    deleteLastIncrementalExportTimeParameter; describeFullExport;
    fullExportCompletedState; workflowInitializedParameterTrue;
    workflowInitializedParameterFalse; waitForFullExport; getParametersTask;
    cleanParametersPassState; checkWorkflowAction; workflowPaused;
    ensureTableExistsTask; describeContinuousBackupsAwsServiceTask;
    pitrEnabledChoice; initializeWorkflowState; notifyOnFullExportRunning;
    fullExportStillRunning; notifyOnPitrGap; pitrGapFound;
    isLastIncrementalExportParameterValid;
    useLastIncrementalExportTimeParameterValue;
    useFullExportTimeParameterValue; notifyOnPitrDisabled; pitrDisabledFail ].

(** The kinds of Step Functions states. *)
Inductive StateKind :=
| TaskState | PassState | WaitState | ChoiceState | SucceedState | FailState.

(** Modelled from the spec: [lib/nodeBuilder.ts], which constructs the nodes,
    is not among the sources.  The kind of each node is the one under which
    [deployStepFunction] uses it: a node that receives [when] is a Choice; a
    node that receives [addCatch] or [addRetry] is a Task, and so are the two
    remaining notification publishers ([notifyOn...]); a node that is only
    ever the last of a chain ends the execution, failing it where the name
    or the spec says so (task failed, PITR disabled, PITR gap, start time
    outside the PITR window, export failed); the wait-for and
    parameter-value nodes in between are Wait and Pass states. *)
Definition kind (n : node) : StateKind :=
  match n with
  | didIncrementalExportCompleteSuccessfully | checkIncrementalExportNeeded
  | isEarliestRestoreDateTimeValidChoice | incrementalExportCompletedState
  | didWorkflowInitiateSuccessfully | fullExportCompletedState
  | checkWorkflowAction | pitrEnabledChoice | initializeWorkflowState
  | isLastIncrementalExportParameterValid => ChoiceState
  | waitForIncrementalExport | waitForFullExport => WaitState
  | incrementalExportParameterTrue | incrementalExportParameterFalse
  | workflowInitializedParameterTrue | workflowInitializedParameterFalse
  | cleanParametersPassState | useLastIncrementalExportTimeParameterValue
  | useFullExportTimeParameterValue => PassState
  | incrementalExportSucceeded | incrementalExportNotNeeded
  | fullExportSucceeded | workflowPaused | fullExportStillRunning =>
      SucceedState
  | incrementalExportFailed | incrementalExportStartTimeOutsidePitrWindowFail
  | fullExportFailed | taskFailedNode | pitrGapFound | pitrDisabledFail =>
      FailState
  | getParametersTask | ensureTableExistsTask
  | describeContinuousBackupsAwsServiceTask
  | executeFullExport | setFullExportTimeParameter
  | setWorkflowActionParameterToRun | setWorkflowStateParameterToNormal
  | setEmptyWorkflowInitiatedParameter
  | deleteLastIncrementalExportTimeParameter | describeFullExport
  | setWorkflowInitiatedParameter
  | getNextIncrementalExportTimeLambdaInvoke | executeIncrementalExport
  | setLastIncrementalExportTimeParameter | describeIncrementalExport
  | setWorkflowStateParameterToPitrGap
  | notifyOnFullExport | notifyOnIncrementalExport
  | notifyOnFullExportRunning | notifyOnPitrGap | notifyOnPitrDisabled
  | notifyOnIncrementalExportStartTimeOutsidePitrWindow
  | notifyOnTaskFailed => TaskState
  end.

(** [INextable]: the states that offer [next]. *)
Definition nextable (n : node) : bool :=
  match kind n with
  | TaskState | PassState | WaitState => true
  | _ => false
  end.

End nb.

(** The conditions that [ConditionBuilder] exposes ([cb.pitrIsEnabled], ...). *)
Module cb.

Inductive condition :=
| incrementalExportStateIsFalse
| nextIncrementalExportEndTimeIsPastCurrentTime
| earliestRestoreDateTimeIsGreaterThanExportStartTime
| incrementalExportCompleted
| incrementalExportFailed
| workflowInitializedParameterOutputFalse
| fullExportCompleted
| fullExportFailed
| isWorkflowPaused
| pitrIsEnabled
| fullExportStillRunning
| resetWithFullExportAgain
| pitrGapWorkflowState
| executeFullExport
| lastIncrementalExportTimeIsValid.

End cb.

(* ------------------------------------------------------------------ *)
(** ** The state-machine builder of the CDK

    [aws_stepfunctions] keeps, per state, the catchers, retriers, choices and
    transitions added so far.  The builder calls mutate that graph and may
    throw, so they run in a state-and-exception monad over the graph. *)
Module sfn.

Record CatchProps := mkCatchProps {
  catchErrors : list string;
  resultPath : option string
}.

Record CatchTransition := mkCatch {
  handler : nb.node;
  props : CatchProps
}.

Record RetryProps := mkRetryProps {
  errors : list string;
  interval : Duration.t;
  maxAttempts : nat;
  backoffRate : Q
}.

Record State := mkState {
  catches : list CatchTransition;
  retries : list RetryProps;
  _next : option nb.node;
  choices : list (cb.condition * nb.node);
  defaultChoice : option nb.node
}.

Definition Graph := nb.node -> State.

Definition newState : State := mkState [] [] None [] None.

(** The graph before [deployStepFunction] runs: no state is wired. *)
Definition unwired : Graph := fun _ => newState.

Definition update (g : Graph) (n : nb.node) (s : State) : Graph :=
  fun m => if nb.node_beq m n then s else g m.

(** An end of a chain: a state awaiting its [next], or a Choice awaiting
    its [otherwise] ([DefaultAsNext]). *)
Inductive EndState :=
| EndOf (state : nb.node)
| DefaultAsNext (choice : nb.node).

(** [IChainable]: a state or a chain, with its start and its open ends.  A
    state on its own starts at itself and, when it offers [next], is its own
    single end. *)
Record Chainable := mkChainable {
  startState : nb.node;
  endStates : list EndState
}.

Definition M (A : Type) : Type := Graph -> Err (A * Graph).

Definition ret {A} (a : A) : M A := fun g => OK (a, g).

Definition bind {A B} (m : M A) (k : A -> M B) : M B :=
  fun g => match m g with
           | OK (a, g') => k a g'
           | Throw msg => Throw msg
           end.

Definition throw {A} (msg : string) : M A := fun _ => Throw msg.

Definition lift {A} (e : Err A) : M A :=
  fun g => match e with OK a => OK (a, g) | Throw msg => Throw msg end.

Definition get : M Graph := fun g => OK (g, g).

Definition modify (n : nb.node) (f : State -> State) : M unit :=
  fun g => OK (tt, update g n (f (g n))).

(** An expression of the source that evaluates to a chainable. *)
Definition Expr : Type := M Chainable.

(** [nb.someNode] used as an expression. *)
Definition state (n : nb.node) : Expr :=
  ret (mkChainable n (if nb.nextable n then [EndOf n] else [])).

(** A method call on the value of an expression. *)
Definition call (recv : Expr) (method : Chainable -> Expr) : Expr :=
  bind recv method.

End sfn.

Coercion sfn.state : nb.node >-> sfn.Expr.

Declare Scope cdk_scope.
Delimit Scope cdk_scope with cdk.
Notation "x <- m ;; k" := (sfn.bind m (fun x => k))
  (at level 61, m at next level, right associativity) : cdk_scope.
Notation "m ;; k" := (sfn.bind m (fun _ => k))
  (at level 61, right associativity) : cdk_scope.
(** Method call: the receiver is evaluated first, then the arguments inside
    the method, then the call itself — JavaScript's order. *)
Notation "recv |> method" := (sfn.call recv method)
  (at level 50, left associativity) : cdk_scope.

Module Builder.
Import sfn.
Local Open Scope cdk_scope.

Definition setCatches (v : list CatchTransition) (s : State) : State :=
  mkState v (retries s) (_next s) (choices s) (defaultChoice s).
Definition setRetries (v : list RetryProps) (s : State) : State :=
  mkState (catches s) v (_next s) (choices s) (defaultChoice s).
Definition setNext (v : option nb.node) (s : State) : State :=
  mkState (catches s) (retries s) v (choices s) (defaultChoice s).
Definition setChoices (v : list (cb.condition * nb.node)) (s : State) : State :=
  mkState (catches s) (retries s) (_next s) v (defaultChoice s).
Definition setDefaultChoice (v : option nb.node) (s : State) : State :=
  mkState (catches s) (retries s) (_next s) (choices s) v.

(** [Errors.ALL] *)
Definition ALL : string := "States.ALL".

Definition includes (xs : list string) (x : string) : bool :=
  existsb (String.eqb x) xs.

(** [validateErrors]: [States.ALL] must appear alone in an error list. *)
Definition validateErrors (errors : list string) : M unit :=
  if includes errors ALL && (1 <? List.length errors)%nat
  then throw "States.ALL must appear alone in an error list"
  else ret tt.

(** [state.addCatch(handler, { errors, resultPath })]: pushes a catcher and
    returns the receiver. *)
Definition addCatch (handler : Expr) (errors : list string)
           (resultPath : option string) (recv : Chainable) : Expr :=
  h <- handler ;;
  validateErrors errors ;;
  modify (startState recv)
         (fun s => setCatches
                     (catches s ++ [mkCatch (startState h)
                                            (mkCatchProps errors resultPath)])%list
                     s) ;;
  ret recv.

(** [state.addRetry(props)]: pushes a retrier and returns the receiver. *)
Definition addRetry (props : M RetryProps) (recv : Chainable) : Expr :=
  p <- props ;;
  validateErrors (errors p) ;;
  modify (startState recv) (fun s => setRetries (retries s ++ [p])%list s) ;;
  ret recv.

(** [makeNext] and [makeDefault]: a transition is set once. *)
Definition makeNext (n target : nb.node) : M unit :=
  g <- get ;;
  match _next (g n) with
  | Some _ => throw "State already has a next state"
  | None => modify n (setNext (Some target))
  end.

Definition makeDefault (choice target : nb.node) : M unit :=
  g <- get ;;
  match defaultChoice (g choice) with
  | Some _ => throw "Choice already has an otherwise transition"
  | None => modify choice (setDefaultChoice (Some target))
  end.

Definition endStateNext (target : nb.node) (e : EndState) : M unit :=
  match e with
  | EndOf n => makeNext n target
  | DefaultAsNext choice => makeDefault choice target
  end.

Fixpoint forEachEnd (f : EndState -> M unit) (ends : list EndState) : M unit :=
  match ends with
  | [] => ret tt
  | e :: rest => f e ;; forEachEnd f rest
  end.

(** [chain.next(arg)] and, for a Task, Pass or Wait state, [state.next(arg)]:
    every open end continues at the start of [arg]; the result is the chain
    from the receiver's start to the ends of [arg]. *)
Definition next (arg : Expr) (recv : Chainable) : Expr :=
  a <- arg ;;
  match endStates recv with
  | [] => throw "Cannot add to chain: last state in chain does not allow it"
  | ends =>
      forEachEnd (endStateNext (startState a)) ends ;;
      ret (mkChainable (startState recv) (endStates a))
  end.

(** [choice.when(condition, arg)]: pushes a rule and returns the Choice. *)
Definition when (condition : cb.condition) (arg : Expr) (recv : Chainable)
  : Expr :=
  a <- arg ;;
  modify (startState recv)
         (fun s => setChoices (choices s ++ [(condition, startState a)])%list s) ;;
  ret recv.

(** [outgoingTransitions] without error handlers, the default of
    [findReachableEndStates]. *)
Definition outgoingTransitions (g : Graph) (n : nb.node) : list nb.node :=
  ((match _next (g n) with Some x => [x] | None => [] end)
     ++ (match defaultChoice (g n) with Some x => [x] | None => [] end)
     ++ map snd (choices (g n)))%list.

Definition visitedHas (visited : list nb.node) (n : nb.node) : bool :=
  existsb (nb.node_beq n) visited.

(** [State.findReachableEndStates]: the breadth-first loop over a queue.  A
    state is dequeued at most once unvisited and enqueues its transitions, so
    the loop ends; [fuel] bounds the number of dequeues. *)
Fixpoint findReachableEndStates (fuel : nat) (g : Graph)
         (queue visited found : list nb.node) : Err (list nb.node) :=
  match fuel with
  | O => Throw "findReachableEndStates: out of fuel"
  | S fuel' =>
      match queue with
      | [] => OK found
      | s :: queue' =>
          if visitedHas visited s
          then findReachableEndStates fuel' g queue' visited found
          else
            match outgoingTransitions g s with
            | [] => findReachableEndStates fuel' g queue' (s :: visited)
                                           (found ++ [s])%list
            | outgoing =>
                findReachableEndStates fuel' g (queue' ++ outgoing)%list
                                       (s :: visited) found
            end
      end
  end.

(** [choice.afterwards({ includeOtherwise })]: the chain from the Choice to
    the reachable ends that offer [next], with the Choice's own default as
    one more end when [includeOtherwise] is set. *)
Definition afterwards (includeOtherwise : bool) (recv : Chainable) : Expr :=
  let choice := startState recv in
  g <- get ;;
  reachable <- lift (findReachableEndStates 1000 g [choice] [] []) ;;
  let ends := map EndOf (filter nb.nextable reachable) in
  match includeOtherwise, defaultChoice (g choice) with
  | true, Some _ =>
      throw "'includeOtherwise' set but Choice state already has an 'otherwise' transition"
  | true, None => ret (mkChainable choice (ends ++ [DefaultAsNext choice])%list)
  | false, _ => ret (mkChainable choice ends)
  end.

End Builder.

(* ------------------------------------------------------------------ *)
(** ** The export stack *)

(** The constants that the stack imports from [lib/constants/], none of
    which is among the sources; the development is parametric in them.
    [SDK_EXCEPTION_INTERVAL] stands for the duration
    [cdk.Duration.seconds(IncrementalExportDefaults.SDK_EXCEPTION_INTERVAL_DURATION_SECONDS)]. *)
Record Constants := mkConstants {
  SDK_EXCEPTION_INTERVAL : Duration.t;
  SDK_EXCEPTION_RETRY_ATTEMPTS : nat;
  SDK_EXCEPTION_BACKOFF_RATE : Q;
  PUT_WORKFLOW_ACTION_PARAMETER_TO_RUN_OUTPUT : string;
  PUT_WORKFLOW_STATE_PARAMETER_TO_NORMAL_OUTPUT : string;
  DELETE_LAST_INCREMENTAL_EXPORT_TIME_PARAMETER_OUTPUT : string;
  SCHEDULE_MODE_FLEXIBLE : string;
  ENABLED : string
}.

Module ExportsStack.
Import sfn Builder.
Local Open Scope cdk_scope.

Section WithConstants.
Variable K : Constants.

Definition dynamoDbSdkRetryHandler : M RetryProps :=
  ret {| errors := ["DynamoDb.SdkClientException"];
         interval := SDK_EXCEPTION_INTERVAL K;
         maxAttempts := SDK_EXCEPTION_RETRY_ATTEMPTS K;
         backoffRate := SDK_EXCEPTION_BACKOFF_RATE K |}.

Definition ssmSdkRetryHandler : M RetryProps :=
  ret {| errors := ["Ssm.SdkClientException"];
         interval := SDK_EXCEPTION_INTERVAL K;
         maxAttempts := SDK_EXCEPTION_RETRY_ATTEMPTS K;
         backoffRate := SDK_EXCEPTION_BACKOFF_RATE K |}.

(** The retrier written inline at [executeIncrementalExport]. *)
Definition invalidExportTimeRetry : M RetryProps :=
  interval <- lift (Duration.minutes 1) ;;
  ret {| errors := ["DynamoDb.InvalidExportTimeException"];
         interval := interval;
         maxAttempts := 2;
         backoffRate := 1 |}.

(** [deployStepFunction], statement by statement; the last statement is
    [const definition = ...], whose value is returned. *)
Definition deployStepFunction : Expr :=
  (nb.notifyOnIncrementalExport |> addCatch nb.notifyOnTaskFailed ["States.ALL"] None
    |> next (nb.didIncrementalExportCompleteSuccessfully
      |> when cb.incrementalExportStateIsFalse nb.incrementalExportFailed
      |> afterwards true
      |> next nb.incrementalExportSucceeded
    )) ;;

  (nb.setWorkflowStateParameterToPitrGap
      |> addCatch nb.notifyOnTaskFailed ["States.ALL"] None
      |> addRetry ssmSdkRetryHandler
    |> next (nb.notifyOnIncrementalExportStartTimeOutsidePitrWindow
      |> next nb.incrementalExportStartTimeOutsidePitrWindowFail
    )) ;;

  (nb.getNextIncrementalExportTimeLambdaInvoke |> addCatch nb.notifyOnTaskFailed ["States.ALL"] None
    |> next (nb.checkIncrementalExportNeeded
      |> when cb.nextIncrementalExportEndTimeIsPastCurrentTime nb.incrementalExportNotNeeded
      |> afterwards true
      |> next (nb.isEarliestRestoreDateTimeValidChoice
        |> when cb.earliestRestoreDateTimeIsGreaterThanExportStartTime nb.setWorkflowStateParameterToPitrGap
        |> afterwards true
        |> next (nb.executeIncrementalExport
            |> addCatch nb.notifyOnTaskFailed ["States.ALL"] None
            |> addCatch nb.setWorkflowStateParameterToPitrGap ["DynamoDb.InvalidExportTimeException"] None
            |> addRetry invalidExportTimeRetry
            |> addRetry dynamoDbSdkRetryHandler
          |> next (nb.setLastIncrementalExportTimeParameter
              |> addCatch nb.notifyOnTaskFailed ["States.ALL"] None
              |> addRetry ssmSdkRetryHandler
            |> next (nb.describeIncrementalExport
                |> addRetry dynamoDbSdkRetryHandler
                |> addCatch nb.notifyOnTaskFailed ["States.ALL"] None
              |> next (nb.incrementalExportCompletedState
                |> when cb.incrementalExportCompleted (nb.incrementalExportParameterTrue |> next nb.notifyOnIncrementalExport)
                |> when cb.incrementalExportFailed (nb.incrementalExportParameterFalse |> next nb.notifyOnIncrementalExport)
                |> afterwards true
                |> next (nb.waitForIncrementalExport
                  |> next nb.describeIncrementalExport
                )
              )
            )
          )
        )
      )
    )) ;;

  (nb.setWorkflowInitiatedParameter
      |> addCatch nb.notifyOnTaskFailed ["States.ALL"] None
      |> addRetry ssmSdkRetryHandler
    |> next (nb.notifyOnFullExport |> addCatch nb.notifyOnTaskFailed ["States.ALL"] None
      |> next (nb.didWorkflowInitiateSuccessfully
        |> when cb.workflowInitializedParameterOutputFalse nb.fullExportFailed
        |> afterwards true
        |> next nb.fullExportSucceeded
      )
    )) ;;

  (nb.notifyOnTaskFailed |> next nb.taskFailedNode) ;;

  (nb.executeFullExport
      |> addCatch nb.notifyOnTaskFailed ["States.ALL"] None
      |> addRetry dynamoDbSdkRetryHandler
    |> next (nb.setFullExportTimeParameter
        |> addCatch nb.notifyOnTaskFailed ["States.ALL"] None
        |> addRetry ssmSdkRetryHandler
      |> next (nb.setWorkflowActionParameterToRun
          |> addCatch nb.setEmptyWorkflowInitiatedParameter
               ["Ssm.ParameterNotFoundException"]
               (Some ("$." ++ PUT_WORKFLOW_ACTION_PARAMETER_TO_RUN_OUTPUT K))
          |> addCatch nb.notifyOnTaskFailed ["States.ALL"] None
          |> addRetry ssmSdkRetryHandler
        |> next (nb.setWorkflowStateParameterToNormal
            |> addCatch nb.setEmptyWorkflowInitiatedParameter
                 ["Ssm.ParameterNotFoundException"]
                 (Some ("$." ++ PUT_WORKFLOW_STATE_PARAMETER_TO_NORMAL_OUTPUT K))
            |> addCatch nb.notifyOnTaskFailed ["States.ALL"] None
            |> addRetry ssmSdkRetryHandler
          |> next (nb.setEmptyWorkflowInitiatedParameter
              |> addCatch nb.notifyOnTaskFailed ["States.ALL"] None
              |> addRetry ssmSdkRetryHandler
            |> next (nb.deleteLastIncrementalExportTimeParameter
                |> addCatch nb.describeFullExport
                     ["Ssm.ParameterNotFoundException"]
                     (Some ("$." ++ DELETE_LAST_INCREMENTAL_EXPORT_TIME_PARAMETER_OUTPUT K))
                |> addCatch nb.notifyOnTaskFailed ["States.ALL"] None
                |> addRetry ssmSdkRetryHandler
              |> next (nb.describeFullExport
                  |> addRetry dynamoDbSdkRetryHandler
                  |> addCatch nb.notifyOnTaskFailed ["States.ALL"] None
                |> next (nb.fullExportCompletedState
                  |> when cb.fullExportCompleted (nb.workflowInitializedParameterTrue |> next nb.setWorkflowInitiatedParameter)
                  |> when cb.fullExportFailed (nb.workflowInitializedParameterFalse |> next nb.setWorkflowInitiatedParameter)
                  |> afterwards true
                  |> next (nb.waitForFullExport
                    |> next nb.describeFullExport
                  )
                )
              )
            )
          )
        )
      )
    )) ;;

  (nb.getParametersTask
          |> addCatch nb.notifyOnTaskFailed ["States.ALL"] None
          |> addRetry ssmSdkRetryHandler
        |> next (nb.cleanParametersPassState
          |> next (nb.checkWorkflowAction
            |> when cb.isWorkflowPaused nb.workflowPaused
            |> afterwards true
            |> next (nb.ensureTableExistsTask
                |> addCatch nb.notifyOnTaskFailed ["States.ALL"] None
                |> addRetry dynamoDbSdkRetryHandler
              |> next (nb.describeContinuousBackupsAwsServiceTask
                  |> addRetry dynamoDbSdkRetryHandler
                  |> addCatch nb.notifyOnTaskFailed ["States.ALL"] None
                |> next (nb.pitrEnabledChoice
                  |> when cb.pitrIsEnabled (nb.initializeWorkflowState
                    |> when cb.fullExportStillRunning (nb.notifyOnFullExportRunning
                      |> addCatch nb.notifyOnTaskFailed ["States.ALL"] None
                      |> next nb.fullExportStillRunning)
                    |> when cb.resetWithFullExportAgain nb.executeFullExport
                    |> when cb.pitrGapWorkflowState (nb.notifyOnPitrGap
                      |> addCatch nb.notifyOnTaskFailed ["States.ALL"] None
                      |> next nb.pitrGapFound)
                    |> when cb.executeFullExport nb.executeFullExport
                    |> afterwards true
                    |> next (nb.isLastIncrementalExportParameterValid
                      |> when cb.lastIncrementalExportTimeIsValid
                        (nb.useLastIncrementalExportTimeParameterValue
                          |> next nb.getNextIncrementalExportTimeLambdaInvoke)
                      |> afterwards true
                      |> next (nb.useFullExportTimeParameterValue
                        |> next nb.getNextIncrementalExportTimeLambdaInvoke
                      )
                    ))
                  |> afterwards true
                  |> next (nb.notifyOnPitrDisabled |> addCatch nb.notifyOnTaskFailed ["States.ALL"] None
                    |> next nb.pitrDisabledFail
                  )
                )
              )
            )
          )
        )).

End WithConstants.
End ExportsStack.

(* ------------------------------------------------------------------ *)
(** ** Rendering and executing the state machine *)
Module asl.
Import sfn Builder.

(** A state as the CDK renders it into the definition of the machine. *)
Record StateJson := mkStateJson {
  Type_ : nb.StateKind;
  Next : option nb.node;
  Retry : list RetryProps;
  Catch : list CatchTransition;
  Choices : list (cb.condition * nb.node);
  Default : option nb.node
}.

(** [State.renderRetryCatch] of [aws-cdk-lib] renders the retriers and the
    catchers through [renderList(xs, render, compareErrors)]: the list is
    sorted with a comparator, [compareErrors], that orders an entry whose
    errors include [States.ALL] after any other entry and leaves the rest
    alone, because the Amazon States Language wants the wildcard last.  The
    sort is stable, so the entries without the wildcard keep the order in
    which [addCatch] and [addRetry] pushed them, and those with it follow.
    (The stack asks for [lambda.Runtime.NODEJS_22_X], so its [aws-cdk-lib]
    is recent enough to sort.) *)
Definition allLast {A} (errorsOf : A -> list string) (xs : list A) : list A :=
  (filter (fun x => negb (includes (errorsOf x) ALL)) xs
     ++ filter (fun x => includes (errorsOf x) ALL) xs)%list.

(** [toStateJson] *)
Definition toStateJson (g : Graph) (n : nb.node) : StateJson :=
  let s := g n in
  {| Type_ := nb.kind n;
     Next := _next s;
     Retry := allLast errors (retries s);
     Catch := allLast (fun c => catchErrors (props c)) (catches s);
     Choices := choices s;
     Default := defaultChoice s |}.

(** The truth of each condition on the data the execution carries. *)
Definition Valuation : Type := cb.condition -> bool.

(** What the outside world contributes to one step: whether the task fails,
    and with which error name, and the conditions that hold on the data
    after the step. *)
Record Event := mkEvent {
  failure : option string;
  output : Valuation
}.

Inductive Status :=
| Succeeded
| Failed
| Aborted (error : string).

Inductive Action :=
| Goto (n : nb.node)
| RetryAfter (seconds : Q) (used : list nat)
| Stop (s : Status).

(** An error name matches a list when the list names it or the wildcard.
    The errors of the model are those a retrier or catcher can be offered;
    the few reserved names that the service withholds from [States.ALL] are
    not among them. *)
Definition errorMatches (errorEquals : list string) (e : string) : bool :=
  existsb (fun x => String.eqb x ALL || String.eqb x e) errorEquals.

Definition inSeconds (d : Duration.t) : Q :=
  (Duration.amount d * inject_Z (Duration.inMillis (Duration.unit d))
   / inject_Z 1000)%Q.

(** The pause before retry number [attempt + 1] of a retrier:
    [IntervalSeconds * BackoffRate ^ attempt]. *)
Definition delaySeconds (r : RetryProps) (attempt : nat) : Q :=
  (inSeconds (interval r) * backoffRate r ^ Z.of_nat attempt)%Q.

(** The retriers are scanned in order; the first that matches the error
    decides: it retries while its own count is below [MaxAttempts], and
    otherwise the error goes on to the catchers.  [used] holds the count of
    each retrier since the state was entered. *)
Fixpoint scanRetriers (rs : list RetryProps) (used : list nat) (e : string)
  : option (Q * list nat) :=
  match rs with
  | [] => None
  | r :: rs' =>
      let u := hd 0 used in
      if errorMatches (errors r) e
      then if (u <? maxAttempts r)%nat
           then Some (delaySeconds r u, S u :: tl used)
           else None
      else match scanRetriers rs' (tl used) e with
           | Some (d, used') => Some (d, u :: used')
           | None => None
           end
  end.

(** The first catcher that matches the error takes the execution over. *)
Definition scanCatchers (cs : list CatchTransition) (e : string) : option nb.node :=
  match find (fun c => errorMatches (catchErrors (props c)) e) cs with
  | Some c => Some (handler c)
  | None => None
  end.

(** The first rule of a Choice whose condition holds decides. *)
Definition firstChoice (rules : list (cb.condition * nb.node)) (v : Valuation)
  : option nb.node :=
  match find (fun rule => v (fst rule)) rules with
  | Some rule => Some (snd rule)
  | None => None
  end.

(** Leaving a state that has no [Next] ends the execution ([End: true]). *)
Definition proceed (j : StateJson) : Action :=
  match Next j with
  | Some n => Goto n
  | None => Stop Succeeded
  end.

(** One step of the interpreter at a state, and the data after it.  A task
    that succeeds, or whose error a catcher takes over, hands on the data of
    the event's output; a retry and the states that only route or wait leave
    the data as they are; a Pass state hands on what it makes of them. *)
Definition step (j : StateJson) (v : Valuation) (used : list nat) (ev : Event)
  : Action * Valuation :=
  match Type_ j with
  | nb.TaskState =>
      match failure ev with
      | None => (proceed j, output ev)
      | Some e =>
          match scanRetriers (Retry j) used e with
          | Some (d, used') => (RetryAfter d used', v)
          | None =>
              match scanCatchers (Catch j) e with
              | Some n => (Goto n, output ev)
              | None => (Stop (Aborted e), v)
              end
          end
      end
  | nb.PassState => (proceed j, output ev)
  | nb.WaitState => (proceed j, v)
  | nb.ChoiceState =>
      match firstChoice (Choices j) v with
      | Some n => (Goto n, v)
      | None =>
          match Default j with
          | Some n => (Goto n, v)
          | None => (Stop (Aborted "States.NoChoiceMatched"), v)
          end
      end
  | nb.SucceedState => (Stop Succeeded, v)
  | nb.FailState => (Stop Failed, v)
  end.

(** One entry of an execution's history: the state executed and, for a task
    attempt that failed, the error. *)
Definition Visit : Type := nb.node * option string.

Definition visit (j : StateJson) (n : nb.node) (ev : Event) : Visit :=
  match Type_ j with
  | nb.TaskState => (n, failure ev)
  | _ => (n, None)
  end.

Inductive Outcome :=
| Running (n : nb.node)
| Finished (s : Status).

(** The execution from state [n], one event per step (a step that asks
    nothing of the outside world ignores its event), until it ends or the
    events run out.  Entering a state resets the retry counts. *)
Fixpoint run (machine : nb.node -> StateJson) (evs : list Event)
         (n : nb.node) (v : Valuation) (used : list nat)
  : list Visit * Outcome :=
  match evs with
  | [] => ([], Running n)
  | ev :: evs' =>
      let here := visit (machine n) n ev in
      match step (machine n) v used ev with
      | (Goto n', v') =>
          let (history, outcome) := run machine evs' n' v' [] in
          (here :: history, outcome)
      | (RetryAfter _ used', v') =>
          let (history, outcome) := run machine evs' n v' used' in
          (here :: history, outcome)
      | (Stop s, _) => ([here], Finished s)
      end
  end.

End asl.

Module ExportsStackMachine.
Import sfn asl.

(** The machine that [new sfn.StateMachine] receives from
    [deployStepFunction]: the graph it wired, rendered, and the start of
    [definition]. *)
Definition stateMachine (K : Constants) : nb.node -> StateJson :=
  match ExportsStack.deployStepFunction K unwired with
  | OK (_, g) => toStateJson g
  | Throw _ => toStateJson unwired
  end.

Definition startAt (K : Constants) : nb.node :=
  match ExportsStack.deployStepFunction K unwired with
  | OK (definition, _) => startState definition
  | Throw _ => nb.getParametersTask
  end.

(** An execution of the machine from its start. *)
Definition execution (K : Constants) (v0 : Valuation) (evs : list Event)
  : list Visit * Outcome :=
  run (stateMachine K) evs (startAt K) v0 [].

End ExportsStackMachine.

(* ------------------------------------------------------------------ *)
(** ** [init]: validation, state machine and schedule *)
Module ExportsStackInit.
Import asl ExportsStackMachine.

Record FlexibleTimeWindow := mkFlexibleTimeWindow {
  mode : string;
  maximumWindowInMinutes : Z
}.

Record RetryPolicy := mkRetryPolicy {
  maximumEventAgeInSeconds : Z;
  maximumRetryAttempts : Z
}.

Record Target := mkTarget {
  arn : string;
  roleArn : string;
  retryPolicy : RetryPolicy
}.

Record CfnSchedule := mkCfnSchedule {
  flexibleTimeWindow : FlexibleTimeWindow;
  scheduleExpression : string;
  target : Target;
  description : string;
  state : string
}.

(** [sanityChecks] *)
Definition sanityChecks (configuration : Configuration) : Err unit :=
  if ((incrementalExportWindowSizeInMinutes configuration <? 15)
      || (incrementalExportWindowSizeInMinutes configuration >? 24 * 60))%Z
  then Throw "incrementalExportWindowSizeInMinutes has to be between 15 minutes and 1,440 minutes (24h)"
  else OK tt.

(** [Math.floor(this.configuration.incrementalExportWindowSizeInMinutes/3)] *)
Definition schedulerTime (configuration : Configuration) : Z :=
  Qfloor (inject_Z (incrementalExportWindowSizeInMinutes configuration) / 3)%Q.

(** [new scheduler.CfnSchedule(this, 'step-function-trigger-schedule', ...)];
    [stateMachineArn] and [schedulerRoleArn] stand for the tokens of the two
    resources the schedule refers to. *)
Definition createSchedule (K : Constants) (configuration : Configuration)
           (stateMachineArn schedulerRoleArn : string) : Err CfnSchedule :=
  let schedulerTime := schedulerTime configuration in
  Err_bind (Duration.minutes (inject_Z schedulerTime / 2)%Q) (fun maximumEventAge =>
  Err_bind (Duration.toSeconds maximumEventAge) (fun maximumEventAgeInSeconds =>
  OK {| flexibleTimeWindow :=
          {| mode := SCHEDULE_MODE_FLEXIBLE K;
             maximumWindowInMinutes := 15 |};
        scheduleExpression :=
          "rate(" ++ JsString.ofZ schedulerTime ++ " minutes)";
        target :=
          {| arn := stateMachineArn;
             roleArn := schedulerRoleArn;
             retryPolicy :=
               {| maximumEventAgeInSeconds := maximumEventAgeInSeconds;
                  maximumRetryAttempts := 1 |} |};
        description :=
          "Triggers the step function every "
            ++ JsString.ofZ schedulerTime ++ " minutes";
        state := ENABLED K |})).

(** What [init] constructs through code that is not among the sources, or
    from files on disk; each of these returns or throws:
    [new DataExportBucket(...)] ([lib/constructs/dataExportBucket.ts]), the
    asset [lambda.Code.fromAsset('./lib/runtime/...')] that
    [new lambda.Function] reads, [new ConditionBuilder()] and
    [new NodeBuilder(...)] ([lib/conditionBuilder.ts], [lib/nodeBuilder.ts]),
    and the registration of the states that [NodeBuilder] made when the
    state machine takes [DefinitionBody.fromChainable(definition)]. *)
Record Elsewhere := mkElsewhere {
  newDataExportBucket : Err unit;
  codeFromAsset : Err unit;
  newNodeBuilder : Err unit;
  definitionBody : Err unit
}.

(** [ddb.Table.fromTableName(this, id, tableName)] refuses an empty name. *)
Definition fromTableName (tableName : string) : Err unit :=
  match tableName with
  | EmptyString => Throw "One of tableName or tableArn is required!"
  | String _ _ => OK tt
  end.

(** The characters of the pattern [/^[a-z0-9+!@.()-=_']+$/i] (the hyphen is
    escaped in it). *)
Definition isStateMachineNameChar (c : ascii) : bool :=
  let n := nat_of_ascii c in
  (((65 <=? n) && (n <=? 90)) || ((97 <=? n) && (n <=? 122))
   || ((48 <=? n) && (n <=? 57)))%nat
  || existsb (Ascii.eqb c)
             (list_ascii_of_string "+!@.()-=_'").

Fixpoint allStateMachineNameChars (name : string) : bool :=
  match name with
  | EmptyString => true
  | String c rest => isStateMachineNameChar c && allStateMachineNameChars rest
  end.

(** [validateStateMachineName], which [new sfn.StateMachine] applies to a
    [stateMachineName] that is no token.  (The second message quotes the
    pattern.) *)
Definition validateStateMachineName (stateMachineName : string) : Err unit :=
  if ((String.length stateMachineName <? 1)
      || (80 <? String.length stateMachineName))%nat
  then Throw ("State Machine name must be between 1 and 80 characters. Received: "
                ++ stateMachineName)
  else if allStateMachineNameChars stateMachineName
  then OK tt
  else Throw ("State Machine name must match ^[a-z0-9+!@.()-=_']+$/i. Received: "
                ++ stateMachineName).

(** The end of [deployStepFunction]:
    [new sfn.StateMachine(this, stateMachineName, ...)] checks the name and
    takes the definition. *)
Definition newStateMachine (configuration : Configuration)
           (elsewhere : Elsewhere) : Err unit :=
  Err_bind (validateStateMachineName
              (ExportsStackResources.stateMachineName configuration))
           (fun _ => definitionBody elsewhere).

(** What [init] leaves in the stack: the state machine, the schedule, and
    what the notification module and [createOrUpdateSchedulerRole] have
    constructed. *)
Record Resources := mkResources {
  incrementalExportStateMachine : nb.node * (nb.node -> StateJson);
  cfnSchedule : CfnSchedule;
  constructed : list constructs.Construct
}.

(** [init], statement by statement: the sanity checks come first, and a
    throw ends the function before any resource is created; the schedule
    comes last, behind the bucket, the table, the notification module, the
    time manipulator, the builders, the state machine and the role of the
    scheduler. *)
Definition init (K : Constants) (configuration : Configuration)
           (props : ExportsStackResources.Props)
           (n : constructs.Notifications) (elsewhere : Elsewhere)
           (stateMachineArn schedulerRoleArn : string) : Err Resources :=
  Err_bind (sanityChecks configuration) (fun _ =>
  Err_bind (newDataExportBucket elsewhere) (fun _ =>
  Err_bind (fromTableName (sourceDynamoDbTableName configuration)) (fun _ =>
  let notification :=
    ExportsStackResources.deployNotificationModule props configuration n []
  in
  Err_bind (codeFromAsset elsewhere) (fun _ =>
  Err_bind (newNodeBuilder elsewhere) (fun _ =>
  Err_bind (ExportsStack.deployStepFunction K sfn.unwired) (fun built =>
  Err_bind (newStateMachine configuration elsewhere) (fun _ =>
  let scheduler :=
    ExportsStackResources.createOrUpdateSchedulerRole
      configuration props (snd notification) in
  Err_bind (createSchedule K configuration stateMachineArn schedulerRoleArn)
           (fun cfnSchedule =>
  OK {| incrementalExportStateMachine :=
          (sfn.startState (fst built), toStateJson (snd built));
        cfnSchedule := cfnSchedule;
        constructed := snd scheduler |})))))))).

(** The constructions between the sanity checks and the schedule return. *)
Definition constructionsReturn (configuration : Configuration)
           (elsewhere : Elsewhere) : Prop :=
  newDataExportBucket elsewhere = OK tt
  /\ sourceDynamoDbTableName configuration <> EmptyString
  /\ codeFromAsset elsewhere = OK tt
  /\ newNodeBuilder elsewhere = OK tt
  /\ validateStateMachineName
       (ExportsStackResources.stateMachineName configuration) = OK tt
  /\ definitionBody elsewhere = OK tt.

End ExportsStackInit.

(* ------------------------------------------------------------------ *)
(** ** The data the conditions read *)
Module WorkflowData.

Inductive WorkflowAction := PAUSE | RUN.
Inductive WorkflowState := NORMAL | PITR_GAP.

(** The inputs of a cycle that the spec names: the workflow parameters, the
    PITR status with its earliest restorable time, whether a full export is
    still running, the "reset with full export again" condition, and the
    export window computed by the time manipulator next to the current time.
    [others] gives the truth of the conditions the spec does not detail. *)
Record t := mk {
  workflowAction : WorkflowAction;
  workflowState : WorkflowState;
  workflowInitiated : bool;
  resetWithFullExport : bool;
  fullExportRunning : bool;
  pitrEnabled : bool;
  earliestRestorableTime : Z;
  exportFromTime : Z;
  exportToTime : Z;
  currentTime : Z;
  others : cb.condition -> bool
}.

Definition isPitrGap (d : t) : bool :=
  match workflowState d with PITR_GAP => true | NORMAL => false end.

Definition isPaused (d : t) : bool :=
  match workflowAction d with PAUSE => true | RUN => false end.

(** Modelled from the spec: [lib/conditionBuilder.ts], which defines the
    conditions, is not among the sources.  Each condition reads as the spec
    words the branch it guards: "WorkflowAction PAUSED", "PITR enabled",
    "full export still running", "WorkflowState == PITR_GAP and condition
    reset with full export again holds", "WorkflowState == PITR_GAP",
    "WorkflowInitiated == false", "computed window's end is already in the
    past relative to now" (end time <= current time) and "the watermark
    predates the PITR earliest-restorable time". *)
Definition holds (d : t) : asl.Valuation :=
  fun c =>
    match c with
    | cb.isWorkflowPaused => isPaused d
    | cb.pitrIsEnabled => pitrEnabled d
    | cb.fullExportStillRunning => fullExportRunning d
    | cb.resetWithFullExportAgain => isPitrGap d && resetWithFullExport d
    | cb.pitrGapWorkflowState => isPitrGap d
    | cb.executeFullExport => negb (workflowInitiated d)
    | cb.nextIncrementalExportEndTimeIsPastCurrentTime =>
        (exportToTime d <=? currentTime d)%Z
    | cb.earliestRestoreDateTimeIsGreaterThanExportStartTime =>
        (exportFromTime d <? earliestRestorableTime d)%Z
    | other => others d other
    end.

(** The routes that leave the PITR-enabled choice. *)
Inductive Branch :=
| FullExportRunningWait
| FullExportPath
| PitrGapNotification
| IncrementalExportPath
| PitrDisabledFailure.

(** The state at which each route begins. *)
Definition branchOf (n : nb.node) : option Branch :=
  match n with
  | nb.notifyOnFullExportRunning => Some FullExportRunningWait
  | nb.executeFullExport => Some FullExportPath
  | nb.notifyOnPitrGap => Some PitrGapNotification
  | nb.isLastIncrementalExportParameterValid => Some IncrementalExportPath
  | nb.notifyOnPitrDisabled => Some PitrDisabledFailure
  | _ => None
  end.

(** The spec's priority list, in its words: PITR disabled fails; otherwise
    (1) full export still running, (2) PITR_GAP with the reset condition,
    (3) PITR_GAP, (4) not initiated, (5) otherwise. *)
Definition prescribedBranch (d : t) : Branch :=
  if negb (pitrEnabled d) then PitrDisabledFailure
  else if fullExportRunning d then FullExportRunningWait
  else if isPitrGap d && resetWithFullExport d then FullExportPath
  else if isPitrGap d then PitrGapNotification
  else if negb (workflowInitiated d) then FullExportPath
  else IncrementalExportPath.

(** The inputs the routing may depend on. *)
Definition routingInputs (d : t)
  : bool * bool * WorkflowState * bool * bool :=
  (pitrEnabled d, fullExportRunning d, workflowState d, workflowInitiated d,
   resetWithFullExport d).

End WorkflowData.

(* ------------------------------------------------------------------ *)
(** ** Histories as paths of the rendered graph *)
Module Paths.
Import asl.

Section OverMachine.
Variable machine : nb.node -> StateJson.

(** Where a state can hand over without an error. *)
Definition normalSuccessors (n : nb.node) : list nb.node :=
  ((match Next (machine n) with Some x => [x] | None => [] end)
     ++ map snd (Choices (machine n))
     ++ (match Default (machine n) with Some x => [x] | None => [] end))%list.

(** Where a state can hand over on an error. *)
Definition errorSuccessors (n : nb.node) : list nb.node :=
  map sfn.handler (Catch (machine n)).

Definition successors (n : nb.node) : list nb.node :=
  (normalSuccessors n ++ errorSuccessors n)%list.

Definition nodeIn (n : nb.node) (ns : list nb.node) : bool :=
  existsb (nb.node_beq n) ns.

(** A retrier of the state names the error. *)
Definition retriable (n : nb.node) (e : string) : bool :=
  existsb (fun r => errorMatches (sfn.errors r) e) (Retry (machine n)).

(** [edge x y]: the visit [y] may directly follow the visit [x]: by a normal
    transition after a visit without error; after a failed task attempt, by
    a retry of the same task or by the transition of a catcher. *)
Definition edge (x y : Visit) : Prop :=
  match snd x with
  | None => nodeIn (fst y) (normalSuccessors (fst x)) = true
  | Some e =>
      Type_ (machine (fst x)) = nb.TaskState
      /\ ((fst y = fst x /\ retriable (fst x) e = true)
          \/ nodeIn (fst y) (errorSuccessors (fst x)) = true)
  end.

Fixpoint chain (h : list Visit) : Prop :=
  match h with
  | [] => True
  | x :: t =>
      match t with
      | [] => True
      | y :: _ => edge x y /\ chain t
      end
  end.

(** A set of states that no transition leaves. *)
Definition closed (ns : list nb.node) : bool :=
  forallb (fun n => forallb (fun m => nodeIn m ns) (successors n)) ns.

(** A set of states that only the normal transitions of [a] leave. *)
Definition closedExcept (ns : list nb.node) (a : nb.node) : bool :=
  forallb (fun n =>
             forallb (fun m => nodeIn m ns) (errorSuccessors n)
             && (nb.node_beq n a
                 || forallb (fun m => nodeIn m ns) (normalSuccessors n)))
          ns.

End OverMachine.

(** Every state but the [excluded] ones. *)
Definition allBut (excluded : list nb.node) : list nb.node :=
  filter (fun n => negb (existsb (nb.node_beq n) excluded)) nb.all.

(** The full export path behind the export invocation, behind the write of
    FullExportTime, and behind the poll that saw the export end. *)
Definition afterFullExportPolled : list nb.node :=
  [ nb.workflowInitializedParameterTrue; nb.workflowInitializedParameterFalse;
    nb.setWorkflowInitiatedParameter; nb.notifyOnFullExport;
    nb.didWorkflowInitiateSuccessfully; nb.fullExportFailed;
    nb.fullExportSucceeded ].

Definition afterFullExportTimeSet : list nb.node :=
  ([ nb.setWorkflowActionParameterToRun; nb.setWorkflowStateParameterToNormal;
     nb.setEmptyWorkflowInitiatedParameter;
     nb.deleteLastIncrementalExportTimeParameter; nb.describeFullExport;
     nb.fullExportCompletedState; nb.waitForFullExport ]
     ++ afterFullExportPolled)%list.

Definition afterFullExportStarted : list nb.node :=
  nb.setFullExportTimeParameter :: afterFullExportTimeSet.

(** The same three stretches of the incremental export path. *)
Definition afterIncrementalExportPolled : list nb.node :=
  [ nb.incrementalExportParameterTrue; nb.incrementalExportParameterFalse;
    nb.notifyOnIncrementalExport; nb.didIncrementalExportCompleteSuccessfully;
    nb.incrementalExportFailed; nb.incrementalExportSucceeded ].

Definition afterLastIncrementalExportTimeSet : list nb.node :=
  ([ nb.describeIncrementalExport; nb.incrementalExportCompletedState;
     nb.waitForIncrementalExport ]
     ++ afterIncrementalExportPolled)%list.

Definition afterIncrementalExportStarted : list nb.node :=
  nb.setLastIncrementalExportTimeParameter :: afterLastIncrementalExportTimeSet.

(** The states of the two export paths, from the export invocations on. *)
Definition fromExportOn : list nb.node :=
  [ nb.executeFullExport; nb.setFullExportTimeParameter;
    nb.setWorkflowActionParameterToRun; nb.setWorkflowStateParameterToNormal;
    nb.setEmptyWorkflowInitiatedParameter;
    nb.deleteLastIncrementalExportTimeParameter; nb.describeFullExport;
    nb.fullExportCompletedState; nb.workflowInitializedParameterTrue;
    nb.workflowInitializedParameterFalse; nb.waitForFullExport;
    nb.setWorkflowInitiatedParameter; nb.notifyOnFullExport;
    nb.didWorkflowInitiateSuccessfully; nb.fullExportFailed;
    nb.fullExportSucceeded;
    nb.executeIncrementalExport; nb.setLastIncrementalExportTimeParameter;
    nb.describeIncrementalExport; nb.incrementalExportCompletedState;
    nb.incrementalExportParameterTrue; nb.incrementalExportParameterFalse;
    nb.waitForIncrementalExport; nb.notifyOnIncrementalExport;
    nb.didIncrementalExportCompleteSuccessfully; nb.incrementalExportFailed;
    nb.incrementalExportSucceeded;
    nb.setWorkflowStateParameterToPitrGap;
    nb.notifyOnIncrementalExportStartTimeOutsidePitrWindow;
    nb.incrementalExportStartTimeOutsidePitrWindowFail;
    nb.notifyOnTaskFailed; nb.taskFailedNode ].

(** The states of the PITR-gap route of the incremental path. *)
Definition pitrGapRoute : list nb.node :=
  [ nb.setWorkflowStateParameterToPitrGap;
    nb.notifyOnIncrementalExportStartTimeOutsidePitrWindow;
    nb.incrementalExportStartTimeOutsidePitrWindowFail;
    nb.notifyOnTaskFailed; nb.taskFailedNode ].

(** The full export path and the incremental export path, each from its
    export invocation on, with the failure states they share. *)
Definition fullExportPath : list nb.node :=
  (nb.executeFullExport :: afterFullExportStarted
     ++ [nb.notifyOnTaskFailed; nb.taskFailedNode])%list.

Definition incrementalExportPath : list nb.node :=
  (nb.executeIncrementalExport :: afterIncrementalExportStarted
     ++ pitrGapRoute)%list.

(** An export invocation. *)
Definition isExport (n : nb.node) : bool :=
  match n with
  | nb.executeFullExport | nb.executeIncrementalExport => true
  | _ => false
  end.

Definition noExport (h : list Visit) : Prop :=
  forall x, In x h -> isExport (fst x) = false.

End Paths.

(** Events for concrete executions. *)
Module Events.
Import asl.

Definition succeeds (v : Valuation) : Event := mkEvent None v.
Definition fails (e : string) (v : Valuation) : Event := mkEvent (Some e) v.

End Events.

(** The entry point's contract, in the words of its description. *)
Module BinSpec.

(** [seg] is the last hyphen-separated segment of [name]. *)
Definition lastSegmentOf (name seg : string) : Prop :=
  contains "-" seg = false
  /\ (name = seg \/ exists pre, name = pre ++ String "-" seg).

(** The nested stack that the table name [name] calls for. *)
Definition expectedStack (shared : Configuration) (name : string)
           (stack : Bin.NestedStack) : Prop :=
  Bin.id stack = name
  /\ sourceDynamoDbTableName (Bin.configuration stack) = name
  /\ dataExportBucketPrefix (Bin.configuration stack)
     = dataExportBucketPrefix shared ++ "/" ++ name
  /\ exists short,
      (if (10 <? String.length name)%nat
       then lastSegmentOf name short else short = name)
      /\ deploymentAlias (Bin.configuration stack)
         = deploymentAlias shared ++ "-" ++ JsString.toLowerCase short.

(** The names under which the nested stacks of [entries] and the
    constructs that hold their resources are kept by the shared stack. *)
Definition idsOf (entries : list string) : list string :=
  flat_map (fun e => [ constructs.sanitizeId e;
                       constructs.sanitizeId (e ++ ".NestedStack") ])
           entries.

(** The names that the shared stack finds taken when the loop starts. *)
Definition taken (shared : Configuration) (n : constructs.Notifications)
  : list string :=
  (constructs.inherited ++ Bin.sharedChildren shared n)%list.

(** [entries] are the comma-separated entries of [tables]. *)
Definition entriesOf (tables : string) (entries : list string) : Prop :=
  entries <> []
  /\ join "," entries = tables
  /\ Forall (fun e => contains "," e = false) entries.

End BinSpec.

(** Names for the rendered retriers and catchers. *)
Module Rendered.

(** The retriers and the catch-all as they appear in the rendered states. *)
Definition ssmRetrier (K : Constants) : sfn.RetryProps :=
  {| sfn.errors := ["Ssm.SdkClientException"];
     sfn.interval := SDK_EXCEPTION_INTERVAL K;
     sfn.maxAttempts := SDK_EXCEPTION_RETRY_ATTEMPTS K;
     sfn.backoffRate := SDK_EXCEPTION_BACKOFF_RATE K |}.

Definition catchAll : sfn.CatchTransition :=
  sfn.mkCatch nb.notifyOnTaskFailed (sfn.mkCatchProps ["States.ALL"] None).

Definition dynamoDbRetrier (K : Constants) : sfn.RetryProps :=
  {| sfn.errors := ["DynamoDb.SdkClientException"];
     sfn.interval := SDK_EXCEPTION_INTERVAL K;
     sfn.maxAttempts := SDK_EXCEPTION_RETRY_ATTEMPTS K;
     sfn.backoffRate := SDK_EXCEPTION_BACKOFF_RATE K |}.

Definition invalidExportTimeRetrier : sfn.RetryProps :=
  {| sfn.errors := ["DynamoDb.InvalidExportTimeException"];
     sfn.interval := Duration.mk 1 Duration.Minutes;
     sfn.maxAttempts := 2;
     sfn.backoffRate := 1 |}.

End Rendered.

(** Values for concrete executions: some constants and a configuration
    with a given window size. *)
Module Sample.

Definition constants : Constants :=
  {| SDK_EXCEPTION_INTERVAL := Duration.mk 20 Duration.Seconds;
     SDK_EXCEPTION_RETRY_ATTEMPTS := 3;
     SDK_EXCEPTION_BACKOFF_RATE := 2;
     PUT_WORKFLOW_ACTION_PARAMETER_TO_RUN_OUTPUT := "putWorkflowActionParameterToRunOutput";
     PUT_WORKFLOW_STATE_PARAMETER_TO_NORMAL_OUTPUT := "putWorkflowStateParameterToNormalOutput";
     DELETE_LAST_INCREMENTAL_EXPORT_TIME_PARAMETER_OUTPUT := "deleteLastIncrementalExportTimeParameterOutput";
     SCHEDULE_MODE_FLEXIBLE := "FLEXIBLE";
     ENABLED := "ENABLED" |}.

Definition configuration (windowSizeInMinutes : Z) : Configuration :=
  {| deploymentAlias := "prod";
     sourceDynamoDbTableName := "orders";
     dataExportBucketPrefix := "exports";
     dataExportBucketOwnerAccountId := "111122223333";
     incrementalExportWindowSizeInMinutes := windowSizeInMinutes |}.

(** No notification settings, the properties the entry point passes, and
    surroundings in which every construction returns. *)
Definition notifications : constructs.Notifications :=
  constructs.mkNotifications None None None.

Definition props : ExportsStackResources.Props :=
  ExportsStackResources.propsOfEntryPoint
    (SharedResourceStack.init false (configuration 15) notifications).

Definition elsewhere : ExportsStackInit.Elsewhere :=
  ExportsStackInit.mkElsewhere (OK tt) (OK tt) (OK tt) (OK tt).

End Sample.

(** Concrete cycles, each given by the truth of the conditions on the data
    and by one event per step. *)
Module Scenarios.
Import asl Events.

(** PITR is enabled and the workflow has not been initiated. *)
Definition notInitiated : Valuation :=
  fun c =>
    match c with
    | cb.pitrIsEnabled | cb.executeFullExport => true
    | _ => false
    end.

(** PITR is enabled, the workflow is initiated, and the earliest restorable
    time lies after the start of the next export window. *)
Definition startTimeOutsidePitrWindow : Valuation :=
  fun c =>
    match c with
    | cb.pitrIsEnabled
    | cb.earliestRestoreDateTimeIsGreaterThanExportStartTime => true
    | _ => false
    end.

(** A first cycle: the full export starts, FullExportTime is written, and
    the write of WorkflowAction=RUN is then refused. *)
Definition accessDeniedAfterFullExportTime : list Event :=
  [ succeeds notInitiated; succeeds notInitiated; succeeds notInitiated;
    succeeds notInitiated; succeeds notInitiated; succeeds notInitiated;
    succeeds notInitiated;
    succeeds notInitiated;   (* executeFullExport *)
    succeeds notInitiated;   (* setFullExportTimeParameter *)
    fails "Ssm.AccessDeniedException" notInitiated;
    succeeds notInitiated;   (* notifyOnTaskFailed *)
    succeeds notInitiated ].

(** An incremental cycle that finds the PITR gap and then fails to publish
    the notification about it. *)
Definition publishFailsAfterPitrGap : list Event :=
  [ succeeds startTimeOutsidePitrWindow; succeeds startTimeOutsidePitrWindow;
    succeeds startTimeOutsidePitrWindow; succeeds startTimeOutsidePitrWindow;
    succeeds startTimeOutsidePitrWindow; succeeds startTimeOutsidePitrWindow;
    succeeds startTimeOutsidePitrWindow; succeeds startTimeOutsidePitrWindow;
    succeeds startTimeOutsidePitrWindow;
    succeeds startTimeOutsidePitrWindow;   (* getNextIncrementalExportTime *)
    succeeds startTimeOutsidePitrWindow; succeeds startTimeOutsidePitrWindow;
    succeeds startTimeOutsidePitrWindow;   (* setWorkflowStateParameterToPitrGap *)
    fails "Sns.KmsAccessDeniedException" startTimeOutsidePitrWindow ].

End Scenarios.

(* ------------------------------------------------------------------ *)
(** ** The shape of the rendered graph *)
Module Shape.
Import asl Paths.

(** The states in an order in which every transition, those that leave a
    Wait state apart, leads forward. *)
Definition order : list nb.node :=
  [ nb.getParametersTask; nb.cleanParametersPassState; nb.checkWorkflowAction;
    nb.workflowPaused; nb.ensureTableExistsTask;
    nb.describeContinuousBackupsAwsServiceTask; nb.pitrEnabledChoice;
    nb.notifyOnPitrDisabled; nb.pitrDisabledFail; nb.initializeWorkflowState;
    nb.notifyOnFullExportRunning; nb.fullExportStillRunning;
    nb.notifyOnPitrGap; nb.pitrGapFound;
    nb.executeFullExport; nb.setFullExportTimeParameter;
    nb.setWorkflowActionParameterToRun; nb.setWorkflowStateParameterToNormal;
    nb.setEmptyWorkflowInitiatedParameter;
    nb.deleteLastIncrementalExportTimeParameter; nb.describeFullExport;
    nb.fullExportCompletedState; nb.waitForFullExport;
    nb.workflowInitializedParameterTrue; nb.workflowInitializedParameterFalse;
    nb.setWorkflowInitiatedParameter; nb.notifyOnFullExport;
    nb.didWorkflowInitiateSuccessfully; nb.fullExportFailed;
    nb.fullExportSucceeded;
    nb.isLastIncrementalExportParameterValid;
    nb.useLastIncrementalExportTimeParameterValue;
    nb.useFullExportTimeParameterValue;
    nb.getNextIncrementalExportTimeLambdaInvoke;
    nb.checkIncrementalExportNeeded; nb.incrementalExportNotNeeded;
    nb.isEarliestRestoreDateTimeValidChoice; nb.executeIncrementalExport;
    nb.setLastIncrementalExportTimeParameter; nb.describeIncrementalExport;
    nb.incrementalExportCompletedState; nb.waitForIncrementalExport;
    nb.incrementalExportParameterTrue; nb.incrementalExportParameterFalse;
    nb.notifyOnIncrementalExport; nb.didIncrementalExportCompleteSuccessfully;
    nb.incrementalExportFailed; nb.incrementalExportSucceeded;
    nb.setWorkflowStateParameterToPitrGap;
    nb.notifyOnIncrementalExportStartTimeOutsidePitrWindow;
    nb.incrementalExportStartTimeOutsidePitrWindowFail;
    nb.notifyOnTaskFailed; nb.taskFailedNode ].

(** The position of a state in a list (the length of the list when the
    state is not in it). *)
Fixpoint position (n : nb.node) (ns : list nb.node) : nat :=
  match ns with
  | [] => 0
  | m :: rest => if nb.node_beq n m then 0 else S (position n rest)
  end.

Definition rank (n : nb.node) : nat := position n order.

Definition isWait (n : nb.node) : bool :=
  match nb.kind n with nb.WaitState => true | _ => false end.

(** Every transition of a state that is not a Wait state leads to a state
    of higher rank. *)
Definition forwardOnly (machine : nb.node -> StateJson) : bool :=
  forallb (fun n =>
             isWait n
             || forallb (fun m => (rank n <? rank m)%nat) (successors machine n))
          nb.all.

(** Every state but [start] has a transition into it from a state of lower
    rank. *)
Definition enteredFromBelow (machine : nb.node -> StateJson)
           (start : nb.node) : bool :=
  forallb (fun n =>
             nb.node_beq n start
             || existsb (fun p => (rank p <? rank n)%nat
                                  && nodeIn n (successors machine p))
                        nb.all)
          nb.all.

(** [reachable machine a b]: transitions lead from [a] to [b]. *)
Inductive reachable (machine : nb.node -> StateJson) (a : nb.node)
  : nb.node -> Prop :=
| reachable_here : reachable machine a a
| reachable_step b c :
    reachable machine a b ->
    nodeIn c (successors machine b) = true ->
    reachable machine a c.

(** A state is complete when the interpreter always finds a way on: a Task,
    Pass or Wait state has its [Next], a Choice has rules and a default, and
    a Succeed or Fail state has no transition at all. *)
Definition complete (j : StateJson) : bool :=
  match Type_ j with
  | nb.TaskState | nb.PassState | nb.WaitState =>
      match Next j with Some _ => true | None => false end
  | nb.ChoiceState =>
      match Choices j, Default j with
      | _ :: _, Some _ => true
      | _, _ => false
      end
  | nb.SucceedState | nb.FailState =>
      match Next j, Choices j, Default j, Catch j, Retry j with
      | None, [], None, [], [] => true
      | _, _, _, _, _ => false
      end
  end.

(** The retries a state's retriers allow in all. *)
Definition totalAttempts (rs : list sfn.RetryProps) : nat :=
  fold_right (fun r acc => (sfn.maxAttempts r + acc)%nat) 0%nat rs.

(** The retries still allowed once [used] of them were spent. *)
Fixpoint attemptsLeft (rs : list sfn.RetryProps) (used : list nat) : nat :=
  match rs with
  | [] => 0
  | r :: rest => (sfn.maxAttempts r - hd 0 used) + attemptsLeft rest (tl used)
  end%nat.

(** The number of visits at [n] with which a history begins. *)
Fixpoint leading (n : nb.node) (h : list Visit) : nat :=
  match h with
  | [] => 0
  | x :: t => if nb.node_beq (fst x) n then S (leading n t) else 0
  end.

(** The errors that some retrier of the stack names. *)
Definition retriedErrors : list string :=
  [ "Ssm.SdkClientException"; "DynamoDb.SdkClientException";
    "DynamoDb.InvalidExportTimeException" ].

(** The incremental export path behind the write of
    LastIncrementalExportTime, with the failure states. *)
Definition behindLastIncrementalExportTime : list nb.node :=
  (afterIncrementalExportStarted
     ++ [nb.notifyOnTaskFailed; nb.taskFailedNode])%list.

End Shape.

(* ------------------------------------------------------------------ *)
(** ** Progress and reports *)
Module Progress.
Import asl Paths Shape.

(** The visits a state can take in a row: one and its retries. *)
Definition weight (machine : nb.node -> StateJson) (n : nb.node) : nat :=
  1 + totalAttempts (Retry (machine n)).

Definition total (machine : nb.node -> StateJson) (ns : list nb.node) : nat :=
  fold_right (fun n acc => weight machine n + acc) 0 ns.

(** The visits that the states behind position [r] of the order can take. *)
Definition beyond (machine : nb.node -> StateJson) (r : nat) : nat :=
  total machine (skipn (S r) order).

(** The visits that all states can take. *)
Definition stepsBound (machine : nb.node -> StateJson) : nat :=
  total machine order.

End Progress.

Module Reports.
Import asl Paths.

(** The publication that reports the end of a cycle at a terminal state.
    The pause and the export that is not needed have none. *)
Definition reportOf (terminal : nb.node) : option nb.node :=
  match terminal with
  | nb.pitrDisabledFail => Some nb.notifyOnPitrDisabled
  | nb.fullExportStillRunning => Some nb.notifyOnFullExportRunning
  | nb.pitrGapFound => Some nb.notifyOnPitrGap
  | nb.fullExportFailed | nb.fullExportSucceeded => Some nb.notifyOnFullExport
  | nb.incrementalExportFailed | nb.incrementalExportSucceeded =>
      Some nb.notifyOnIncrementalExport
  | nb.incrementalExportStartTimeOutsidePitrWindowFail =>
      Some nb.notifyOnIncrementalExportStartTimeOutsidePitrWindow
  | nb.taskFailedNode => Some nb.notifyOnTaskFailed
  | _ => None
  end.

(** The states behind a report. *)
Definition behindReport (report : nb.node) : list nb.node :=
  match report with
  | nb.notifyOnPitrDisabled => [nb.pitrDisabledFail]
  | nb.notifyOnFullExportRunning => [nb.fullExportStillRunning]
  | nb.notifyOnPitrGap => [nb.pitrGapFound]
  | nb.notifyOnFullExport =>
      [ nb.didWorkflowInitiateSuccessfully; nb.fullExportFailed;
        nb.fullExportSucceeded ]
  | nb.notifyOnIncrementalExport =>
      [ nb.didIncrementalExportCompleteSuccessfully;
        nb.incrementalExportFailed; nb.incrementalExportSucceeded ]
  | nb.notifyOnIncrementalExportStartTimeOutsidePitrWindow =>
      [nb.incrementalExportStartTimeOutsidePitrWindowFail]
  | nb.notifyOnTaskFailed => [nb.taskFailedNode]
  | _ => []
  end.

Definition isTerminal (n : nb.node) : bool :=
  match nb.kind n with
  | nb.SucceedState | nb.FailState => true
  | _ => false
  end.

(** Every terminal state that has a report lies behind it, and only the
    normal transition of the report leads behind the report. *)
Definition reportsGuardTerminals (machine : nb.node -> StateJson) : bool :=
  forallb (fun t =>
             match reportOf t with
             | Some report =>
                 nodeIn t (behindReport report)
                 && negb (nodeIn nb.getParametersTask (behindReport report))
                 && closedExcept machine (allBut (behindReport report)) report
             | None => true
             end)
          nb.all.

(** The states in front of the check of the workflow action. *)
Definition beforeActionCheck : list nb.node :=
  [ nb.getParametersTask; nb.cleanParametersPassState;
    nb.checkWorkflowAction ].

End Reports.

(* ================================================================== *)
(** * Verification *)

(** ** The entry point *)

Lemma split_nonempty sep s : JsString.split sep s <> [].
Proof.
  destruct s as [|c s]; simpl; [discriminate|].
  destruct (Ascii.eqb c sep); [discriminate|].
  destruct (JsString.split sep s); discriminate.
Qed.

Lemma split_join sep s : join sep (JsString.split sep s) = s.
Proof.
  induction s as [|c s IH]; [reflexivity|].
  simpl JsString.split.
  pose proof (split_nonempty sep s) as NE.
  destruct (Ascii.eqb c sep) eqn:E.
  - apply Ascii.eqb_eq in E; subst c.
    destruct (JsString.split sep s) as [|p ps] eqn:S; [congruence|].
    change (join sep (EmptyString :: p :: ps))
      with (String sep (join sep (p :: ps))).
    now rewrite IH.
  - destruct (JsString.split sep s) as [|p ps] eqn:S; [congruence|].
    destruct ps as [|q qs].
    + simpl in *. now rewrite IH.
    + change (join sep (String c p :: q :: qs))
        with (String c (join sep (p :: q :: qs))).
      now rewrite IH.
Qed.

Lemma split_no_sep sep s :
  Forall (fun p => contains sep p = false) (JsString.split sep s).
Proof.
  induction s as [|c s IH]; simpl.
  - now constructor.
  - destruct (Ascii.eqb c sep) eqn:E.
    + constructor; [reflexivity|exact IH].
    + destruct (JsString.split sep s) as [|p ps].
      * constructor; [simpl; now rewrite E|constructor].
      * inversion IH; subst. constructor; [simpl; now rewrite E|assumption].
Qed.

Lemma split_entries s : BinSpec.entriesOf s (JsString.split "," s).
Proof.
  repeat split.
  - apply split_nonempty.
  - apply split_join.
  - apply split_no_sep.
Qed.

Lemma trimStart_blank s :
  allWhiteSpace s = true -> JsString.trimStart s = EmptyString.
Proof.
  induction s as [|c s IH]; simpl; [reflexivity|].
  destruct (JsString.isWhiteSpace c); simpl; [exact IH|discriminate].
Qed.

Lemma trimStart_head s :
  allWhiteSpace s = false ->
  exists c t, JsString.trimStart s = String c t /\ JsString.isWhiteSpace c = false.
Proof.
  induction s as [|c s IH]; simpl; [discriminate|].
  destruct (JsString.isWhiteSpace c) eqn:W; simpl.
  - exact IH.
  - intros _. now exists c, s.
Qed.

Lemma trimEnd_head c t :
  JsString.isWhiteSpace c = false -> JsString.trimEnd (String c t) <> EmptyString.
Proof.
  intros W. simpl. destruct (JsString.trimEnd t); [rewrite W|]; discriminate.
Qed.

(** The filter of the entry point keeps exactly the entries that are not
    made of white space only. *)
Lemma trim_length_positive s :
  (0 <? String.length (JsString.trim s))%nat = negb (allWhiteSpace s).
Proof.
  unfold JsString.trim.
  destruct (allWhiteSpace s) eqn:B.
  - now rewrite trimStart_blank.
  - destruct (trimStart_head s B) as (c & t & -> & W).
    pose proof (trimEnd_head c t W) as NE.
    destruct (JsString.trimEnd (String c t)); [congruence|reflexivity].
Qed.

Lemma last_of_split sep s :
  exists seg,
    nth_error (JsString.split sep s) (List.length (JsString.split sep s) - 1)
    = Some seg
    /\ contains sep seg = false
    /\ ((List.length (JsString.split sep s) = 1 /\ s = seg)
        \/ ((1 < List.length (JsString.split sep s))%nat
            /\ exists pre, s = pre ++ String sep seg)).
Proof.
  induction s as [|c s (seg & Hn & Hc & Hs)].
  - exists EmptyString. simpl. auto.
  - simpl JsString.split.
    pose proof (split_nonempty sep s) as NE.
    destruct (JsString.split sep s) as [|p ps] eqn:S; [congruence|].
    destruct (Ascii.eqb c sep) eqn:E.
    + apply Ascii.eqb_eq in E; subst c.
      exists seg. simpl in Hn |- *. rewrite Nat.sub_0_r in Hn.
      repeat split; [exact Hn|exact Hc|].
      right. split; [lia|].
      destruct Hs as [[_ ->]|[_ [pre ->]]].
      * now exists EmptyString.
      * now exists (String sep pre).
    + destruct ps as [|q qs].
      * simpl in Hn. injection Hn as <-.
        exists (String c p). simpl. rewrite E, Hc.
        repeat split. left. split; [reflexivity|].
        destruct Hs as [[_ ->]|[L _]]; [reflexivity|simpl in L; lia].
      * exists seg. simpl in Hn |- *.
        repeat split; [exact Hn|exact Hc|].
        right. split; [lia|].
        destruct Hs as [[L _]|[_ [pre ->]]]; [simpl in L; lia|].
        now exists (String c pre).
Qed.

Lemma lastPart_of_split name :
  exists seg,
    Bin.lastPart (JsString.split "-" name) = OK seg
    /\ BinSpec.lastSegmentOf name seg.
Proof.
  destruct (last_of_split "-" name) as (seg & Hn & Hc & Hs).
  exists seg. unfold Bin.lastPart. rewrite Hn. split; [reflexivity|].
  split; [exact Hc|].
  destruct Hs as [[_ ->]|[_ [pre ->]]]; [now left|right; now exists pre].
Qed.

Lemma createStack_expected shared name :
  exists stack,
    Bin.createStack shared name = OK stack
    /\ BinSpec.expectedStack shared name stack.
Proof.
  unfold Bin.createStack.
  destruct (10 <? String.length name)%nat eqn:L.
  - destruct (lastPart_of_split name) as (seg & -> & Hseg).
    eexists. split; [reflexivity|].
    unfold BinSpec.expectedStack; simpl. repeat split.
    exists seg. rewrite L. now split.
  - eexists. split; [reflexivity|].
    unfold BinSpec.expectedStack; simpl. repeat split.
    exists name. rewrite L. now split.
Qed.

Lemma createStack_id shared name stack :
  Bin.createStack shared name = OK stack -> Bin.id stack = name.
Proof.
  intros E. destruct (createStack_expected shared name) as (s & E' & I & _).
  rewrite E in E'. injection E' as <-. exact I.
Qed.

(** What the loop has made when it completes: one stack per name, in
    order, each with the arguments the callback computes for it. *)
Lemma forEach_made shared (R : string -> Bin.NestedStack -> Prop) :
  (forall name, exists stack,
      Bin.createStack shared name = OK stack /\ R name stack) ->
  forall names children stacks result,
    Bin.forEach (Bin.callback shared) names children stacks = OK result ->
    exists made, result = (stacks ++ made)%list /\ Forall2 R names made.
Proof.
  intros Hf names.
  induction names as [|name rest IH]; intros children stacks result; simpl.
  - intros [= <-]. exists []. now rewrite app_nil_r.
  - unfold Bin.callback at 1.
    destruct (Hf name) as (stack & -> & HR). cbn [Err_bind].
    destruct (Bin.newNestedStack children stack) as [children'|msg];
      cbn [Err_bind fst snd]; [|discriminate].
    intros E. destruct (IH _ _ _ E) as (made & -> & HF).
    exists (stack :: made). rewrite <- app_assoc.
    split; [reflexivity|now constructor].
Qed.

Lemma addChild_new children id :
  ~ In (constructs.sanitizeId id) (constructs.inherited ++ children) ->
  constructs.addChild children id
  = OK (children ++ [constructs.sanitizeId id])%list.
Proof.
  intros N. unfold constructs.addChild.
  destruct (existsb (String.eqb (constructs.sanitizeId id))
                    (constructs.inherited ++ children)) eqn:E;
    [|reflexivity].
  exfalso. apply N. apply existsb_exists in E as (x & I & E).
  apply String.eqb_eq in E. now subst x.
Qed.

Lemma addChild_old children id :
  In (constructs.sanitizeId id) children ->
  exists msg, constructs.addChild children id = Throw msg.
Proof.
  intros I. unfold constructs.addChild.
  replace (existsb (String.eqb (constructs.sanitizeId id))
                   (constructs.inherited ++ children))
    with true; [eexists; reflexivity|].
  symmetry. apply existsb_exists. eexists.
  split; [apply in_or_app; right; exact I|].
  apply String.eqb_refl.
Qed.

Lemma addChild_keeps children id children' :
  constructs.addChild children id = OK children' ->
  forall x, In x children \/ x = constructs.sanitizeId id -> In x children'.
Proof.
  unfold constructs.addChild.
  destruct (existsb _ (constructs.inherited ++ children)); [discriminate|].
  intros [= <-] x [I | ->]; apply in_or_app; [now left|right; now left].
Qed.

(** The loop completes when every name it registers is new. *)
Lemma forEach_completes shared : forall names children stacks,
  NoDup ((constructs.inherited ++ children) ++ BinSpec.idsOf names) ->
  exists result,
    Bin.forEach (Bin.callback shared) names children stacks = OK result.
Proof.
  induction names as [|name rest IH]; intros children stacks ND; simpl.
  - now exists stacks.
  - unfold Bin.callback at 1.
    destruct (createStack_expected shared name) as (stack & E & I & _).
    rewrite E. cbn [Err_bind]. unfold Bin.newNestedStack. rewrite I.
    simpl BinSpec.idsOf in ND.
    rewrite addChild_new;
      [|intros A; apply NoDup_remove_2 in ND; apply ND, in_or_app; now left].
    cbn [Err_bind].
    change ((constructs.inherited ++ children)
              ++ constructs.sanitizeId name
              :: constructs.sanitizeId (name ++ ".NestedStack")
              :: BinSpec.idsOf rest)%list
      with ((constructs.inherited ++ children)
              ++ [constructs.sanitizeId name]
              ++ constructs.sanitizeId (name ++ ".NestedStack")
              :: BinSpec.idsOf rest)%list in ND.
    rewrite app_assoc, <- (app_assoc constructs.inherited) in ND.
    rewrite addChild_new;
      [|intros A; apply NoDup_remove_2 in ND; apply ND, in_or_app; now left].
    cbn [Err_bind fst snd]. apply IH.
    rewrite (app_assoc constructs.inherited), <- (app_assoc _ _ (BinSpec.idsOf rest)).
    rewrite <- (app_assoc constructs.inherited). exact ND.
Qed.

(** A name that repeats an earlier one, or that the scope has already,
    stops the loop. *)
Lemma forEach_stops shared : forall names children stacks,
  (exists a, In a names /\ In (constructs.sanitizeId a) children)
  \/ ~ NoDup names ->
  exists msg,
    Bin.forEach (Bin.callback shared) names children stacks = Throw msg.
Proof.
  induction names as [|name rest IH]; intros children stacks H.
  - exfalso. destruct H as [(a & F & _)|N]; [destruct F|].
    apply N. constructor.
  - simpl. unfold Bin.callback at 1.
    destruct (createStack_expected shared name) as (stack & E & I & _).
    rewrite E. cbn [Err_bind]. unfold Bin.newNestedStack. rewrite I.
    destruct (constructs.addChild children name) as [children1|msg] eqn:A1;
      cbn [Err_bind]; [|now exists msg].
    destruct (constructs.addChild children1 (name ++ ".NestedStack"))
      as [children'|msg] eqn:A2;
      cbn [Err_bind fst snd]; [|now exists msg].
    apply IH.
    assert (K1 : forall x, In x children -> In x children').
    { intros x Ix. eapply addChild_keeps; [exact A2|].
      left. eapply addChild_keeps; [exact A1|]. now left. }
    assert (K2 : In (constructs.sanitizeId name) children').
    { eapply addChild_keeps; [exact A2|].
      left. eapply addChild_keeps; [exact A1|]. now right. }
    destruct H as [(a & [<-|Ia] & Ic)|N].
    + destruct (addChild_old _ _ Ic) as (msg & T). congruence.
    + left. exists a. split; [exact Ia|now apply K1].
    + destruct (in_dec string_dec name rest) as [Ir|Nr].
      * left. exists name. now split.
      * right. intros ND. apply N. now constructor.
Qed.

(** C10, as the code has it.  The entry point runs the constructor once per
    entry of the comma-separated list that is not made of white space only,
    in the order of the list, and stops at the first call that throws.
    Whenever the loop completes, it has created exactly one nested stack
    per kept entry: the entry is used as it stands (untrimmed) as the
    stack's id and source table name; the deployment alias is the shared
    alias, a hyphen, and the lower-cased last hyphen-separated segment of
    the name when the name is longer than 10 characters, else the
    lower-cased name; the bucket prefix is the shared prefix, a slash, and
    the name.  The loop completes when the names under which the stacks
    register are not taken in the shared stack and differ from each other,
    and it throws when a kept entry repeats an earlier one. *)
Theorem main_one_stack_per_table :
  forall (shared : Configuration) (n : constructs.Notifications),
  exists entries,
    BinSpec.entriesOf (sourceDynamoDbTableName shared) entries
    /\ let kept := filter (fun e => negb (allWhiteSpace e)) entries in
       (forall stacks,
           Bin.main shared n = OK stacks ->
           Forall2 (BinSpec.expectedStack shared) kept stacks)
       /\ (NoDup (BinSpec.taken shared n ++ BinSpec.idsOf kept) ->
           exists stacks, Bin.main shared n = OK stacks)
       /\ (~ NoDup kept -> exists msg, Bin.main shared n = Throw msg).
Proof.
  intros shared n.
  exists (JsString.split "," (sourceDynamoDbTableName shared)).
  split; [apply split_entries|]. cbv zeta. unfold Bin.main.
  rewrite (filter_ext
             (fun tableName =>
                (0 <? String.length (JsString.trim tableName))%nat)
             (fun e => negb (allWhiteSpace e)))
    by (intros e; apply trim_length_positive).
  split; [|split].
  - intros stacks E.
    destruct (forEach_made shared (BinSpec.expectedStack shared)
                           (createStack_expected shared) _ _ _ _ E)
      as (made & -> & HF).
    exact HF.
  - apply forEach_completes.
  - intros N. apply forEach_stops. now right.
Qed.

(** A table that is listed twice: the second constructor call throws, and
    no list of stacks is returned. *)
Lemma repeated_table_stops_the_entry_point :
  BinSpec.entriesOf "Items,Items" ["Items"; "Items"]
  /\ Bin.main (mkConfiguration "prod" "Items,Items" "exports" "1" 15)
              Sample.notifications
     = Throw "There is already a Construct with name 'Items'".
Proof.
  split; [|reflexivity].
  repeat split; [discriminate|repeat constructor].
Qed.

(** A configuration with three tables, blank entries and stray spaces. *)
Example main_three_tables :
  Bin.main (mkConfiguration "prod" "orders-prod-Customers, a-B,, ,Items" "exports" "1" 15)
           Sample.notifications
  = OK [ Bin.mkNestedStack "orders-prod-Customers"
           (mkConfiguration "prod-customers" "orders-prod-Customers"
                            "exports/orders-prod-Customers" "1" 15)
           "orders-prod-Customers";
         Bin.mkNestedStack " a-B"
           (mkConfiguration "prod- a-b" " a-B" "exports/ a-B" "1" 15) " a-B";
         Bin.mkNestedStack "Items"
           (mkConfiguration "prod-items" "Items" "exports/Items" "1" 15)
           "Items" ].
Proof. reflexivity. Qed.

(** ** Validation and schedule *)
Import ExportsStackInit.

(** Building the state machine never throws. *)
Lemma deployStepFunction_returns (K : Constants) :
  exists built, ExportsStack.deployStepFunction K sfn.unwired = OK built.
Proof. eexists. vm_compute. reflexivity. Qed.

Lemma sanityChecks_accepts configuration :
  sanityChecks configuration = OK tt
  <-> (15 <= incrementalExportWindowSizeInMinutes configuration <= 1440)%Z.
Proof.
  unfold sanityChecks.
  change (24 * 60)%Z with 1440%Z.
  destruct (incrementalExportWindowSizeInMinutes configuration <? 15)%Z eqn:A;
    destruct (incrementalExportWindowSizeInMinutes configuration >? 1440)%Z eqn:B;
    simpl; rewrite ?Z.ltb_lt, ?Z.ltb_ge, ?Z.gtb_ltb in *;
    rewrite ?Z.ltb_lt, ?Z.ltb_ge in *;
    split; intros H; try discriminate; try reflexivity; lia.
Qed.

Lemma schedulerTime_eq configuration :
  schedulerTime configuration
  = (incrementalExportWindowSizeInMinutes configuration / 3)%Z.
Proof.
  unfold schedulerTime, Qfloor, Qdiv, Qmult, Qinv, inject_Z. simpl.
  now rewrite Z.mul_1_r.
Qed.

Lemma halfPeriod_in_seconds (t : Z) :
  (0 <= t)%Z ->
  Err_bind (Duration.minutes (inject_Z t / 2)%Q) Duration.toSeconds
  = OK (30 * t)%Z.
Proof.
  intros Ht.
  unfold Duration.minutes, Duration.make, Qle_bool, Qdiv, Qmult, Qinv, inject_Z.
  simpl Qnum. simpl Qden.
  replace (0 * 2 <=? t * 1 * 1)%Z with true
    by (symmetry; apply Z.leb_le; lia).
  unfold Err_bind, Duration.toSeconds. simpl Duration.unit.
  unfold Duration.isInteger, Qeq_bool, Qfloor, Qdiv, Qmult, Qinv, inject_Z.
  simpl.
  replace (t * 1 * 60000 * 1)%Z with (30 * t * 2000)%Z by lia.
  rewrite Z.div_mul by lia.
  replace (30 * t * 2000 * 1 =? 30 * t * 2000)%Z with true
    by (symmetry; apply Z.eqb_eq; lia).
  reflexivity.
Qed.

(** C8. The sanity checks accept a window size exactly when it lies in
    [15, 1440]: 15 and 1440 pass, 14 and 1441 throw.  The check is the first
    thing [init] does at provisioning time, so a size out of range makes
    [init] throw before the state machine and the schedule exist, and
    resources are only ever returned for a size in range. *)
Theorem sanityChecks_window_size :
  forall (K : Constants) (configuration : Configuration)
         (props : ExportsStackResources.Props)
         (n : constructs.Notifications) (elsewhere : Elsewhere)
         (stateMachineArn schedulerRoleArn : string),
    let w := incrementalExportWindowSizeInMinutes configuration in
    (sanityChecks configuration = OK tt <-> (15 <= w <= 1440)%Z)
    /\ sanityChecks (Sample.configuration 15) = OK tt
    /\ sanityChecks (Sample.configuration 1440) = OK tt
    /\ (exists msg, sanityChecks (Sample.configuration 14) = Throw msg)
    /\ (exists msg, sanityChecks (Sample.configuration 1441) = Throw msg)
    /\ (~ (15 <= w <= 1440)%Z ->
        exists msg,
          sanityChecks configuration = Throw msg
          /\ init K configuration props n elsewhere
                  stateMachineArn schedulerRoleArn = Throw msg)
    /\ (forall resources,
          init K configuration props n elsewhere
               stateMachineArn schedulerRoleArn = OK resources ->
          (15 <= w <= 1440)%Z).
Proof.
  intros K configuration props n elsewhere stateMachineArn schedulerRoleArn w.
  pose proof (sanityChecks_accepts configuration) as Acc. fold w in Acc.
  split; [exact Acc|].
  split; [reflexivity|]. split; [reflexivity|].
  split; [eexists; reflexivity|]. split; [eexists; reflexivity|].
  assert (Out : ~ (15 <= w <= 1440)%Z ->
                exists msg, sanityChecks configuration = Throw msg).
  { intros N. destruct (sanityChecks configuration) as [[]|msg] eqn:E.
    - exfalso. apply N, Acc. reflexivity.
    - now exists msg. }
  split.
  - intros N. destruct (Out N) as (msg & E). exists msg.
    split; [exact E|]. unfold init. rewrite E. reflexivity.
  - intros resources E.
    destruct (Z_le_dec 15 w) as [L|L];
      [destruct (Z_le_dec w 1440) as [U|U]; [lia|]|].
    all: assert (N : ~ (15 <= w <= 1440)%Z) by lia.
    all: destruct (Out N) as (msg & T); unfold init in E; rewrite T in E.
    all: discriminate E.
Qed.

(** The schedule statement of a configuration whose window size is not
    negative. *)
Lemma createSchedule_valid K configuration stateMachineArn schedulerRoleArn :
  (0 <= incrementalExportWindowSizeInMinutes configuration)%Z ->
  let N := (incrementalExportWindowSizeInMinutes configuration / 3)%Z in
  createSchedule K configuration stateMachineArn schedulerRoleArn
  = OK {| flexibleTimeWindow :=
            {| mode := SCHEDULE_MODE_FLEXIBLE K;
               maximumWindowInMinutes := 15 |};
          scheduleExpression := "rate(" ++ JsString.ofZ N ++ " minutes)";
          target :=
            {| arn := stateMachineArn;
               roleArn := schedulerRoleArn;
               retryPolicy :=
                 {| maximumEventAgeInSeconds := (30 * N)%Z;
                    maximumRetryAttempts := 1 |} |};
          description :=
            "Triggers the step function every "
              ++ JsString.ofZ N ++ " minutes";
          state := ENABLED K |}.
Proof.
  intros Hw N. unfold createSchedule. rewrite schedulerTime_eq. fold N.
  assert (HN : (0 <= N)%Z) by (apply Z.div_pos; lia).
  pose proof (halfPeriod_in_seconds N HN) as Half.
  destruct (Duration.minutes (inject_Z N / 2)%Q) as [age|msg];
    cbv beta iota delta [Err_bind] in Half; [|discriminate Half].
  cbv beta iota delta [Err_bind]. rewrite Half. reflexivity.
Qed.

(** [init] returns exactly when each of its statements does. *)
Lemma init_returns_iff K configuration props n elsewhere
      stateMachineArn schedulerRoleArn :
  (exists resources,
      init K configuration props n elsewhere stateMachineArn schedulerRoleArn
      = OK resources)
  <-> sanityChecks configuration = OK tt
      /\ constructionsReturn configuration elsewhere
      /\ exists schedule,
          createSchedule K configuration stateMachineArn schedulerRoleArn
          = OK schedule.
Proof.
  unfold init, constructionsReturn, newStateMachine.
  destruct (deployStepFunction_returns K) as (built & ->).
  destruct (sanityChecks configuration) as [[]|m0];
    destruct (newDataExportBucket elsewhere) as [[]|m1];
    destruct (sourceDynamoDbTableName configuration) as [|c t];
    destruct (codeFromAsset elsewhere) as [[]|m2];
    destruct (newNodeBuilder elsewhere) as [[]|m3];
    destruct (validateStateMachineName
                (ExportsStackResources.stateMachineName configuration))
      as [[]|m4];
    destruct (definitionBody elsewhere) as [[]|m5];
    destruct (createSchedule K configuration stateMachineArn schedulerRoleArn)
      as [schedule|m6];
    cbv beta iota zeta delta [Err_bind fromTableName];
    (split;
     [ intros (resources & E); try discriminate E;
       repeat split; try discriminate; now exists schedule
     | intros (A0 & (A1 & A2 & A3 & A4 & A5 & A6) & (s & A7));
       try discriminate; try congruence; eexists; reflexivity ]).
Qed.

Lemma init_schedule K configuration props n elsewhere
      stateMachineArn schedulerRoleArn resources :
  init K configuration props n elsewhere stateMachineArn schedulerRoleArn
  = OK resources ->
  createSchedule K configuration stateMachineArn schedulerRoleArn
  = OK (cfnSchedule resources).
Proof.
  unfold init, newStateMachine.
  destruct (deployStepFunction_returns K) as (built & ->).
  destruct (sanityChecks configuration) as [[]|m0];
    destruct (newDataExportBucket elsewhere) as [[]|m1];
    destruct (fromTableName (sourceDynamoDbTableName configuration))
      as [[]|mt];
    destruct (codeFromAsset elsewhere) as [[]|m2];
    destruct (newNodeBuilder elsewhere) as [[]|m3];
    destruct (validateStateMachineName
                (ExportsStackResources.stateMachineName configuration))
      as [[]|m4];
    destruct (definitionBody elsewhere) as [[]|m5];
    destruct (createSchedule K configuration stateMachineArn schedulerRoleArn)
      as [schedule|m6];
    cbv beta iota zeta delta [Err_bind];
    intros E; try discriminate E.
  injection E as <-. reflexivity.
Qed.

(** C9, as the code has it.  For a configuration whose window size lies in
    [15, 1440], [init] creates the schedule exactly when the constructions
    it makes before the schedule return: the data export bucket, the import
    of the table, the time manipulator, the builders, and the state machine,
    whose name, the deployment alias followed by
    [-ddb-export-state-machine], must have at most 80 characters, all of
    them letters, digits or one of [+!@.()-=_'].  The schedule then has the
    rate expression [rate(N minutes)], N being the window size divided by 3
    and rounded down, a flexible time window of 15 minutes, one retry
    attempt at most, and a maximum event age of half the period: N/2
    minutes in seconds, that is 30 N.  The schedule statement itself never
    throws for such a window. *)
Theorem schedule_of_valid_configuration :
  forall (K : Constants) (configuration : Configuration)
         (props : ExportsStackResources.Props)
         (n : constructs.Notifications) (elsewhere : Elsewhere)
         (stateMachineArn schedulerRoleArn : string),
    (15 <= incrementalExportWindowSizeInMinutes configuration <= 1440)%Z ->
    ((exists resources,
         init K configuration props n elsewhere
              stateMachineArn schedulerRoleArn = OK resources)
     <-> constructionsReturn configuration elsewhere)
    /\ (exists schedule,
           createSchedule K configuration stateMachineArn schedulerRoleArn
           = OK schedule)
    /\ (forall resources,
           init K configuration props n elsewhere
                stateMachineArn schedulerRoleArn = OK resources ->
           let schedule := cfnSchedule resources in
           let N :=
             (incrementalExportWindowSizeInMinutes configuration / 3)%Z in
           scheduleExpression schedule
           = "rate(" ++ JsString.ofZ N ++ " minutes)"
           /\ mode (flexibleTimeWindow schedule) = SCHEDULE_MODE_FLEXIBLE K
           /\ maximumWindowInMinutes (flexibleTimeWindow schedule) = 15%Z
           /\ maximumRetryAttempts (retryPolicy (target schedule)) = 1%Z
           /\ maximumEventAgeInSeconds (retryPolicy (target schedule))
              = (30 * N)%Z
           /\ (2 * maximumEventAgeInSeconds (retryPolicy (target schedule))
               = 60 * N)%Z).
Proof.
  intros K configuration props n elsewhere stateMachineArn schedulerRoleArn
         Hw.
  assert (S : createSchedule K configuration stateMachineArn schedulerRoleArn
              = OK _)
    by (apply createSchedule_valid; lia).
  apply sanityChecks_accepts in Hw as Hs.
  split; [|split].
  - rewrite init_returns_iff. split.
    + now intros (_ & C & _).
    + intros C. split; [exact Hs|]. split; [exact C|].
      eexists. exact S.
  - eexists. exact S.
  - intros resources E. apply init_schedule in E. rewrite S in E.
    injection E as <-. cbv zeta.
    set (N := (incrementalExportWindowSizeInMinutes configuration / 3)%Z).
    repeat split.
    change (2 * (30 * N) = 60 * N)%Z. lia.
Qed.

(** The schedule of a 15-minute window: every 5 minutes, events at most
    150 seconds old. *)
Lemma schedule_of_valid_configuration_witness :
  exists resources,
    init Sample.constants (Sample.configuration 15) Sample.props
         Sample.notifications Sample.elsewhere "stateMachine" "role"
    = OK resources
    /\ scheduleExpression (cfnSchedule resources) = "rate(5 minutes)"
    /\ maximumEventAgeInSeconds (retryPolicy (target (cfnSchedule resources)))
       = 150%Z.
Proof.
  destruct (schedule_of_valid_configuration
              Sample.constants (Sample.configuration 15) Sample.props
              Sample.notifications Sample.elsewhere "stateMachine" "role")
    as (Returns & _ & Schedule).
  - simpl. lia.
  - destruct (proj2 Returns) as (resources & E).
    + repeat split; try reflexivity. discriminate.
    + exists resources. split; [exact E|].
      destruct (Schedule resources E) as (Expr & _ & _ & _ & Age & _).
      split; [exact Expr|exact Age].
Defined.

(** The nested stack of a table named [ a-B], with a blank in front: the
    window size is in range, the name of the state machine is refused, and
    [init] leaves no schedule. *)
Lemma invalid_alias_leaves_no_schedule :
  (15 <= incrementalExportWindowSizeInMinutes
           (mkConfiguration "prod- a-b" " a-B" "exports/ a-B" "1" 15)
   <= 1440)%Z
  /\ init Sample.constants
          (mkConfiguration "prod- a-b" " a-B" "exports/ a-B" "1" 15)
          Sample.props Sample.notifications Sample.elsewhere
          "stateMachine" "role"
     = Throw "State Machine name must match ^[a-z0-9+!@.()-=_']+$/i. Received: prod- a-b-ddb-export-state-machine".
Proof.
  split; [simpl; lia|]. vm_compute. reflexivity.
Qed.


(** ** Histories are paths of the machine *)
Import asl ExportsStackMachine Paths.

Lemma nodeIn_In n ns : nodeIn n ns = true <-> In n ns.
Proof.
  unfold nodeIn. rewrite existsb_exists. split.
  - intros (m & Hm & E). apply nb.internal_node_dec_bl in E. now subst.
  - intros H. exists n. split; [exact H|]. now apply nb.internal_node_dec_lb.
Qed.

Lemma scanCatchers_handler cs e n :
  scanCatchers cs e = Some n -> In n (map sfn.handler cs).
Proof.
  unfold scanCatchers.
  destruct (find _ cs) as [c|] eqn:F; [|discriminate].
  intros [= <-]. apply find_some in F. apply in_map, F.
Qed.

Lemma firstChoice_target rules v n :
  firstChoice rules v = Some n -> In n (map snd rules).
Proof.
  unfold firstChoice.
  destruct (find _ rules) as [r|] eqn:F; [|discriminate].
  intros [= <-]. apply find_some in F. apply in_map, F.
Qed.

Section PathsOfRuns.
Variable machine : nb.node -> StateJson.

Lemma scanRetriers_retriable rs used e r :
  scanRetriers rs used e = Some r ->
  existsb (fun x => errorMatches (sfn.errors x) e) rs = true.
Proof.
  revert used r. induction rs as [|x rs IH]; intros used r; simpl; [discriminate|].
  destruct (errorMatches (sfn.errors x) e); [reflexivity|]. simpl.
  destruct (scanRetriers rs (tl used) e) as [[d u]|] eqn:S; [|discriminate].
  intros _. eapply IH, S.
Qed.

(** A transition taken by [step] is an edge of the rendered graph: a normal
    one after a visit without error, a catcher's after a failed attempt. *)
Lemma step_goto n v used ev n' v' :
  step (machine n) v used ev = (Goto n', v') ->
  match snd (visit (machine n) n ev) with
  | None => nodeIn n' (normalSuccessors machine n) = true
  | Some _ =>
      Type_ (machine n) = nb.TaskState
      /\ nodeIn n' (errorSuccessors machine n) = true
  end.
Proof.
  unfold step, visit, normalSuccessors, errorSuccessors, proceed.
  destruct (Type_ (machine n)); simpl.
  - destruct (failure ev) as [e|].
    + destruct (scanRetriers _ used e) as [[d used']|]; [discriminate|].
      destruct (scanCatchers _ e) as [m|] eqn:C; [|discriminate].
      intros [= <- _]. split; [reflexivity|].
      apply nodeIn_In. eapply scanCatchers_handler, C.
    + destruct (Next (machine n)); [|discriminate].
      intros [= <- _]. apply nodeIn_In. now left.
  - destruct (Next (machine n)); [|discriminate].
    intros [= <- _]. apply nodeIn_In. now left.
  - destruct (Next (machine n)); [|discriminate].
    intros [= <- _]. apply nodeIn_In. now left.
  - destruct (firstChoice _ v) as [m|] eqn:C.
    + intros [= <- _]. apply nodeIn_In.
      apply in_or_app. right. apply in_or_app. left.
      eapply firstChoice_target, C.
    + destruct (Default (machine n)); [|discriminate].
      intros [= <- _]. apply nodeIn_In.
      apply in_or_app. right. apply in_or_app. right. now left.
  - discriminate.
  - discriminate.
Qed.

(** Only a failed task attempt is retried, and only by a retrier that names
    the error. *)
Lemma step_retry n v used ev d used' v' :
  step (machine n) v used ev = (RetryAfter d used', v') ->
  exists e, snd (visit (machine n) n ev) = Some e
            /\ Type_ (machine n) = nb.TaskState
            /\ retriable machine n e = true.
Proof.
  unfold step, visit, proceed, retriable.
  destruct (Type_ (machine n)); simpl.
  - destruct (failure ev) as [e|].
    + destruct (scanRetriers _ used e) as [r|] eqn:S.
      * intros _. exists e. repeat split. eapply scanRetriers_retriable, S.
      * destruct (scanCatchers _ e); discriminate.
    + destruct (Next (machine n)); discriminate.
  - destruct (Next (machine n)); discriminate.
  - destruct (Next (machine n)); discriminate.
  - destruct (firstChoice _ v); [discriminate|].
    destruct (Default (machine n)); discriminate.
  - discriminate.
  - discriminate.
Qed.

Lemma visit_node n ev : fst (visit (machine n) n ev) = n.
Proof. unfold visit. now destruct (Type_ (machine n)). Qed.

(** The first visit of a run is at the state the run starts from. *)
Lemma run_head evs n v used x t :
  fst (run machine evs n v used) = x :: t -> fst x = n.
Proof.
  destruct evs as [|ev evs]; simpl; [discriminate|].
  destruct (step (machine n) v used ev) as [[n'|d used'|s] v'].
  - destruct (run machine evs n' v' []). simpl.
    intros [= <- _]. apply visit_node.
  - destruct (run machine evs n v' used'). simpl.
    intros [= <- _]. apply visit_node.
  - simpl. intros [= <- _]. apply visit_node.
Qed.

(** The history of a run is a path of the rendered graph. *)
Lemma run_chain evs : forall n v used,
  chain machine (fst (run machine evs n v used)).
Proof.
  induction evs as [|ev evs IH]; intros n v used; simpl; [exact I|].
  destruct (step (machine n) v used ev) as [[n'|d used'|s] v'] eqn:S.
  - pose proof (IH n' v' []) as C.
    pose proof (run_head evs n' v' []) as Hd.
    destruct (run machine evs n' v' []) as [h o]. simpl in *.
    destruct h as [|y t]; [exact I|]. split; [|exact C].
    specialize (Hd y t eq_refl).
    apply step_goto in S. unfold edge. rewrite Hd, visit_node.
    destruct (snd (visit (machine n) n ev)); [|exact S].
    destruct S as [T S]. split; [exact T|now right].
  - pose proof (IH n v' used') as C.
    pose proof (run_head evs n v' used') as Hd.
    destruct (run machine evs n v' used') as [h o]. simpl in *.
    destruct h as [|y t]; [exact I|]. split; [|exact C].
    specialize (Hd y t eq_refl).
    apply step_retry in S as (e & E & T & R).
    unfold edge. rewrite E, Hd, visit_node. split; [exact T|now left].
  - exact I.
Qed.

Lemma chain_tail x h : chain machine (x :: h) -> chain machine h.
Proof. destruct h; simpl; [trivial|tauto]. Qed.

Lemma chain_suffix p h : chain machine (p ++ h) -> chain machine h.
Proof.
  induction p as [|x p IH]; simpl app; [trivial|].
  intros C. apply IH. eapply chain_tail, C.
Qed.

Lemma chain_adjacent p x y q :
  chain machine (p ++ x :: y :: q) -> edge machine x y.
Proof. intros C. apply chain_suffix in C. simpl in C. tauto. Qed.

Lemma edge_successor x y :
  edge machine x y ->
  fst y = fst x \/ nodeIn (fst y) (successors machine (fst x)) = true.
Proof.
  unfold edge, successors. destruct (snd x).
  - intros [_ [[E _]|E]]; [now left|right].
    apply nodeIn_In, in_or_app. right. now apply nodeIn_In.
  - intros E. right. apply nodeIn_In, in_or_app. left. now apply nodeIn_In.
Qed.

(** Once a path is inside a closed set of states it stays there. *)
Lemma chain_stays ns :
  closed machine ns = true ->
  forall h x, chain machine (x :: h) -> nodeIn (fst x) ns = true ->
  forall y, In y h -> nodeIn (fst y) ns = true.
Proof.
  intros Cl. induction h as [|z h IH]; intros x C Hx y Hy; [destruct Hy|].
  assert (Hz : nodeIn (fst z) ns = true).
  { destruct C as [E _]. apply edge_successor in E as [E|E].
    - now rewrite E.
    - unfold closed in Cl. rewrite forallb_forall in Cl.
      apply nodeIn_In in Hx. specialize (Cl _ Hx).
      rewrite forallb_forall in Cl. apply Cl. now apply nodeIn_In. }
  destruct Hy as [<-|Hy]; [exact Hz|].
  eapply IH; [eapply chain_tail, C|exact Hz|exact Hy].
Qed.

(** Dominance: a path that starts inside a set which only the normal
    transitions of [a] leave, and that reaches a state outside of it, has
    visited [a] without error before. *)
Lemma chain_leaves_through ns a :
  closedExcept machine ns a = true ->
  forall h x, chain machine (x :: h) -> nodeIn (fst x) ns = true ->
  forall pre y post, x :: h = (pre ++ y :: post)%list ->
  nodeIn (fst y) ns = false -> In (a, None) pre.
Proof.
  intros Cl. unfold closedExcept in Cl. rewrite forallb_forall in Cl.
  induction h as [|z h IH]; intros x C Hx pre y post E Hy.
  - destruct pre as [|p pre]; simpl in E.
    + injection E as <- _. congruence.
    + injection E as _ E. destruct pre; discriminate E.
  - destruct pre as [|p pre]; simpl in E.
    + injection E as <- _. congruence.
    + injection E as <- E.
      destruct x as [n r]. simpl in Hx.
      destruct (nb.node_eq_dec n a) as [->|Na];
        [destruct r as [e|]; [|now left]|].
      all: right; eapply IH; [eapply chain_tail, C| |exact E|exact Hy].
      all: destruct C as [Ed _]; unfold edge in Ed; simpl in Ed.
      all: apply nodeIn_In in Hx as Hin; specialize (Cl _ Hin).
      all: apply andb_prop in Cl as [Ce Cn]; rewrite forallb_forall in Ce.
      * destruct Ed as [_ [[-> _]|Ed]]; [exact Hx|].
        apply Ce. now apply nodeIn_In.
      * destruct r as [e|].
        -- destruct Ed as [_ [[-> _]|Ed]]; [exact Hx|].
           apply Ce. now apply nodeIn_In.
        -- apply orb_prop in Cn as [Cn|Cn].
           ++ apply nb.internal_node_dec_bl in Cn. congruence.
           ++ rewrite forallb_forall in Cn. apply Cn. now apply nodeIn_In.
Qed.

End PathsOfRuns.

(** ** The routing at the PITR-enabled choice *)
Import WorkflowData.

Lemma fullExportPath_closed K : closed (stateMachine K) fullExportPath = true.
Proof. vm_compute. reflexivity. Qed.

Lemma incrementalExportPath_closed K :
  closed (stateMachine K) incrementalExportPath = true.
Proof. vm_compute. reflexivity. Qed.

(** A path never holds both export invocations. *)
Lemma chain_one_export_path K h x y :
  chain (stateMachine K) h -> In x h -> In y h ->
  fst x = nb.executeFullExport -> fst y = nb.executeIncrementalExport -> False.
Proof.
  intros C Hx Hy X Y.
  apply in_split in Hx as (p1 & p2 & ->).
  apply in_app_or in Hy as [Hy|[<-|Hy]].
  - apply in_split in Hy as (q1 & q2 & ->).
    rewrite <- app_assoc in C. apply chain_suffix in C. simpl in C.
    assert (I : In x (q2 ++ x :: p2)%list) by apply in_elt.
    pose proof (chain_stays _ _ (incrementalExportPath_closed K) _ _ C) as St.
    rewrite Y in St. specialize (St eq_refl x I).
    rewrite X in St. vm_compute in St. discriminate St.
  - congruence.
  - apply chain_suffix in C.
    pose proof (chain_stays _ _ (fullExportPath_closed K) _ _ C) as St.
    rewrite X in St. specialize (St eq_refl y Hy).
    rewrite Y in St. vm_compute in St. discriminate St.
Qed.

(** C1. Whenever an execution reaches the PITR-enabled choice, the two
    choices that follow hand it to exactly one route, the one the priority
    list prescribes: the PITR-disabled failure when PITR is off; otherwise
    (1) the full-export-running notification when a full export is still
    running, (2) the Full Export path when WorkflowState is PITR_GAP and the
    reset condition holds, (3) the PITR-gap notification when WorkflowState
    is PITR_GAP, (4) the Full Export path when WorkflowInitiated is false,
    (5) the Incremental Export path in every other case.  The guards of the
    routes exclude one another and cover every case, and the route depends on
    nothing but the PITR status, the running full export, WorkflowState,
    WorkflowInitiated and the reset condition; before the choice,
    WorkflowAction PAUSE ends the cycle as paused.  No cycle invokes both the
    full and the incremental export. *)
Theorem pitrEnabledChoice_routes_by_priority :
  forall (K : Constants) (d : WorkflowData.t) (used : list nat)
         (e1 e2 : Event),
    (exists target,
        (if pitrEnabled d
         then run (stateMachine K) [e1; e2] nb.pitrEnabledChoice (holds d) used
              = ([(nb.pitrEnabledChoice, None);
                  (nb.initializeWorkflowState, None)], Running target)
         else run (stateMachine K) [e1] nb.pitrEnabledChoice (holds d) used
              = ([(nb.pitrEnabledChoice, None)], Running target))
        /\ branchOf target = Some (prescribedBranch d))
    /\ (prescribedBranch d = PitrDisabledFailure <-> pitrEnabled d = false)
    /\ (prescribedBranch d = FullExportRunningWait
        <-> pitrEnabled d = true /\ fullExportRunning d = true)
    /\ (prescribedBranch d = PitrGapNotification
        <-> pitrEnabled d = true /\ fullExportRunning d = false
            /\ workflowState d = PITR_GAP /\ resetWithFullExport d = false)
    /\ (prescribedBranch d = FullExportPath
        <-> pitrEnabled d = true /\ fullExportRunning d = false
            /\ ((workflowState d = PITR_GAP /\ resetWithFullExport d = true)
                \/ (workflowState d = NORMAL /\ workflowInitiated d = false)))
    /\ (prescribedBranch d = IncrementalExportPath
        <-> pitrEnabled d = true /\ fullExportRunning d = false
            /\ workflowState d = NORMAL /\ workflowInitiated d = true)
    /\ (forall d', routingInputs d' = routingInputs d ->
                   run (stateMachine K) [e1; e2] nb.pitrEnabledChoice (holds d') used
                   = run (stateMachine K) [e1; e2] nb.pitrEnabledChoice (holds d) used)
    /\ (if isPaused d
        then run (stateMachine K) [e1; e2] nb.checkWorkflowAction (holds d) used
             = ([(nb.checkWorkflowAction, None); (nb.workflowPaused, None)],
                Finished Succeeded)
        else run (stateMachine K) [e1] nb.checkWorkflowAction (holds d) used
             = ([(nb.checkWorkflowAction, None)],
                Running nb.ensureTableExistsTask))
    /\ (forall v0 evs x y,
          In x (fst (execution K v0 evs)) ->
          In y (fst (execution K v0 evs)) ->
          fst x = nb.executeFullExport ->
          fst y = nb.executeIncrementalExport -> False).
Proof.
  intros K d used e1 e2.
  split.
  - destruct d as [action st initiated reset running enabled t1 t2 t3 t4 o].
    destruct enabled, running, st, reset, initiated;
      eexists; (split; [vm_compute; reflexivity|reflexivity]).
  - unfold prescribedBranch, isPitrGap.
    repeat match goal with |- _ /\ _ => split end.
    1-5: destruct (pitrEnabled d), (fullExportRunning d), (workflowState d),
           (resetWithFullExport d), (workflowInitiated d);
         simpl; intuition congruence.
    + intros d' E.
      destruct d as [action st initiated reset running enabled t1 t2 t3 t4 o].
      destruct d' as [action' st' initiated' reset' running' enabled' t1' t2' t3' t4' o'].
      unfold routingInputs in E. simpl in E.
      injection E as -> -> -> -> ->.
      destruct enabled, running, st, reset, initiated; vm_compute; reflexivity.
    + destruct d as [action st initiated reset running enabled t1 t2 t3 t4 o].
      destruct action; vm_compute; reflexivity.
    + intros v0 evs x y.
      apply (chain_one_export_path K), run_chain.
Qed.

(** ** Error handling at the tasks *)
Import Events Rendered.

Lemma errorMatches_one a e :
  errorMatches [a] e = (String.eqb a Builder.ALL || String.eqb a e).
Proof. unfold errorMatches. simpl. now rewrite orb_false_r. Qed.

Lemma eqb_neq_sym a e : e <> a -> String.eqb a e = false.
Proof. intros N. apply String.eqb_neq. congruence. Qed.

Lemma tolerant_write_step (K : Constants) j fallback path next v used e out :
  Type_ j = nb.TaskState ->
  Retry j = [ssmRetrier K] ->
  Catch j = [sfn.mkCatch fallback
               (sfn.mkCatchProps ["Ssm.ParameterNotFoundException"] path);
             catchAll] ->
  Next j = Some next ->
  step j v used (fails e out)
  = if String.eqb "Ssm.SdkClientException" e
    then if (hd 0 used <? SDK_EXCEPTION_RETRY_ATTEMPTS K)%nat
         then (RetryAfter (delaySeconds (ssmRetrier K) (hd 0 used))
                          (S (hd 0 used) :: tl used), v)
         else (Goto nb.notifyOnTaskFailed, out)
    else if String.eqb "Ssm.ParameterNotFoundException" e
         then (Goto fallback, out)
         else (Goto nb.notifyOnTaskFailed, out).
Proof.
  intros T R C N. unfold step. rewrite T, R, C. unfold fails. simpl failure.
  unfold scanRetriers, scanCatchers, find.
  cbn [sfn.errors ssmRetrier sfn.catchErrors sfn.props sfn.handler catchAll
       sfn.maxAttempts output].
  rewrite !errorMatches_one.
  change (String.eqb "Ssm.SdkClientException" Builder.ALL) with false.
  change (String.eqb "Ssm.ParameterNotFoundException" Builder.ALL) with false.
  change (String.eqb "States.ALL" Builder.ALL) with true.
  cbn [orb].
  destruct (String.eqb "Ssm.SdkClientException" e) eqn:S.
  - apply String.eqb_eq in S. subst e.
    destruct (hd 0 used <? SDK_EXCEPTION_RETRY_ATTEMPTS K)%nat; reflexivity.
  - destruct (String.eqb "Ssm.ParameterNotFoundException" e); reflexivity.
Qed.

(** C7. In the Full Export path, a "parameter not found" error at the write
    of WorkflowAction=RUN or of WorkflowState=NORMAL hands the execution to
    the step that clears WorkflowInitiated, and at the deletion of
    LastIncrementalExportTime to the poll of the full export; none of the
    three ends the cycle.  Every other error at these steps goes to
    Notify-And-Fail, the SDK client exception after its bounded retries. *)
Theorem parameter_not_found_is_tolerated :
  forall (K : Constants) (v out : Valuation) (used : list nat) (e : string),
    step (stateMachine K nb.setWorkflowActionParameterToRun) v used
         (fails "Ssm.ParameterNotFoundException" out)
    = (Goto nb.setEmptyWorkflowInitiatedParameter, out)
    /\ step (stateMachine K nb.setWorkflowStateParameterToNormal) v used
            (fails "Ssm.ParameterNotFoundException" out)
       = (Goto nb.setEmptyWorkflowInitiatedParameter, out)
    /\ step (stateMachine K nb.deleteLastIncrementalExportTimeParameter) v used
            (fails "Ssm.ParameterNotFoundException" out)
       = (Goto nb.describeFullExport, out)
    /\ (e <> "Ssm.ParameterNotFoundException" ->
        forall n,
          In n [nb.setWorkflowActionParameterToRun;
                nb.setWorkflowStateParameterToNormal;
                nb.deleteLastIncrementalExportTimeParameter] ->
          step (stateMachine K n) v used (fails e out)
          = (Goto nb.notifyOnTaskFailed, out)
          \/ (e = "Ssm.SdkClientException"
              /\ (hd 0 used < SDK_EXCEPTION_RETRY_ATTEMPTS K)%nat
              /\ exists seconds,
                  step (stateMachine K n) v used (fails e out)
                  = (RetryAfter seconds (S (hd 0 used) :: tl used), v))).
Proof.
  intros K v out used e.
  assert (A : forall e', step (stateMachine K nb.setWorkflowActionParameterToRun)
                              v used (fails e' out) = _)
    by (intros e'; eapply tolerant_write_step; vm_compute; reflexivity).
  assert (B : forall e', step (stateMachine K nb.setWorkflowStateParameterToNormal)
                              v used (fails e' out) = _)
    by (intros e'; eapply tolerant_write_step; vm_compute; reflexivity).
  assert (C : forall e', step (stateMachine K nb.deleteLastIncrementalExportTimeParameter)
                              v used (fails e' out) = _)
    by (intros e'; eapply tolerant_write_step; vm_compute; reflexivity).
  split; [rewrite A; reflexivity|].
  split; [rewrite B; reflexivity|].
  split; [rewrite C; reflexivity|].
  intros Ne n Hn.
  assert (S : step (stateMachine K n) v used (fails e out)
              = if String.eqb "Ssm.SdkClientException" e
                then if (hd 0 used <? SDK_EXCEPTION_RETRY_ATTEMPTS K)%nat
                     then (RetryAfter (delaySeconds (ssmRetrier K) (hd 0 used))
                                      (S (hd 0 used) :: tl used), v)
                     else (Goto nb.notifyOnTaskFailed, out)
                else (Goto nb.notifyOnTaskFailed, out)).
  { destruct Hn as [<-|[<-|[<-|[]]]]; rewrite ?A, ?B, ?C;
      rewrite (eqb_neq_sym _ _ Ne); reflexivity. }
  rewrite S.
  destruct (String.eqb "Ssm.SdkClientException" e) eqn:Sdk; [|now left].
  apply String.eqb_eq in Sdk.
  destruct (hd 0 used <? SDK_EXCEPTION_RETRY_ATTEMPTS K)%nat eqn:L; [|now left].
  right. apply Nat.ltb_lt in L. split; [now symmetry|]. split; [exact L|].
  eexists. reflexivity.
Qed.

(** An access-denied error at the write of WorkflowAction=RUN goes to
    Notify-And-Fail. *)
Lemma parameter_not_found_is_tolerated_witness :
  step (stateMachine Sample.constants nb.setWorkflowActionParameterToRun)
       (fun _ => false) [] (fails "Ssm.AccessDeniedException" (fun _ => false))
  = (Goto nb.notifyOnTaskFailed, fun _ => false).
Proof.
  destruct (parameter_not_found_is_tolerated
              Sample.constants (fun _ => false) (fun _ => false) []
              "Ssm.AccessDeniedException") as (_ & _ & _ & H).
  destruct (H ltac:(discriminate) nb.setWorkflowActionParameterToRun
              ltac:(now left)) as [G|(E & _)].
  - exact G.
  - discriminate E.
Defined.

Lemma invalidExportTime_delay (attempt : nat) :
  (delaySeconds invalidExportTimeRetrier attempt == 60)%Q.
Proof.
  unfold delaySeconds, invalidExportTimeRetrier, inSeconds. simpl.
  rewrite Qpower_1. reflexivity.
Qed.

(** C4. At the incremental-export invocation, a failure with "invalid export
    time" is retried by re-running the invocation: at most 2 times, each
    time after 60 seconds (interval of 1 minute, backoff rate 1).  When the
    error persists past the second retry the execution is handed to the
    PITR-gap route: WorkflowState is set to PITR_GAP, the "start time
    outside the PITR window" notification is published, and the cycle ends
    in that route's own failure state, not in Notify-And-Fail. *)
Theorem invalid_export_time_retried_then_pitr_gap :
  forall (K : Constants) (v out : Valuation) (used : list nat),
    Retry (stateMachine K nb.executeIncrementalExport)
    = [invalidExportTimeRetrier; dynamoDbRetrier K]
    /\ (exists seconds,
          step (stateMachine K nb.executeIncrementalExport) v used
               (fails "DynamoDb.InvalidExportTimeException" out)
          = (if (hd 0 used <? 2)%nat
             then (RetryAfter seconds (S (hd 0 used) :: tl used), v)
             else (Goto nb.setWorkflowStateParameterToPitrGap, out))
          /\ (seconds == 60)%Q)
    /\ (forall out1 out2 out3 out4 out5 e6,
          run (stateMachine K)
              [fails "DynamoDb.InvalidExportTimeException" out1;
               fails "DynamoDb.InvalidExportTimeException" out2;
               fails "DynamoDb.InvalidExportTimeException" out3;
               succeeds out4; succeeds out5; e6]
              nb.executeIncrementalExport v []
          = ([(nb.executeIncrementalExport,
               Some "DynamoDb.InvalidExportTimeException");
              (nb.executeIncrementalExport,
               Some "DynamoDb.InvalidExportTimeException");
              (nb.executeIncrementalExport,
               Some "DynamoDb.InvalidExportTimeException");
              (nb.setWorkflowStateParameterToPitrGap, None);
              (nb.notifyOnIncrementalExportStartTimeOutsidePitrWindow, None);
              (nb.incrementalExportStartTimeOutsidePitrWindowFail, None)],
             Finished Failed)).
Proof.
  intros K v out used.
  assert (J : stateMachine K nb.executeIncrementalExport
              = {| Type_ := nb.TaskState;
                   Next := Some nb.setLastIncrementalExportTimeParameter;
                   Retry := [invalidExportTimeRetrier; dynamoDbRetrier K];
                   Catch := [sfn.mkCatch nb.setWorkflowStateParameterToPitrGap
                               (sfn.mkCatchProps
                                  ["DynamoDb.InvalidExportTimeException"] None);
                             catchAll];
                   Choices := [];
                   Default := None |})
    by (vm_compute; reflexivity).
  split; [rewrite J; reflexivity|].
  split.
  - exists (delaySeconds invalidExportTimeRetrier (hd 0 used)).
    split; [|apply invalidExportTime_delay].
    rewrite J. unfold step, fails. simpl failure. simpl Type_.
    cbn [Retry Catch scanRetriers scanCatchers find sfn.errors sfn.catchErrors
         sfn.props sfn.handler invalidExportTimeRetrier sfn.maxAttempts output].
    rewrite !errorMatches_one.
    change (String.eqb "DynamoDb.InvalidExportTimeException"
                       "DynamoDb.InvalidExportTimeException") with true.
    rewrite orb_true_r.
    destruct (hd 0 used <? 2)%nat; reflexivity.
  - intros. vm_compute. reflexivity.
Qed.

(** ** Executions of the deployed machine *)

Lemma startAt_getParametersTask K : startAt K = nb.getParametersTask.
Proof. vm_compute. reflexivity. Qed.

Lemma all_nodes n : In n nb.all.
Proof. apply nodeIn_In. destruct n; reflexivity. Qed.

Lemma allBut_excludes excluded n :
  nodeIn n excluded = true -> nodeIn n (allBut excluded) = false.
Proof.
  unfold allBut. generalize nb.all. intros l E.
  apply not_true_is_false. intros A.
  apply nodeIn_In, filter_In in A as [_ A].
  unfold nodeIn in E. rewrite E in A. discriminate A.
Qed.

Lemma execution_chain K v0 evs :
  chain (stateMachine K) (fst (execution K v0 evs)).
Proof. apply run_chain. Qed.

Lemma execution_head K v0 evs x t :
  fst (execution K v0 evs) = x :: t -> fst x = nb.getParametersTask.
Proof.
  intros E. apply run_head in E. now rewrite startAt_getParametersTask in E.
Qed.

(** Dominance at the level of executions: when only the normal transitions
    of [a] lead into the [excluded] states, an execution that visits one of
    them has visited [a] without error before. *)
Lemma execution_passes_through K excluded a :
  closedExcept (stateMachine K) (allBut excluded) a = true ->
  nodeIn nb.getParametersTask excluded = false ->
  forall v0 evs pre y post,
    fst (execution K v0 evs) = (pre ++ y :: post)%list ->
    nodeIn (fst y) excluded = true ->
    In (a, None) pre.
Proof.
  intros Cl St v0 evs pre y post E Hy.
  pose proof (execution_chain K v0 evs) as C.
  pose proof (execution_head K v0 evs) as Hd.
  destruct (fst (execution K v0 evs)) as [|x h] eqn:H.
  - destruct pre; discriminate E.
  - eapply chain_leaves_through;
      [exact Cl|exact C| |exact E|now apply allBut_excludes].
    rewrite (Hd x h eq_refl). apply nodeIn_In. unfold allBut.
    pose proof (all_nodes nb.getParametersTask) as Hall. revert Hall.
    generalize nb.all. intros l Hall.
    apply filter_In. split; [exact Hall|].
    unfold nodeIn in St. now rewrite St.
Qed.

(** No state behind an export invocation leads back in front of it. *)
Lemma fromExportOn_closed K : closed (stateMachine K) fromExportOn = true.
Proof. vm_compute. reflexivity. Qed.

Lemma pitrGapRoute_closed K : closed (stateMachine K) pitrGapRoute = true.
Proof. vm_compute. reflexivity. Qed.

(** A visit to a state outside the export paths is not preceded by an
    export invocation. *)
Lemma no_export_before K v0 evs pre y post :
  fst (execution K v0 evs) = (pre ++ y :: post)%list ->
  nodeIn (fst y) fromExportOn = false ->
  noExport pre.
Proof.
  intros E Hy x Hx.
  destruct (isExport (fst x)) eqn:X; [exfalso|reflexivity].
  apply in_split in Hx as (p1 & p2 & ->).
  pose proof (execution_chain K v0 evs) as C. rewrite E in C.
  rewrite <- app_assoc in C. apply chain_suffix in C.
  simpl in C.
  assert (In y (p2 ++ y :: post)%list) as Iy by (apply in_elt).
  pose proof (chain_stays (stateMachine K) fromExportOn (fromExportOn_closed K)
                          _ x C) as St.
  rewrite St in Hy; [discriminate|destruct (fst x); try discriminate X; reflexivity | exact Iy].
Qed.

(** ** Watermarks and completion flags *)

Lemma afterFullExportStarted_entry K :
  closedExcept (stateMachine K) (allBut afterFullExportStarted)
               nb.executeFullExport = true.
Proof. vm_compute. reflexivity. Qed.

Lemma afterFullExportTimeSet_entry K :
  closedExcept (stateMachine K) (allBut afterFullExportTimeSet)
               nb.setFullExportTimeParameter = true.
Proof. vm_compute. reflexivity. Qed.

Lemma afterFullExportPolled_entry K :
  closedExcept (stateMachine K) (allBut afterFullExportPolled)
               nb.fullExportCompletedState = true.
Proof. vm_compute. reflexivity. Qed.

Lemma afterIncrementalExportStarted_entry K :
  closedExcept (stateMachine K) (allBut afterIncrementalExportStarted)
               nb.executeIncrementalExport = true.
Proof. vm_compute. reflexivity. Qed.

Lemma afterLastIncrementalExportTimeSet_entry K :
  closedExcept (stateMachine K) (allBut afterLastIncrementalExportTimeSet)
               nb.setLastIncrementalExportTimeParameter = true.
Proof. vm_compute. reflexivity. Qed.

Lemma afterIncrementalExportPolled_entry K :
  closedExcept (stateMachine K) (allBut afterIncrementalExportPolled)
               nb.incrementalExportCompletedState = true.
Proof. vm_compute. reflexivity. Qed.

(** C2, as the code has it.  In every execution, FullExportTime is written
    only after the full export has been started without error in the same
    cycle, and LastIncrementalExportTime only after the incremental export
    has been started without error; each write comes before the poll that
    observes the end of the export, and the completion flags (the
    WorkflowInitiated parameter, the incremental export's true/false
    parameter) are set only after that poll and after the watermark was
    written. *)
Theorem watermark_written_once_export_started :
  forall (K : Constants) (v0 : Valuation) (evs : list Event)
         (pre post : list Visit) (y : Visit),
    fst (execution K v0 evs) = (pre ++ y :: post)%list ->
    (fst y = nb.setFullExportTimeParameter ->
     In (nb.executeFullExport, None) pre)
    /\ (fst y = nb.setLastIncrementalExportTimeParameter ->
        In (nb.executeIncrementalExport, None) pre)
    /\ (fst y = nb.fullExportCompletedState ->
        In (nb.setFullExportTimeParameter, None) pre)
    /\ (fst y = nb.incrementalExportCompletedState ->
        In (nb.setLastIncrementalExportTimeParameter, None) pre)
    /\ (fst y = nb.setWorkflowInitiatedParameter ->
        In (nb.fullExportCompletedState, None) pre
        /\ In (nb.setFullExportTimeParameter, None) pre)
    /\ (fst y = nb.incrementalExportParameterTrue
        \/ fst y = nb.incrementalExportParameterFalse ->
        In (nb.incrementalExportCompletedState, None) pre
        /\ In (nb.setLastIncrementalExportTimeParameter, None) pre).
Proof.
  intros K v0 evs pre post y E.
  pose proof (fun excluded a Cl St =>
                execution_passes_through K excluded a Cl St v0 evs pre y post E)
    as Through.
  repeat match goal with |- _ /\ _ => split end.
  - intros Y. apply (Through afterFullExportStarted);
      [apply afterFullExportStarted_entry|reflexivity|now rewrite Y].
  - intros Y. apply (Through afterIncrementalExportStarted);
      [apply afterIncrementalExportStarted_entry|reflexivity|now rewrite Y].
  - intros Y. apply (Through afterFullExportTimeSet);
      [apply afterFullExportTimeSet_entry|reflexivity|now rewrite Y].
  - intros Y. apply (Through afterLastIncrementalExportTimeSet);
      [apply afterLastIncrementalExportTimeSet_entry|reflexivity|now rewrite Y].
  - intros Y. split.
    + apply (Through afterFullExportPolled);
        [apply afterFullExportPolled_entry|reflexivity|now rewrite Y].
    + apply (Through afterFullExportTimeSet);
        [apply afterFullExportTimeSet_entry|reflexivity|now rewrite Y].
  - intros Y. split.
    + apply (Through afterIncrementalExportPolled);
        [apply afterIncrementalExportPolled_entry|reflexivity|].
      destruct Y as [Y|Y]; now rewrite Y.
    + apply (Through afterLastIncrementalExportTimeSet);
        [apply afterLastIncrementalExportTimeSet_entry|reflexivity|].
      destruct Y as [Y|Y]; now rewrite Y.
Qed.

(** In the cycle that is refused the write of WorkflowAction=RUN,
    FullExportTime was written after the export had been started. *)
Lemma watermark_written_once_export_started_witness :
  In (nb.executeFullExport, @None string)
     [(nb.getParametersTask, None); (nb.cleanParametersPassState, None);
      (nb.checkWorkflowAction, None); (nb.ensureTableExistsTask, None);
      (nb.describeContinuousBackupsAwsServiceTask, None);
      (nb.pitrEnabledChoice, None); (nb.initializeWorkflowState, None);
      (nb.executeFullExport, None)].
Proof.
  refine (proj1 (watermark_written_once_export_started
                   Sample.constants Scenarios.notInitiated
                   Scenarios.accessDeniedAfterFullExportTime
                   _ [(nb.setWorkflowActionParameterToRun,
                       Some "Ssm.AccessDeniedException");
                      (nb.notifyOnTaskFailed, None); (nb.taskFailedNode, None)]
                   (nb.setFullExportTimeParameter, None) _) eq_refl).
  vm_compute. reflexivity.
Defined.

(** C2 as stated fails: a cycle that ends through Notify-And-Fail with
    FullExportTime written, although the end of the full export was never
    observed and no completion flag was set. *)
Lemma watermark_written_before_completion :
  execution Sample.constants Scenarios.notInitiated
            Scenarios.accessDeniedAfterFullExportTime
  = ([(nb.getParametersTask, None); (nb.cleanParametersPassState, None);
      (nb.checkWorkflowAction, None); (nb.ensureTableExistsTask, None);
      (nb.describeContinuousBackupsAwsServiceTask, None);
      (nb.pitrEnabledChoice, None); (nb.initializeWorkflowState, None);
      (nb.executeFullExport, None); (nb.setFullExportTimeParameter, None);
      (nb.setWorkflowActionParameterToRun, Some "Ssm.AccessDeniedException");
      (nb.notifyOnTaskFailed, None); (nb.taskFailedNode, None)],
     Finished Failed)
  /\ ~ (forall (K : Constants) (v0 : Valuation) (evs : list Event)
               (pre post : list Visit),
           fst (execution K v0 evs)
           = (pre ++ (nb.setFullExportTimeParameter, None) :: post)%list ->
           In (nb.fullExportCompletedState, None) pre).
Proof.
  split; [vm_compute; reflexivity|].
  intros Claim.
  specialize (Claim Sample.constants Scenarios.notInitiated
                    Scenarios.accessDeniedAfterFullExportTime
                    [(nb.getParametersTask, None);
                     (nb.cleanParametersPassState, None);
                     (nb.checkWorkflowAction, None);
                     (nb.ensureTableExistsTask, None);
                     (nb.describeContinuousBackupsAwsServiceTask, None);
                     (nb.pitrEnabledChoice, None);
                     (nb.initializeWorkflowState, None);
                     (nb.executeFullExport, None)]
                    [(nb.setWorkflowActionParameterToRun,
                      Some "Ssm.AccessDeniedException");
                     (nb.notifyOnTaskFailed, None); (nb.taskFailedNode, None)]
                    ltac:(vm_compute; reflexivity)).
  simpl in Claim.
  repeat (destruct Claim as [Claim|Claim]; [discriminate Claim|]).
  exact Claim.
Qed.

(** ** Notify-And-Fail *)

Lemma scanCatchers_catchAll specific e :
  scanCatchers (specific ++ [catchAll]) e <> None.
Proof.
  unfold scanCatchers.
  induction specific as [|c cs IH]; simpl.
  - discriminate.
  - destruct (errorMatches (sfn.catchErrors (sfn.props c)) e); [discriminate|].
    exact IH.
Qed.

(** A task whose last catcher is the catch-all never lets an error end the
    execution by itself. *)
Lemma caught_task_never_stops j specific v used e out :
  Type_ j = nb.TaskState ->
  Catch j = (specific ++ [catchAll])%list ->
  forall s, fst (step j v used (fails e out)) <> Stop s.
Proof.
  intros T C s. unfold step. rewrite T, C. cbn [failure fails].
  destruct (scanRetriers (Retry j) used e) as [[d u]|]; [simpl; discriminate|].
  pose proof (scanCatchers_catchAll specific e) as NN.
  destruct (scanCatchers (specific ++ [catchAll]) e);
    [simpl; discriminate|congruence].
Qed.

(** The failed terminal has no way out. *)
Lemma taskFailedNode_is_last K r z :
  edge (stateMachine K) (nb.taskFailedNode, r) z -> False.
Proof.
  unfold edge. simpl fst. simpl snd. destruct r as [e|].
  - intros [T _]. vm_compute in T. discriminate T.
  - vm_compute. discriminate.
Qed.

(** After Notify-And-Fail comes the failed terminal, and nothing else; a
    failed publication is not retried. *)
Lemma notifyOnTaskFailed_then_fails K r z :
  edge (stateMachine K) (nb.notifyOnTaskFailed, r) z ->
  r = None /\ fst z = nb.taskFailedNode.
Proof.
  unfold edge. simpl fst. simpl snd. destruct r as [e|].
  - intros [_ [[_ R]|E]]; [vm_compute in R|vm_compute in E]; discriminate.
  - intros E. split; [reflexivity|].
    apply nodeIn_In in E. vm_compute in E. destruct E as [E|[]]. now symmetry.
Qed.

(** The failed terminal is entered from Notify-And-Fail only. *)
Lemma taskFailedNode_entry K x r :
  edge (stateMachine K) x (nb.taskFailedNode, r) ->
  x = (nb.notifyOnTaskFailed, None).
Proof.
  destruct x as [n res]. unfold edge. simpl fst. simpl snd.
  destruct res as [e|].
  - intros [T [[E _]|E]].
    + subst n. vm_compute in T. discriminate T.
    + exfalso. destruct n; vm_compute in E; discriminate E.
  - intros E. destruct n; vm_compute in E; try discriminate E. reflexivity.
Qed.

(** C3, as the code has it.  Every task other than Notify-And-Fail itself
    and the "start time outside the PITR window" notification has the
    catch-all as its last catcher, leading to Notify-And-Fail, so that no
    error of such a task ends the execution without being handled;
    Notify-And-Fail leads to the failed terminal; and an execution that
    reaches the failed terminal ends there, having published through
    Notify-And-Fail exactly once, immediately before. *)
Theorem task_faults_reach_notify_and_fail :
  forall (K : Constants),
    (forall n,
        nb.kind n = nb.TaskState ->
        n <> nb.notifyOnTaskFailed ->
        n <> nb.notifyOnIncrementalExportStartTimeOutsidePitrWindow ->
        (exists specific,
            Catch (stateMachine K n) = (specific ++ [catchAll])%list
            /\ forall c, In c specific ->
                         ~ In "States.ALL" (sfn.catchErrors (sfn.props c)))
        /\ forall v used e out s,
            fst (step (stateMachine K n) v used (fails e out)) <> Stop s)
    /\ Next (stateMachine K nb.notifyOnTaskFailed) = Some nb.taskFailedNode
    /\ Type_ (stateMachine K nb.taskFailedNode) = nb.FailState
    /\ (forall v0 evs pre y post,
           fst (execution K v0 evs) = (pre ++ y :: post)%list ->
           fst y = nb.taskFailedNode ->
           post = []
           /\ exists before,
               pre = (before ++ [(nb.notifyOnTaskFailed, None)])%list
               /\ forall x, In x before -> fst x <> nb.notifyOnTaskFailed).
Proof.
  intros K.
  split; [|split; [vm_compute; reflexivity|split; [vm_compute; reflexivity|]]].
  - intros n T N1 N2.
    assert (C : exists specific,
               Catch (stateMachine K n) = (specific ++ [catchAll])%list
               /\ forall c, In c specific ->
                            ~ In "States.ALL" (sfn.catchErrors (sfn.props c))).
    { destruct n; try discriminate T; try congruence.
      all: first
             [ exists []; split; [vm_compute; reflexivity|intros c []]
             | eexists [_]; split; [vm_compute; reflexivity|];
               intros c [<-|[]]; simpl; intros [F|[]]; discriminate F ]. }
    split; [exact C|].
    destruct C as (specific & C & _).
    intros v used e out s.
    apply (caught_task_never_stops _ specific); [|exact C].
    destruct n; try discriminate T; reflexivity.
  - intros v0 evs pre y post E Y.
    pose proof (execution_chain K v0 evs) as C. rewrite E in C.
    pose proof (execution_head K v0 evs) as Hd. rewrite E in Hd.
    destruct y as [ny ry]. simpl in Y. subst ny.
    split.
    { destruct post as [|z post]; [reflexivity|exfalso].
      apply chain_adjacent in C. eapply taskFailedNode_is_last, C. }
    destruct pre as [|p pre _] using rev_ind.
    { specialize (Hd _ _ eq_refl). discriminate Hd. }
    rewrite <- app_assoc in C. simpl in C.
    pose proof (chain_adjacent _ _ _ _ _ C) as Ed.
    apply taskFailedNode_entry in Ed. subst p.
    exists pre. split; [reflexivity|].
    intros x Hx Nx. apply in_split in Hx as (p1 & p2 & ->).
    rewrite <- !app_assoc in C. simpl in C.
    destruct x as [nx rx]. simpl in Nx. subst nx.
    destruct p2 as [|w p2]; simpl in C.
    + pose proof (chain_adjacent _ _ _ _ _ C) as Ed.
      apply notifyOnTaskFailed_then_fails in Ed as [_ Ed]. discriminate Ed.
    + pose proof (chain_adjacent _ _ _ _ _ C) as Ed.
      apply notifyOnTaskFailed_then_fails in Ed as [_ Ed].
      destruct w as [nw rw]. simpl in Ed. subst nw.
      apply chain_suffix in C. apply chain_tail in C.
      destruct p2 as [|w2 p2]; simpl in C;
        destruct C as [Ed _]; eapply taskFailedNode_is_last, Ed.
Qed.

(** A throttled poll of the full export, not named by any retrier of the
    state, leaves the task through the catch-all. *)
Lemma task_faults_reach_notify_and_fail_witness :
  fst (step (stateMachine Sample.constants nb.describeFullExport)
            Scenarios.notInitiated []
            (fails "DynamoDb.ThrottlingException" Scenarios.notInitiated))
  <> Stop (Aborted "DynamoDb.ThrottlingException").
Proof.
  apply (proj1 (task_faults_reach_notify_and_fail Sample.constants)
               nb.describeFullExport eq_refl);
    discriminate.
Defined.

(** C3 as stated fails: two tasks have no catcher at all, Notify-And-Fail
    itself and the task that publishes the "start time outside the PITR
    window" notification; a cycle in which that publication fails ends
    without having visited Notify-And-Fail. *)
Lemma publication_failure_is_not_notified :
  nb.kind nb.notifyOnTaskFailed = nb.TaskState
  /\ Catch (stateMachine Sample.constants nb.notifyOnTaskFailed) = []
  /\ nb.kind nb.notifyOnIncrementalExportStartTimeOutsidePitrWindow
     = nb.TaskState
  /\ Catch (stateMachine Sample.constants
              nb.notifyOnIncrementalExportStartTimeOutsidePitrWindow) = []
  /\ execution Sample.constants Scenarios.startTimeOutsidePitrWindow
               Scenarios.publishFailsAfterPitrGap
     = ([(nb.getParametersTask, None); (nb.cleanParametersPassState, None);
         (nb.checkWorkflowAction, None); (nb.ensureTableExistsTask, None);
         (nb.describeContinuousBackupsAwsServiceTask, None);
         (nb.pitrEnabledChoice, None); (nb.initializeWorkflowState, None);
         (nb.isLastIncrementalExportParameterValid, None);
         (nb.useFullExportTimeParameterValue, None);
         (nb.getNextIncrementalExportTimeLambdaInvoke, None);
         (nb.checkIncrementalExportNeeded, None);
         (nb.isEarliestRestoreDateTimeValidChoice, None);
         (nb.setWorkflowStateParameterToPitrGap, None);
         (nb.notifyOnIncrementalExportStartTimeOutsidePitrWindow,
          Some "Sns.KmsAccessDeniedException")],
        Finished (Aborted "Sns.KmsAccessDeniedException"))
  /\ ~ (forall (K : Constants) (n : nb.node),
           nb.kind n = nb.TaskState ->
           exists c, In c (Catch (stateMachine K n))
                     /\ sfn.catchErrors (sfn.props c) = ["States.ALL"]
                     /\ sfn.handler c = nb.notifyOnTaskFailed).
Proof.
  split; [reflexivity|]. split; [vm_compute; reflexivity|].
  split; [reflexivity|]. split; [vm_compute; reflexivity|].
  split; [vm_compute; reflexivity|].
  intros Claim.
  destruct (Claim Sample.constants
                  nb.notifyOnIncrementalExportStartTimeOutsidePitrWindow
                  eq_refl) as (c & Hc & _).
  vm_compute in Hc. exact Hc.
Qed.

(** ** The incremental path in front of the export *)

Lemma firstChoice_cons c n rules v :
  firstChoice ((c, n) :: rules) v
  = if v c then Some n else firstChoice rules v.
Proof. unfold firstChoice. simpl. now destruct (v c). Qed.

Lemma run_retry machine ev evs n v used d used' v' :
  step (machine n) v used ev = (RetryAfter d used', v') ->
  run machine (ev :: evs) n v used
  = (visit (machine n) n ev :: fst (run machine evs n v' used'),
     snd (run machine evs n v' used')).
Proof.
  intros S. simpl. rewrite S. now destruct (run machine evs n v' used').
Qed.

(** The write of WorkflowState=PITR_GAP under the SDK client exception:
    retried while the retrier has attempts left, then Notify-And-Fail. *)
Lemma setWorkflowStateParameterToPitrGap_sdk K v used out :
  step (stateMachine K nb.setWorkflowStateParameterToPitrGap) v used
       (fails "Ssm.SdkClientException" out)
  = if (hd 0 used <? SDK_EXCEPTION_RETRY_ATTEMPTS K)%nat
    then (RetryAfter (delaySeconds (ssmRetrier K) (hd 0 used))
                     (S (hd 0 used) :: tl used), v)
    else (Goto nb.notifyOnTaskFailed, out).
Proof.
  assert (J : stateMachine K nb.setWorkflowStateParameterToPitrGap
              = {| Type_ := nb.TaskState;
                   Next := Some nb.notifyOnIncrementalExportStartTimeOutsidePitrWindow;
                   Retry := [ssmRetrier K];
                   Catch := [catchAll];
                   Choices := [];
                   Default := None |})
    by (vm_compute; reflexivity).
  rewrite J. unfold step, fails. cbn [Type_ failure Retry Catch].
  cbn [scanRetriers scanCatchers find sfn.errors ssmRetrier sfn.catchErrors
       sfn.props sfn.handler catchAll sfn.maxAttempts output].
  rewrite !errorMatches_one.
  change (String.eqb "Ssm.SdkClientException" "Ssm.SdkClientException")
    with true.
  change (String.eqb "States.ALL" Builder.ALL) with true.
  rewrite orb_true_r. cbn [orb].
  destruct (hd 0 used <? SDK_EXCEPTION_RETRY_ATTEMPTS K)%nat; reflexivity.
Qed.

Lemma setWorkflowStateParameterToPitrGap_retried K v out1 out2 out3 e :
  forall k used,
    (hd 0 used + k <= SDK_EXCEPTION_RETRY_ATTEMPTS K)%nat ->
    run (stateMachine K)
        (repeat (fails "Ssm.SdkClientException" out1) k
           ++ [succeeds out2; succeeds out3; e])%list
        nb.setWorkflowStateParameterToPitrGap v used
    = ((repeat (nb.setWorkflowStateParameterToPitrGap,
                Some "Ssm.SdkClientException") k
          ++ [(nb.setWorkflowStateParameterToPitrGap, None);
              (nb.notifyOnIncrementalExportStartTimeOutsidePitrWindow, None);
              (nb.incrementalExportStartTimeOutsidePitrWindowFail, None)])%list,
       Finished Failed).
Proof.
  induction k as [|k IH]; intros used B.
  - vm_compute. reflexivity.
  - cbn [repeat app].
    pose proof (setWorkflowStateParameterToPitrGap_sdk K v used out1) as S.
    replace (hd 0 used <? SDK_EXCEPTION_RETRY_ATTEMPTS K)%nat with true in S
      by (symmetry; apply Nat.ltb_lt; lia).
    rewrite (run_retry _ _ _ _ _ _ _ _ _ S).
    rewrite IH by (simpl; lia).
    cbn [fst snd].
    replace (visit (stateMachine K nb.setWorkflowStateParameterToPitrGap)
                   nb.setWorkflowStateParameterToPitrGap
                   (fails "Ssm.SdkClientException" out1))
      with (nb.setWorkflowStateParameterToPitrGap,
            Some "Ssm.SdkClientException")
      by (vm_compute; reflexivity).
    reflexivity.
Qed.

Lemma pitrGapRoute_no_export n :
  nodeIn n pitrGapRoute = true -> isExport n = false.
Proof. destruct n; vm_compute; congruence. Qed.

Lemma incrementalExportNotNeeded_is_last K r z :
  edge (stateMachine K) (nb.incrementalExportNotNeeded, r) z -> False.
Proof.
  unfold edge. simpl fst. simpl snd. destruct r as [e|].
  - intros [T _]. vm_compute in T. discriminate T.
  - vm_compute. discriminate.
Qed.

(** C5. In the Incremental Export path, when the start of the export window
    (the watermark) precedes the earliest restorable time of PITR, the
    PITR-validity choice hands the execution to the step that sets
    WorkflowState=PITR_GAP.  That step retries the SDK client exception of
    the parameter store a bounded number of times; once it succeeds, the
    "start time outside the PITR window" notification is published and the
    cycle ends as failed.  No export is invoked in a cycle that takes this
    way. *)
Theorem start_time_outside_pitr_window_sets_pitr_gap :
  forall (K : Constants) (d : WorkflowData.t),
    (exportFromTime d < earliestRestorableTime d)%Z ->
    (forall used e1,
        run (stateMachine K) [e1] nb.isEarliestRestoreDateTimeValidChoice
            (holds d) used
        = ([(nb.isEarliestRestoreDateTimeValidChoice, None)],
           Running nb.setWorkflowStateParameterToPitrGap))
    /\ (forall v k out1 out2 out3 e,
          (k <= SDK_EXCEPTION_RETRY_ATTEMPTS K)%nat ->
          run (stateMachine K)
              (repeat (fails "Ssm.SdkClientException" out1) k
                 ++ [succeeds out2; succeeds out3; e])%list
              nb.setWorkflowStateParameterToPitrGap v []
          = ((repeat (nb.setWorkflowStateParameterToPitrGap,
                      Some "Ssm.SdkClientException") k
                ++ [(nb.setWorkflowStateParameterToPitrGap, None);
                    (nb.notifyOnIncrementalExportStartTimeOutsidePitrWindow,
                     None);
                    (nb.incrementalExportStartTimeOutsidePitrWindowFail,
                     None)])%list,
             Finished Failed))
    /\ (forall v used out,
          (SDK_EXCEPTION_RETRY_ATTEMPTS K <= hd 0 used)%nat ->
          step (stateMachine K nb.setWorkflowStateParameterToPitrGap) v used
               (fails "Ssm.SdkClientException" out)
          = (Goto nb.notifyOnTaskFailed, out))
    /\ (forall v0 evs pre r post,
          fst (execution K v0 evs)
          = (pre ++ (nb.isEarliestRestoreDateTimeValidChoice, None)
                 :: (nb.setWorkflowStateParameterToPitrGap, r) :: post)%list ->
          noExport (fst (execution K v0 evs))).
Proof.
  intros K d Gap.
  split; [|split; [|split]].
  - intros used e1.
    apply Z.ltb_lt in Gap.
    destruct d as [action st initiated reset running enabled t1 t2 t3 t4 o].
    simpl in Gap.
    assert (V : holds (WorkflowData.mk action st initiated reset running
                                       enabled t1 t2 t3 t4 o)
                      cb.earliestRestoreDateTimeIsGreaterThanExportStartTime
                = true) by exact Gap.
    revert V. generalize (holds (WorkflowData.mk action st initiated reset
                                                 running enabled t1 t2 t3 t4 o)).
    intros v V.
    set (m := stateMachine K).
    assert (J : m nb.isEarliestRestoreDateTimeValidChoice
                = {| Type_ := nb.ChoiceState; Next := None; Retry := [];
                     Catch := [];
                     Choices :=
                       [(cb.earliestRestoreDateTimeIsGreaterThanExportStartTime,
                         nb.setWorkflowStateParameterToPitrGap)];
                     Default := Some nb.executeIncrementalExport |})
      by (vm_compute; reflexivity).
    clearbody m. simpl. rewrite J. cbn.
    rewrite firstChoice_cons, V. reflexivity.
  - intros v k out1 out2 out3 e B.
    apply setWorkflowStateParameterToPitrGap_retried. simpl. lia.
  - intros v used out B.
    rewrite setWorkflowStateParameterToPitrGap_sdk.
    replace (hd 0 used <? SDK_EXCEPTION_RETRY_ATTEMPTS K)%nat with false
      by (symmetry; apply Nat.ltb_ge; lia).
    reflexivity.
  - intros v0 evs pre r post E x Hx.
    rewrite E in Hx. apply in_app_or in Hx as [Hx|[<-|[<-|Hx]]];
      try reflexivity.
    + eapply (no_export_before K v0 evs pre _ _ E); [reflexivity|exact Hx].
    + pose proof (execution_chain K v0 evs) as C. rewrite E in C.
      apply chain_suffix, chain_tail in C.
      apply pitrGapRoute_no_export.
      eapply (chain_stays _ _ (pitrGapRoute_closed K) _ _ C);
        [reflexivity|exact Hx].
Qed.

(** A window that starts at 50 while PITR reaches back to 100 only. *)
Lemma start_time_outside_pitr_window_sets_pitr_gap_witness :
  run (stateMachine Sample.constants)
      [succeeds Scenarios.startTimeOutsidePitrWindow]
      nb.isEarliestRestoreDateTimeValidChoice
      (holds (WorkflowData.mk RUN NORMAL true false false true
                              100 50 110 105 (fun _ => false)))
      []
  = ([(nb.isEarliestRestoreDateTimeValidChoice, None)],
     Running nb.setWorkflowStateParameterToPitrGap).
Proof.
  apply (proj1 (start_time_outside_pitr_window_sets_pitr_gap
                  Sample.constants
                  (WorkflowData.mk RUN NORMAL true false false true
                                   100 50 110 105 (fun _ => false))
                  eq_refl)).
Defined.

(** C6. In the Incremental Export path, with the condition read as the spec
    words it (the end of the computed window is not after the current
    time), the export-needed choice ends the cycle as "export not needed";
    otherwise the execution goes on to the PITR-validity choice and from
    there to the export invocation, or to the PITR-gap step when the window
    starts before the earliest restorable time.  A cycle that ends as "not
    needed" has invoked no export. *)
Theorem export_not_needed_when_window_end_passed :
  forall (K : Constants) (d : WorkflowData.t) (used : list nat)
         (e1 e2 : Event),
    (if (exportToTime d <=? currentTime d)%Z
     then run (stateMachine K) [e1; e2] nb.checkIncrementalExportNeeded
              (holds d) used
          = ([(nb.checkIncrementalExportNeeded, None);
              (nb.incrementalExportNotNeeded, None)], Finished Succeeded)
     else run (stateMachine K) [e1; e2] nb.checkIncrementalExportNeeded
              (holds d) used
          = ([(nb.checkIncrementalExportNeeded, None);
              (nb.isEarliestRestoreDateTimeValidChoice, None)],
             Running (if (exportFromTime d <? earliestRestorableTime d)%Z
                      then nb.setWorkflowStateParameterToPitrGap
                      else nb.executeIncrementalExport)))
    /\ (forall v0 evs pre r post,
          fst (execution K v0 evs)
          = (pre ++ (nb.incrementalExportNotNeeded, r) :: post)%list ->
          post = [] /\ noExport (fst (execution K v0 evs))).
Proof.
  intros K d used e1 e2. split.
  - destruct d as [action st initiated reset running enabled t1 t2 t3 t4 o].
    cbn [exportToTime currentTime exportFromTime earliestRestorableTime].
    assert (V1 : holds (WorkflowData.mk action st initiated reset running
                                        enabled t1 t2 t3 t4 o)
                       cb.nextIncrementalExportEndTimeIsPastCurrentTime
                 = (t3 <=? t4)%Z) by reflexivity.
    assert (V2 : holds (WorkflowData.mk action st initiated reset running
                                        enabled t1 t2 t3 t4 o)
                       cb.earliestRestoreDateTimeIsGreaterThanExportStartTime
                 = (t2 <? t1)%Z) by reflexivity.
    revert V1 V2.
    generalize (holds (WorkflowData.mk action st initiated reset running
                                       enabled t1 t2 t3 t4 o)).
    intros v V1 V2.
    assert (R : run (stateMachine K) [e1; e2] nb.checkIncrementalExportNeeded
                    v used
                = if v cb.nextIncrementalExportEndTimeIsPastCurrentTime
                  then ([(nb.checkIncrementalExportNeeded, None);
                         (nb.incrementalExportNotNeeded, None)],
                        Finished Succeeded)
                  else ([(nb.checkIncrementalExportNeeded, None);
                         (nb.isEarliestRestoreDateTimeValidChoice, None)],
                        Running
                          (if v cb.earliestRestoreDateTimeIsGreaterThanExportStartTime
                           then nb.setWorkflowStateParameterToPitrGap
                           else nb.executeIncrementalExport))).
    { set (m := stateMachine K).
      assert (J1 : m nb.checkIncrementalExportNeeded
                   = {| Type_ := nb.ChoiceState; Next := None; Retry := [];
                        Catch := [];
                        Choices :=
                          [(cb.nextIncrementalExportEndTimeIsPastCurrentTime,
                            nb.incrementalExportNotNeeded)];
                        Default :=
                          Some nb.isEarliestRestoreDateTimeValidChoice |})
        by (vm_compute; reflexivity).
      assert (J2 : m nb.isEarliestRestoreDateTimeValidChoice
                   = {| Type_ := nb.ChoiceState; Next := None; Retry := [];
                        Catch := [];
                        Choices :=
                          [(cb.earliestRestoreDateTimeIsGreaterThanExportStartTime,
                            nb.setWorkflowStateParameterToPitrGap)];
                        Default := Some nb.executeIncrementalExport |})
        by (vm_compute; reflexivity).
      assert (J3 : m nb.incrementalExportNotNeeded
                   = {| Type_ := nb.SucceedState; Next := None; Retry := [];
                        Catch := []; Choices := []; Default := None |})
        by (vm_compute; reflexivity).
      clearbody m.
      destruct (v cb.nextIncrementalExportEndTimeIsPastCurrentTime) eqn:A;
        destruct (v cb.earliestRestoreDateTimeIsGreaterThanExportStartTime) eqn:B;
        simpl; rewrite J1; cbn; rewrite firstChoice_cons, A; cbn;
        rewrite ?J2, ?J3; cbn; rewrite ?firstChoice_cons, ?B; reflexivity. }
    rewrite R, V1, V2. destruct (t3 <=? t4)%Z; reflexivity.
  - intros v0 evs pre r post E.
    pose proof (execution_chain K v0 evs) as C. rewrite E in C.
    assert (P : post = []).
    { destruct post as [|z post]; [reflexivity|exfalso].
      apply chain_adjacent in C.
      eapply incrementalExportNotNeeded_is_last, C. }
    split; [exact P|]. subst post.
    intros x Hx. rewrite E in Hx. apply in_app_or in Hx as [Hx|[<-|[]]].
    + eapply (no_export_before K v0 evs pre _ _ E); [reflexivity|exact Hx].
    + reflexivity.
Qed.

Import Shape.


(* ================================================================== *)
(** * Further properties of the state machine *)

(** ** Shape of the machine *)

Lemma reachable_from_below machine start :
  enteredFromBelow machine start = true ->
  forall n, reachable machine start n.
Proof.
  intros B.
  assert (H : forall k n, (rank n < k)%nat -> reachable machine start n).
  { induction k as [|k IH]; intros n L; [lia|].
    unfold enteredFromBelow in B. rewrite forallb_forall in B.
    specialize (B n (all_nodes n)).
    apply orb_prop in B as [B|B].
    - apply nb.internal_node_dec_bl in B. subst n. constructor.
    - apply existsb_exists in B as (p & _ & B).
      apply andb_prop in B as [R S]. apply Nat.ltb_lt in R.
      apply (reachable_step _ _ p); [apply IH; lia|exact S]. }
  intros n. apply (H (S (rank n))). lia.
Qed.

(** X1. Whatever the constants, [deployStepFunction] returns without a throw
    (no transition is set twice, no chain is continued at a state that
    cannot continue), and the definition it returns starts at the task that
    reads the parameters.  In the machine it wires, every state is complete
    (a Task, Pass or Wait state has its next state, a Choice its rules and a
    default, a terminal state nothing) and every state is reachable from the
    start. *)
Theorem deployStepFunction_wires_a_well_formed_machine :
  forall K : Constants,
    (exists definition g,
        ExportsStack.deployStepFunction K sfn.unwired = OK (definition, g)
        /\ sfn.startState definition = nb.getParametersTask)
    /\ (forall n, complete (stateMachine K n) = true)
    /\ (forall n, reachable (stateMachine K) (startAt K) n).
Proof.
  intros K. split; [|split].
  - destruct (ExportsStack.deployStepFunction K sfn.unwired)
      as [[definition g]|msg] eqn:E.
    + exists definition, g. split; [reflexivity|].
      pose proof (startAt_getParametersTask K) as S.
      unfold startAt in S. now rewrite E in S.
    + exfalso. destruct (deployStepFunction_returns K) as (built & B).
      rewrite E in B. discriminate B.
  - intros n. destruct n; vm_compute; reflexivity.
  - rewrite startAt_getParametersTask.
    apply reachable_from_below. vm_compute. reflexivity.
Qed.

(** ** Retries *)

(** The retriers of a state, as rendered: none, the one of
    [ssmSdkRetryHandler], the one of [dynamoDbSdkRetryHandler], or at the
    incremental export the retrier for the invalid export time in front of
    the latter. *)
Lemma rendered_retriers K n :
  Retry (stateMachine K n) = []
  \/ Retry (stateMachine K n) = [ssmRetrier K]
  \/ Retry (stateMachine K n) = [dynamoDbRetrier K]
  \/ (n = nb.executeIncrementalExport
      /\ Retry (stateMachine K n)
         = [invalidExportTimeRetrier; dynamoDbRetrier K]).
Proof.
  destruct n;
    first [ left; vm_compute; reflexivity
          | right; left; vm_compute; reflexivity
          | right; right; left; vm_compute; reflexivity
          | right; right; right; split; [reflexivity|vm_compute; reflexivity] ].
Qed.

Lemma errorMatches_named a e :
  String.eqb a Builder.ALL = false -> errorMatches [a] e = true -> e = a.
Proof.
  intros NA. rewrite errorMatches_one, NA. simpl.
  intros E. apply String.eqb_eq in E. now symmetry.
Qed.

(** A retry is what the retriers make of a task's error. *)
Lemma step_retry_scan j v used ev d used' v' :
  step j v used ev = (RetryAfter d used', v') ->
  Type_ j = nb.TaskState
  /\ v' = v
  /\ exists e, failure ev = Some e
               /\ scanRetriers (Retry j) used e = Some (d, used').
Proof.
  unfold step, proceed.
  destruct (Type_ j).
  - destruct (failure ev) as [e|].
    + destruct (scanRetriers _ used e) as [[d0 u0]|] eqn:S.
      * intros [= <- <- <-]. repeat split. now exists e.
      * destruct (scanCatchers _ e); discriminate.
    + destruct (Next j); discriminate.
  - destruct (Next j); discriminate.
  - destruct (Next j); discriminate.
  - destruct (firstChoice _ v); [discriminate|].
    destruct (Default j); discriminate.
  - discriminate.
  - discriminate.
Qed.

(** X2. Only three errors are ever retried: the SDK client exceptions of
    the parameter store and of DynamoDB, and the invalid export time, the
    last one at the incremental export invocation only and at most while
    fewer than two retries were made.  Every other error of any task goes
    straight to the catchers. *)
Theorem only_named_errors_are_retried :
  forall (K : Constants) (n : nb.node) (v v' : Valuation)
         (used used' : list nat) (ev : Event) (seconds : Q),
    step (stateMachine K n) v used ev = (RetryAfter seconds used', v') ->
    exists e,
      failure ev = Some e
      /\ In e retriedErrors
      /\ nb.kind n = nb.TaskState
      /\ v' = v
      /\ (e = "DynamoDb.InvalidExportTimeException" ->
          n = nb.executeIncrementalExport /\ (hd 0 used < 2)%nat).
Proof.
  intros K n v v' used used' ev seconds S.
  assert (T : Type_ (stateMachine K n) = nb.kind n)
    by (destruct n; vm_compute; reflexivity).
  pose proof (rendered_retriers K n) as RR.
  set (j := stateMachine K n) in *. clearbody j.
  apply step_retry_scan in S as (TT & -> & e & F & R).
  exists e. split; [exact F|].
  rewrite TT in T. symmetry in T.
  assert (Named : forall a, String.eqb a Builder.ALL = false ->
                            errorMatches [a] e = true -> e = a)
    by (intros a; apply errorMatches_named).
  destruct RR as [E|[E|[E|[-> E]]]];
    rewrite E in R; cbn [scanRetriers] in R.
  - discriminate R.
  - cbn [sfn.errors ssmRetrier] in R.
    destruct (errorMatches ["Ssm.SdkClientException"] e) eqn:M;
      [|discriminate R].
    apply Named in M; [|reflexivity]. subst e.
    split; [simpl; auto|]. repeat split; trivial; discriminate.
  - cbn [sfn.errors dynamoDbRetrier] in R.
    destruct (errorMatches ["DynamoDb.SdkClientException"] e) eqn:M;
      [|discriminate R].
    apply Named in M; [|reflexivity]. subst e.
    split; [simpl; auto|]. repeat split; trivial; discriminate.
  - cbn [sfn.errors dynamoDbRetrier invalidExportTimeRetrier sfn.maxAttempts]
      in R.
    destruct (errorMatches ["DynamoDb.InvalidExportTimeException"] e) eqn:M.
    + apply Named in M; [|reflexivity]. subst e.
      split; [simpl; auto|]. repeat split; trivial.
      destruct (hd 0 used <? 2)%nat eqn:L; [|discriminate R].
      now apply Nat.ltb_lt.
    + destruct (errorMatches ["DynamoDb.SdkClientException"] e) eqn:M2;
        [|discriminate R].
      apply Named in M2; [|reflexivity]. subst e.
      split; [simpl; auto|]. repeat split; trivial; discriminate.
Qed.

(** The first retry of the incremental export invocation after an invalid
    export time. *)
Lemma only_named_errors_are_retried_witness :
  exists e,
    failure (fails "DynamoDb.InvalidExportTimeException"
                   Scenarios.startTimeOutsidePitrWindow) = Some e
    /\ In e retriedErrors.
Proof.
  destruct (only_named_errors_are_retried
              Sample.constants nb.executeIncrementalExport
              Scenarios.startTimeOutsidePitrWindow
              Scenarios.startTimeOutsidePitrWindow [] [1]
              (fails "DynamoDb.InvalidExportTimeException"
                     Scenarios.startTimeOutsidePitrWindow)
              (delaySeconds invalidExportTimeRetrier 0))
    as (e & F & I & _).
  - vm_compute. reflexivity.
  - exists e. split; [exact F|exact I].
Defined.

Lemma scanRetriers_spends rs e : forall used seconds used',
  scanRetriers rs used e = Some (seconds, used') ->
  (attemptsLeft rs used' + 1 = attemptsLeft rs used)%nat.
Proof.
  induction rs as [|r rs IH]; intros used seconds used'; simpl;
    [discriminate|].
  destruct (errorMatches (sfn.errors r) e).
  - destruct (hd 0 used <? sfn.maxAttempts r)%nat eqn:L; [|discriminate].
    intros [= _ <-]. simpl. apply Nat.ltb_lt in L. lia.
  - destruct (scanRetriers rs (tl used) e) as [[d u]|] eqn:R; [|discriminate].
    intros [= _ <-]. simpl. specialize (IH _ _ _ R). lia.
Qed.

Lemma attemptsLeft_total rs : forall used,
  (attemptsLeft rs used <= totalAttempts rs)%nat.
Proof.
  induction rs as [|r rs IH]; intros used; simpl; [lia|].
  specialize (IH (tl used)). lia.
Qed.

Lemma leading_other n h x t :
  h = x :: t -> fst x <> n -> leading n h = 0.
Proof.
  intros -> N. simpl. destruct (nb.node_beq (fst x) n) eqn:E; [|reflexivity].
  apply nb.internal_node_dec_bl in E. congruence.
Qed.

Section BoundedRetries.
Variable machine : nb.node -> StateJson.
Hypothesis no_self_transition :
  forall n, nodeIn n (successors machine n) = false.

Lemma step_goto_elsewhere n v used ev n' v' :
  step (machine n) v used ev = (Goto n', v') -> n' <> n.
Proof.
  intros S. apply step_goto in S. intros ->.
  pose proof (no_self_transition n) as NS.
  assert (In n (successors machine n)) as I.
  { unfold successors. apply in_or_app.
    destruct (snd (visit (machine n) n ev)).
    - right. apply nodeIn_In, S.
    - left. apply nodeIn_In, S. }
  apply nodeIn_In in I. congruence.
Qed.

(** A run begins with at most one visit more than its state has retries
    left. *)
Lemma run_leading evs : forall n v used,
  (leading n (fst (run machine evs n v used))
   <= 1 + attemptsLeft (Retry (machine n)) used)%nat.
Proof.
  induction evs as [|ev evs IH]; intros n v used; simpl; [lia|].
  destruct (step (machine n) v used ev) as [[n'|d used'|s] v'] eqn:S.
  - pose proof (run_head machine evs n' v' []) as Hd.
    destruct (run machine evs n' v' []) as [h o]. simpl in *.
    rewrite visit_node, (nb.internal_node_dec_lb n n eq_refl).
    destruct h as [|y t]; [simpl; lia|].
    rewrite (leading_other n (y :: t) y t eq_refl); [lia|].
    rewrite (Hd y t eq_refl). eapply step_goto_elsewhere, S.
  - specialize (IH n v' used').
    destruct (run machine evs n v' used') as [h o]. simpl in *.
    rewrite visit_node, (nb.internal_node_dec_lb n n eq_refl).
    assert (Sp : (attemptsLeft (Retry (machine n)) used' + 1
                  = attemptsLeft (Retry (machine n)) used)%nat).
    { apply step_retry_scan in S as (_ & _ & e & _ & R).
      eapply scanRetriers_spends, R. }
    lia.
  - simpl. rewrite visit_node, (nb.internal_node_dec_lb n n eq_refl).
    simpl. lia.
Qed.

(** What is left of a history from any of its visits on is the history of a
    run that starts at that visit's state. *)
Lemma run_suffix evs : forall n v used pre x rest,
  fst (run machine evs n v used) = (pre ++ x :: rest)%list ->
  exists evs' v' used',
    fst (run machine evs' (fst x) v' used') = x :: rest.
Proof.
  induction evs as [|ev evs IH]; intros n v used pre x rest E.
  - simpl in E. destruct pre; discriminate E.
  - destruct pre as [|p pre].
    + exists (ev :: evs), v, used.
      simpl app in E. rewrite (run_head machine _ _ _ _ _ _ E). exact E.
    + simpl in E.
      destruct (step (machine n) v used ev) as [[n'|d used'|s] v'].
      * destruct (run machine evs n' v' []) as [h o] eqn:R. simpl in E.
        injection E as _ E. apply (IH n' v' [] pre x rest).
        now rewrite R.
      * destruct (run machine evs n v' used') as [h o] eqn:R. simpl in E.
        injection E as _ E. apply (IH n v' used' pre x rest).
        now rewrite R.
      * simpl in E. injection E as _ E. destruct pre; discriminate E.
Qed.

Lemma leading_block n block : forall post,
  (forall x, In x block -> fst x = n) ->
  (List.length block <= leading n (block ++ post))%nat.
Proof.
  induction block as [|x block IH]; intros post A; simpl; [lia|].
  rewrite (A x (or_introl eq_refl)), (nb.internal_node_dec_lb n n eq_refl).
  specialize (IH post (fun y H => A y (or_intror H))). lia.
Qed.

Lemma run_block evs n0 v used pre block post n :
  fst (run machine evs n0 v used) = (pre ++ block ++ post)%list ->
  (forall x, In x block -> fst x = n) ->
  (List.length block <= 1 + totalAttempts (Retry (machine n)))%nat.
Proof.
  intros E A. destruct block as [|x block]; [simpl; lia|].
  simpl app in E.
  destruct (run_suffix _ _ _ _ _ _ _ E) as (evs' & v' & used' & R).
  pose proof (run_leading evs' (fst x) v' used') as L.
  rewrite R in L. rewrite (A x (or_introl eq_refl)) in L.
  pose proof (leading_block n (x :: block) post A) as B.
  pose proof (attemptsLeft_total (Retry (machine n)) used').
  eapply Nat.le_trans; [exact B|].
  eapply Nat.le_trans; [exact L|]. lia.
Qed.

End BoundedRetries.

Lemma stateMachine_no_self_transition K n :
  nodeIn n (successors (stateMachine K) n) = false.
Proof. destruct n; vm_compute; reflexivity. Qed.

(** X3. Retries are bounded: in every execution, a stretch of successive
    visits at one state is at most one longer than the retries its retriers
    allow, which is at most the constant of the SDK retry handlers plus the
    two retries for the invalid export time. *)
Theorem successive_attempts_are_bounded :
  forall (K : Constants) (v0 : Valuation) (evs : list Event)
         (pre block post : list Visit) (n : nb.node),
    fst (execution K v0 evs) = (pre ++ block ++ post)%list ->
    (forall x, In x block -> fst x = n) ->
    (List.length block <= 1 + totalAttempts (Retry (stateMachine K n)))%nat
    /\ (totalAttempts (Retry (stateMachine K n))
        <= SDK_EXCEPTION_RETRY_ATTEMPTS K + 2)%nat.
Proof.
  intros K v0 evs pre block post n E A. split.
  - eapply run_block; [apply stateMachine_no_self_transition|exact E|exact A].
  - destruct (rendered_retriers K n) as [R|[R|[R|[_ R]]]]; rewrite R;
      simpl; lia.
Qed.

(** The parameters are read three times in a row when the parameter store's
    client fails twice. *)
Lemma successive_attempts_are_bounded_witness :
  (3 <= 1 + totalAttempts
            (Retry (stateMachine Sample.constants nb.getParametersTask)))%nat
  /\ (totalAttempts
        (Retry (stateMachine Sample.constants nb.getParametersTask))
      <= SDK_EXCEPTION_RETRY_ATTEMPTS Sample.constants + 2)%nat.
Proof.
  apply (successive_attempts_are_bounded
           Sample.constants Scenarios.notInitiated
           [ fails "Ssm.SdkClientException" Scenarios.notInitiated;
             fails "Ssm.SdkClientException" Scenarios.notInitiated;
             fails "Ssm.SdkClientException" Scenarios.notInitiated ]
           []
           [ (nb.getParametersTask, Some "Ssm.SdkClientException");
             (nb.getParametersTask, Some "Ssm.SdkClientException");
             (nb.getParametersTask, Some "Ssm.SdkClientException") ]
           []
           nb.getParametersTask).
  - vm_compute. reflexivity.
  - intros x [<-|[<-|[<-|[]]]]; reflexivity.
Defined.

(** ** Loops *)

Section ForwardChains.
Variable machine : nb.node -> StateJson.
Hypothesis forward : forwardOnly machine = true.

Lemma successor_forward n m :
  isWait n = false -> In m (successors machine n) ->
  (rank n < rank m)%nat.
Proof.
  intros W I. unfold forwardOnly in forward.
  rewrite forallb_forall in forward.
  specialize (forward n (all_nodes n)). rewrite W in forward.
  simpl in forward. rewrite forallb_forall in forward.
  apply Nat.ltb_lt, forward, I.
Qed.

(** From a state that is not a Wait state, the next visit is a retry of the
    failed attempt or at a state further on in the order. *)
Lemma edge_forward x y :
  edge machine x y -> isWait (fst x) = false ->
  (fst y = fst x /\ snd x <> None) \/ (rank (fst x) < rank (fst y))%nat.
Proof.
  intros E W. unfold edge in E. destruct (snd x) as [e|].
  - destruct E as [_ [[E _]|E]].
    + left. split; [exact E|discriminate].
    + right. apply successor_forward; [exact W|].
      unfold successors. apply in_or_app. right. apply nodeIn_In, E.
  - right. apply successor_forward; [exact W|].
    unfold successors. apply in_or_app. left. apply nodeIn_In, E.
Qed.

Lemma chain_forward mid : forall x y,
  chain machine (x :: mid ++ [y]) ->
  (forall z, In z (x :: mid) -> isWait (fst z) = false) ->
  (forall z, In z (x :: mid) -> fst z = fst y /\ snd z <> None)
  \/ (rank (fst x) < rank (fst y))%nat.
Proof.
  induction mid as [|m mid IH]; intros x y C W.
  - destruct C as [E _].
    apply edge_forward in E as [[E N]|E]; [|now right|apply W; now left].
    left. intros z [<-|[]]. now split.
  - destruct C as [E C].
    specialize (IH m y C (fun z H => W z (or_intror H))).
    apply edge_forward in E as [[E N]|E]; [| |apply W; now left].
    + destruct IH as [IH|IH].
      * left. intros z [<-|H]; [|now apply IH].
        split; [|exact N]. rewrite <- E. apply IH. now left.
      * right. now rewrite <- E.
    + right. destruct IH as [IH|IH]; [|lia].
      destruct (IH m (or_introl eq_refl)) as [<- _]. exact E.
Qed.

End ForwardChains.

Lemma stateMachine_forwardOnly K : forwardOnly (stateMachine K) = true.
Proof. vm_compute. reflexivity. Qed.

(** X4. The only loops of the state machine are the retries of a task and
    the two polling loops: when an execution is at a state again, then
    either everything in between was a failed attempt at that very task, or
    it has passed a Wait state in between. *)
Theorem executions_loop_through_wait_states_only :
  forall (K : Constants) (v0 : Valuation) (evs : list Event)
         (pre mid post : list Visit) (x y : Visit),
    fst (execution K v0 evs) = (pre ++ x :: mid ++ y :: post)%list ->
    fst x = fst y ->
    (forall z, In z (x :: mid) -> fst z = fst y /\ snd z <> None)
    \/ (exists z, In z (x :: mid)
                  /\ (fst z = nb.waitForFullExport
                      \/ fst z = nb.waitForIncrementalExport)).
Proof.
  intros K v0 evs pre mid post x y E S.
  pose proof (execution_chain K v0 evs) as C. rewrite E in C.
  apply chain_suffix in C.
  assert (C' : chain (stateMachine K) ((x :: mid ++ [y]) ++ post))
    by (simpl; rewrite <- app_assoc; exact C).
  clear C. revert C'. generalize (stateMachine_forwardOnly K).
  generalize (stateMachine K). intros machine F C.
  destruct (existsb (fun z => isWait (fst z)) (x :: mid)) eqn:W.
  - right. apply existsb_exists in W as (z & I & W).
    exists z. split; [exact I|].
    destruct (fst z); try discriminate W;
      first [left; reflexivity|right; reflexivity].
  - left.
    assert (C1 : chain machine (x :: mid ++ [y])).
    { clear - C. revert C. generalize (x :: mid ++ [y]). intros h.
      induction h as [|a h IH]; [intros _; exact I|].
      destruct h as [|b h]; [intros _; exact I|].
      intros [E C]. split; [exact E|]. apply IH, C. }
    destruct (chain_forward machine F mid x y C1) as [A|A].
    + intros z I.
      destruct (isWait (fst z)) eqn:Wz; [|reflexivity].
      assert (existsb (fun z => isWait (fst z)) (x :: mid) = true)
        by (apply existsb_exists; now exists z).
      congruence.
    + exact A.
    + rewrite S in A. lia.
Qed.

(** The second look at the full export, after the wait. *)
Lemma executions_loop_through_wait_states_only_witness :
  exists z,
    In z ([ (nb.describeFullExport, None);
            (nb.fullExportCompletedState, None);
            (nb.waitForFullExport, None) ] : list Visit)
    /\ (fst z = nb.waitForFullExport \/ fst z = nb.waitForIncrementalExport).
Proof.
  destruct (executions_loop_through_wait_states_only
              Sample.constants Scenarios.notInitiated
              (repeat (succeeds Scenarios.notInitiated) 17)
              (firstn 13 (fst (execution Sample.constants
                                 Scenarios.notInitiated
                                 (repeat (succeeds Scenarios.notInitiated) 17))))
              [ (nb.fullExportCompletedState, None);
                (nb.waitForFullExport, None) ]
              []
              (nb.describeFullExport, None) (nb.describeFullExport, None))
    as [A|A].
  - vm_compute. reflexivity.
  - reflexivity.
  - exfalso. destruct (A _ (or_introl eq_refl)) as [_ N]. now apply N.
  - exact A.
Defined.

(** ** How executions end *)

(** An execution that is over has stopped at its last visit. *)
Lemma run_finished machine evs : forall n v used s,
  snd (run machine evs n v used) = Finished s ->
  exists pre m v' used' ev,
    fst (run machine evs n v used)
    = (pre ++ [visit (machine m) m ev])%list
    /\ fst (step (machine m) v' used' ev) = Stop s.
Proof.
  induction evs as [|ev evs IH]; intros n v used s; simpl; [discriminate|].
  destruct (step (machine n) v used ev) as [[n'|d used'|s'] v'] eqn:S.
  - specialize (IH n' v' [] s).
    destruct (run machine evs n' v' []) as [h o]. simpl in *.
    intros O. destruct (IH O) as (pre & m & v1 & u1 & ev1 & -> & St).
    exists (visit (machine n) n ev :: pre), m, v1, u1, ev1. now split.
  - specialize (IH n v' used' s).
    destruct (run machine evs n v' used') as [h o]. simpl in *.
    intros O. destruct (IH O) as (pre & m & v1 & u1 & ev1 & -> & St).
    exists (visit (machine n) n ev :: pre), m, v1, u1, ev1. now split.
  - simpl. intros [= <-]. exists [], n, v, used, ev.
    split; [reflexivity|]. now rewrite S.
Qed.

(** Where a complete state stops an execution. *)
Lemma step_stop j v used ev s :
  complete j = true ->
  fst (step j v used ev) = Stop s ->
  match s with
  | Succeeded => Type_ j = nb.SucceedState
  | Failed => Type_ j = nb.FailState
  | Aborted e => Type_ j = nb.TaskState
                 /\ failure ev = Some e
                 /\ scanCatchers (Catch j) e = None
  end.
Proof.
  unfold complete, step, proceed.
  destruct (Type_ j).
  - destruct (Next j); [|discriminate]. intros _.
    destruct (failure ev) as [e|]; [|simpl; discriminate].
    destruct (scanRetriers (Retry j) used e) as [[d u]|];
      [simpl; discriminate|].
    destruct (scanCatchers (Catch j) e) eqn:C; [simpl; discriminate|].
    simpl. intros [= <-]. now repeat split.
  - destruct (Next j); [|discriminate]. simpl. discriminate.
  - destruct (Next j); [|discriminate]. simpl. discriminate.
  - destruct (firstChoice (Choices j) v); [simpl; discriminate|].
    destruct (Choices j); [discriminate|].
    destruct (Default j); [simpl; discriminate|discriminate].
  - intros _. simpl. intros [= <-]. reflexivity.
  - intros _. simpl. intros [= <-]. reflexivity.
Qed.

(** Two tasks have no catcher, the publications that report a failure; every
    other task has the catch-all of [taskFailedNode] as its last one. *)
Lemma uncaught_tasks K n :
  Type_ (stateMachine K n) = nb.TaskState ->
  n = nb.notifyOnTaskFailed
  \/ n = nb.notifyOnIncrementalExportStartTimeOutsidePitrWindow
  \/ Catch (stateMachine K n)
     = (removelast (Catch (stateMachine K n)) ++ [catchAll])%list.
Proof.
  destruct n;
    first [ left; reflexivity
          | right; left; reflexivity
          | intros _; right; right; vm_compute; reflexivity
          | intros T; exfalso; vm_compute in T; discriminate T ].
Qed.

Lemma stateMachine_complete K n : complete (stateMachine K n) = true.
Proof. destruct n; vm_compute; reflexivity. Qed.

Lemma stateMachine_kind K n : Type_ (stateMachine K n) = nb.kind n.
Proof. destruct n; vm_compute; reflexivity. Qed.

(** X5. The ways an execution ends.  It succeeds at a Succeed state and
    fails at a Fail state, and at nothing else: no state ends an execution by
    lacking a transition, and no choice is left without a match.  An error
    ends the execution by itself only at the two publications that have no
    catcher, the report of a failed task and the report of a start time
    outside the recovery window. *)
Theorem executions_end_at_terminal_states :
  forall (K : Constants) (v0 : Valuation) (evs : list Event) (s : Status),
    snd (execution K v0 evs) = Finished s ->
    exists pre x,
      fst (execution K v0 evs) = (pre ++ [x])%list
      /\ match s with
         | Succeeded => nb.kind (fst x) = nb.SucceedState
         | Failed => nb.kind (fst x) = nb.FailState
         | Aborted e =>
             snd x = Some e
             /\ (fst x = nb.notifyOnTaskFailed
                 \/ fst x
                    = nb.notifyOnIncrementalExportStartTimeOutsidePitrWindow)
         end.
Proof.
  intros K v0 evs s O. unfold execution in *.
  destruct (run_finished _ _ _ _ _ _ O) as (pre & m & v & used & ev & E & St).
  exists pre, (visit (stateMachine K m) m ev). split; [exact E|].
  rewrite visit_node.
  apply step_stop in St; [|apply stateMachine_complete].
  pose proof (stateMachine_kind K m) as Kd.
  pose proof (uncaught_tasks K m) as U.
  unfold visit. revert St Kd U. generalize (stateMachine K m). intros j St Kd U.
  destruct s as [| |e].
  - now rewrite <- Kd.
  - now rewrite <- Kd.
  - destruct St as (T & F & C). rewrite T. split; [exact F|].
    destruct (U T) as [->|[->|L]]; [now left|now right|].
    exfalso. rewrite L in C. revert C. apply scanCatchers_catchAll.
Qed.

(** The report of a failed task cannot be published. *)
Lemma executions_end_at_terminal_states_witness :
  exists pre x,
    fst (execution Sample.constants Scenarios.notInitiated
           [ fails "Ssm.AccessDeniedException" Scenarios.notInitiated;
             fails "Sns.AuthorizationErrorException" Scenarios.notInitiated ])
    = (pre ++ [x])%list
    /\ snd x = Some "Sns.AuthorizationErrorException"
    /\ (fst x = nb.notifyOnTaskFailed
        \/ fst x = nb.notifyOnIncrementalExportStartTimeOutsidePitrWindow).
Proof.
  apply (executions_end_at_terminal_states
           Sample.constants Scenarios.notInitiated
           [ fails "Ssm.AccessDeniedException" Scenarios.notInitiated;
             fails "Sns.AuthorizationErrorException" Scenarios.notInitiated ]
           (Aborted "Sns.AuthorizationErrorException")).
  vm_compute. reflexivity.
Defined.

(** ** The states in front of the exports *)

(** In front of the export invocations an execution does not come back to a
    state: visits at one state are successive failed attempts. *)
Lemma front_stretch K v0 evs p1 z p2 y post :
  fst (execution K v0 evs) = (p1 ++ z :: p2 ++ y :: post)%list ->
  fst z = fst y ->
  nodeIn (fst y) fromExportOn = false ->
  forall w, In w (z :: p2) -> fst w = fst y /\ snd w <> None.
Proof.
  intros E S Out.
  pose proof (execution_chain K v0 evs) as C. rewrite E in C.
  apply chain_suffix in C.
  assert (NW : forall w, In w (z :: p2) -> isWait (fst w) = false).
  { intros w I. destruct (isWait (fst w)) eqn:W; [exfalso|reflexivity].
    apply in_split in I as (q1 & q2 & Q).
    assert (C2 : chain (stateMachine K) (w :: q2 ++ y :: post)).
    { apply (chain_suffix _ q1).
      replace (q1 ++ w :: q2 ++ y :: post)%list
        with ((q1 ++ w :: q2) ++ y :: post)%list
        by (now rewrite <- app_assoc).
      rewrite <- Q. exact C. }
    pose proof (chain_stays (stateMachine K) fromExportOn
                            (fromExportOn_closed K) _ w C2) as St.
    rewrite St in Out; [discriminate| |apply in_elt].
    destruct (fst w); try discriminate W; reflexivity. }
  assert (C1 : chain (stateMachine K) (z :: p2 ++ [y])).
  { revert C. clear. revert z.
    induction p2 as [|a p2 IH]; intros z; simpl.
    - intros [Ed _]. now split.
    - intros [Ed C]. split; [exact Ed|]. apply IH, C. }
  destruct (chain_forward (stateMachine K) (stateMachine_forwardOnly K)
                          p2 z y C1 NW) as [A|A]; [exact A|].
  rewrite S in A. lia.
Qed.

(** The transitions into the time manipulator. *)
Lemma timeManipulator_entered K x y :
  edge (stateMachine K) x y ->
  fst y = nb.getNextIncrementalExportTimeLambdaInvoke ->
  snd x = None
  /\ (fst x = nb.useLastIncrementalExportTimeParameterValue
      \/ fst x = nb.useFullExportTimeParameterValue).
Proof.
  intros Ed Y. unfold edge in Ed. rewrite Y in Ed.
  destruct x as [n r]. cbn [fst snd] in *. destruct r as [e|].
  - exfalso. destruct Ed as [_ [[<- R]|Er]].
    + vm_compute in R. discriminate R.
    + destruct n; vm_compute in Er; discriminate Er.
  - split; [reflexivity|].
    destruct n; vm_compute in Ed; try discriminate Ed;
      first [left; reflexivity|right; reflexivity].
Qed.

(** X6. The time manipulator is invoked at most once per cycle, and with
    one watermark: the visit before its invocation is the Pass state that
    takes the value of LastIncrementalExportTime or the one that takes the
    value of FullExportTime, and no other visit of the execution is at the
    invocation. *)
Theorem time_manipulator_invoked_once_with_one_watermark :
  forall (K : Constants) (v0 : Valuation) (evs : list Event)
         (pre post : list Visit) (y : Visit),
    fst (execution K v0 evs) = (pre ++ y :: post)%list ->
    fst y = nb.getNextIncrementalExportTimeLambdaInvoke ->
    (exists pre' x,
        pre = (pre' ++ [x])%list
        /\ snd x = None
        /\ (fst x = nb.useLastIncrementalExportTimeParameterValue
            \/ fst x = nb.useFullExportTimeParameterValue))
    /\ (forall z, In z pre \/ In z post ->
                  fst z <> nb.getNextIncrementalExportTimeLambdaInvoke).
Proof.
  intros K v0 evs pre post y E Y.
  pose proof (execution_chain K v0 evs) as C. rewrite E in C.
  assert (Out : nodeIn (fst y) fromExportOn = false)
    by (rewrite Y; reflexivity).
  assert (P : exists pre' x,
             pre = (pre' ++ [x])%list
             /\ snd x = None
             /\ (fst x = nb.useLastIncrementalExportTimeParameterValue
                 \/ fst x = nb.useFullExportTimeParameterValue)).
  { destruct (exists_last (l := pre)) as (pre' & x & ->).
    - intros ->. apply execution_head in E. rewrite Y in E. discriminate E.
    - exists pre', x. split; [reflexivity|].
      rewrite <- app_assoc in C. apply chain_adjacent in C.
      now apply timeManipulator_entered in C. }
  split; [exact P|].
  destruct P as (pre' & x & -> & N & X).
  intros z [I|I] Z.
  - apply in_app_or in I as [I|[<-|[]]].
    + apply in_split in I as (p1 & p2 & ->).
      assert (E' : fst (execution K v0 evs)
                   = (p1 ++ z :: (p2 ++ [x]) ++ y :: post)%list)
        by (rewrite E; now rewrite <- !app_assoc).
      destruct (front_stretch K v0 evs p1 z (p2 ++ [x]) y post E'
                              (eq_trans Z (eq_sym Y)) Out x) as [_ F].
      * right. apply in_elt.
      * now apply F.
    + rewrite Z in X. destruct X; discriminate.
  - apply in_split in I as (q1 & q2 & ->).
    assert (Out' : nodeIn (fst z) fromExportOn = false)
      by (rewrite Z; reflexivity).
    pose proof (front_stretch K v0 evs (pre' ++ [x]) y q1 z q2 E
                              (eq_trans Y (eq_sym Z)) Out') as F.
    assert (Nx : exists y', edge (stateMachine K) y y'
                            /\ fst y' = fst z).
    { destruct q1 as [|a q1].
      - exists z. split; [|reflexivity]. now apply chain_adjacent in C.
      - exists a. split; [now apply chain_adjacent in C|].
        apply F. right. now left. }
    destruct Nx as (y' & Ed & Y').
    apply timeManipulator_entered in Ed as [_ Ed]; [|now rewrite Y'].
    rewrite Y in Ed. destruct Ed; discriminate.
Qed.

(** The incremental path of an initiated workflow, up to the invocation. *)
Lemma time_manipulator_invoked_once_with_one_watermark_witness :
  exists pre' x,
    firstn 9 (fst (execution Sample.constants
                     Scenarios.startTimeOutsidePitrWindow
                     (repeat (succeeds Scenarios.startTimeOutsidePitrWindow)
                             10)))
    = (pre' ++ [x])%list
    /\ snd x = None
    /\ (fst x = nb.useLastIncrementalExportTimeParameterValue
        \/ fst x = nb.useFullExportTimeParameterValue).
Proof.
  apply (time_manipulator_invoked_once_with_one_watermark
           Sample.constants Scenarios.startTimeOutsidePitrWindow
           (repeat (succeeds Scenarios.startTimeOutsidePitrWindow) 10)
           _ [] (nb.getNextIncrementalExportTimeLambdaInvoke, None)).
  - vm_compute. reflexivity.
  - reflexivity.
Defined.

(** ** The PITR gap *)

Lemma behindLastIncrementalExportTime_closed K :
  closed (stateMachine K) behindLastIncrementalExportTime = true.
Proof. vm_compute. reflexivity. Qed.

(** A visit at a state of a closed set is followed by visits in the set
    only. *)
Lemma execution_stays K ns v0 evs pre y post :
  closed (stateMachine K) ns = true ->
  fst (execution K v0 evs) = (pre ++ y :: post)%list ->
  nodeIn (fst y) ns = true ->
  forall z, In z post -> nodeIn (fst z) ns = true.
Proof.
  intros Cl E Y.
  pose proof (execution_chain K v0 evs) as C. rewrite E in C.
  apply chain_suffix in C.
  exact (chain_stays (stateMachine K) ns Cl post y C Y).
Qed.

(** X7. A cycle that sets WorkflowState to PITR_GAP writes no watermark and
    does not set WorkflowState to NORMAL: no visit of the execution, before
    or after, is at the write of FullExportTime, at the write of
    LastIncrementalExportTime or at the write of the NORMAL state. *)
Theorem pitr_gap_cycle_writes_no_watermark :
  forall (K : Constants) (v0 : Valuation) (evs : list Event)
         (pre post : list Visit) (y : Visit),
    fst (execution K v0 evs) = (pre ++ y :: post)%list ->
    fst y = nb.setWorkflowStateParameterToPitrGap ->
    forall z, In z pre \/ In z post ->
              fst z <> nb.setFullExportTimeParameter
              /\ fst z <> nb.setLastIncrementalExportTimeParameter
              /\ fst z <> nb.setWorkflowStateParameterToNormal.
Proof.
  intros K v0 evs pre post y E Y z [I|I].
  - apply in_split in I as (p1 & p2 & ->).
    rewrite <- app_assoc in E. simpl app in E.
    assert (Iy : In y (p2 ++ y :: post)) by apply in_elt.
    assert (A : forall ns,
               closed (stateMachine K) ns = true ->
               nodeIn nb.setWorkflowStateParameterToPitrGap ns = false ->
               nodeIn (fst z) ns = false).
    { intros ns Cl Out. destruct (nodeIn (fst z) ns) eqn:Z; [|reflexivity].
      pose proof (execution_stays K ns v0 evs p1 z _ Cl E Z y Iy) as St.
      rewrite Y in St. congruence. }
    pose proof (A _ (fullExportPath_closed K) eq_refl) as A1.
    pose proof (A _ (behindLastIncrementalExportTime_closed K) eq_refl) as A2.
    repeat split; intros Z; rewrite Z in *; discriminate.
  - assert (Yin : nodeIn (fst y) pitrGapRoute = true)
      by (rewrite Y; reflexivity).
    pose proof (execution_stays K _ v0 evs pre y post
                                (pitrGapRoute_closed K) E Yin z I) as St.
    repeat split; intros Z; rewrite Z in St; discriminate St.
Qed.

(** The start time outside the recovery window: the state is set to
    PITR_GAP and nothing else is written. *)
Lemma pitr_gap_cycle_writes_no_watermark_witness :
  fst (nb.getNextIncrementalExportTimeLambdaInvoke, @None string)
  <> nb.setFullExportTimeParameter
  /\ fst (nb.getNextIncrementalExportTimeLambdaInvoke, @None string)
     <> nb.setLastIncrementalExportTimeParameter
  /\ fst (nb.getNextIncrementalExportTimeLambdaInvoke, @None string)
     <> nb.setWorkflowStateParameterToNormal.
Proof.
  apply (pitr_gap_cycle_writes_no_watermark
           Sample.constants Scenarios.startTimeOutsidePitrWindow
           (repeat (succeeds Scenarios.startTimeOutsidePitrWindow) 13)
           (firstn 12 (fst (execution
                              Sample.constants
                              Scenarios.startTimeOutsidePitrWindow
                              (repeat
                                 (succeeds
                                    Scenarios.startTimeOutsidePitrWindow)
                                 13))))
           [] (nb.setWorkflowStateParameterToPitrGap, None)).
  - vm_compute. reflexivity.
  - reflexivity.
  - left. vm_compute. tauto.
Defined.

(** ** What tells the nested stacks apart *)

Lemma contains_app_sep c p s : contains c (p ++ String c s) = true.
Proof.
  induction p as [|d p IH]; simpl.
  - now rewrite Ascii.eqb_refl.
  - rewrite IH. apply orb_true_r.
Qed.

Lemma append_inj_l (p a b : string) : p ++ a = p ++ b -> a = b.
Proof.
  induction p as [|c p IH]; simpl; [trivial|].
  intros [= E]. now apply IH.
Qed.

Lemma length_append (a b : string) :
  String.length (a ++ b) = (String.length a + String.length b)%nat.
Proof. induction a as [|c a IH]; simpl; [reflexivity|now rewrite IH]. Qed.

Lemma append_inj_r (s : string) : forall a b, a ++ s = b ++ s -> a = b.
Proof.
  induction a as [|c a IH]; intros [|d b] E.
  - reflexivity.
  - apply (f_equal String.length) in E.
    rewrite (length_append (String d b) s) in E. simpl in E. lia.
  - apply (f_equal String.length) in E.
    rewrite (length_append (String c a) s) in E. simpl in E. lia.
  - simpl in E. injection E as -> E. f_equal. now apply IH.
Qed.

Lemma last_segment_inj c : forall p q a b,
  contains c a = false -> contains c b = false ->
  p ++ String c a = q ++ String c b -> a = b.
Proof.
  induction p as [|d p IH]; intros q a b Ha Hb E; destruct q as [|e q];
    simpl in E.
  - now injection E.
  - injection E as _ E. rewrite E, contains_app_sep in Ha. discriminate Ha.
  - injection E as _ E. rewrite <- E, contains_app_sep in Hb. discriminate Hb.
  - injection E as _ E. eapply IH; eassumption.
Qed.

(** A name has one last segment. *)
Lemma lastSegmentOf_unique name a b :
  BinSpec.lastSegmentOf name a -> BinSpec.lastSegmentOf name b -> a = b.
Proof.
  intros [Ha [->|[p ->]]] [Hb [E|[q E]]].
  - now symmetry.
  - rewrite E, contains_app_sep in Ha. discriminate Ha.
  - rewrite <- E, contains_app_sep in Hb. discriminate Hb.
  - eapply last_segment_inj; eassumption.
Qed.

(** X8. What tells two nested stacks apart.  The construct id and the bucket
    prefix of a stack determine its table name, so they differ for different
    tables.  The deployment alias does not: two tables get the same alias
    exactly when their short names (the last hyphen-separated segment of a
    name longer than 10 characters, else the whole name) are equal up to
    case, and then [deployStepFunction] gives their state machines the same
    name. *)
Theorem nested_stacks_share_alias_iff_short_names_agree :
  forall (shared : Configuration) (n1 n2 short1 short2 : string),
    (if (10 <? String.length n1)%nat
     then BinSpec.lastSegmentOf n1 short1 else short1 = n1) ->
    (if (10 <? String.length n2)%nat
     then BinSpec.lastSegmentOf n2 short2 else short2 = n2) ->
    exists s1 s2,
      Bin.createStack shared n1 = OK s1
      /\ Bin.createStack shared n2 = OK s2
      /\ (Bin.id s1 = Bin.id s2 <-> n1 = n2)
      /\ (dataExportBucketPrefix (Bin.configuration s1)
          = dataExportBucketPrefix (Bin.configuration s2) <-> n1 = n2)
      /\ (deploymentAlias (Bin.configuration s1)
          = deploymentAlias (Bin.configuration s2)
          <-> JsString.toLowerCase short1 = JsString.toLowerCase short2)
      /\ (ExportsStackResources.stateMachineName (Bin.configuration s1)
          = ExportsStackResources.stateMachineName (Bin.configuration s2)
          <-> JsString.toLowerCase short1 = JsString.toLowerCase short2).
Proof.
  intros shared n1 n2 short1 short2 H1 H2.
  destruct (createStack_expected shared n1)
    as (s1 & E1 & I1 & _ & P1 & (t1 & T1 & A1)).
  destruct (createStack_expected shared n2)
    as (s2 & E2 & I2 & _ & P2 & (t2 & T2 & A2)).
  exists s1, s2. split; [exact E1|]. split; [exact E2|].
  assert (t1 = short1) as ->.
  { destruct (10 <? String.length n1)%nat;
      [eapply lastSegmentOf_unique; eassumption|congruence]. }
  assert (t2 = short2) as ->.
  { destruct (10 <? String.length n2)%nat;
      [eapply lastSegmentOf_unique; eassumption|congruence]. }
  unfold ExportsStackResources.stateMachineName.
  rewrite I1, I2, P1, P2, A1, A2. split; [tauto|].
  split; [|split]; split.
  - intros E. apply append_inj_l in E. now apply (append_inj_l "/") in E.
  - now intros ->.
  - intros E. apply append_inj_l in E. now apply (append_inj_l "-") in E.
  - now intros ->.
  - intros E. apply append_inj_r, append_inj_l in E.
    now apply (append_inj_l "-") in E.
  - now intros ->.
Qed.

(** Two tables of different services whose names end alike. *)
Lemma nested_stacks_share_alias_iff_short_names_agree_witness :
  exists s1 s2,
    Bin.createStack (Sample.configuration 15) "orders-prod-customers" = OK s1
    /\ Bin.createStack (Sample.configuration 15) "billing-prod-Customers"
       = OK s2
    /\ Bin.id s1 <> Bin.id s2
    /\ ExportsStackResources.stateMachineName (Bin.configuration s1)
       = ExportsStackResources.stateMachineName (Bin.configuration s2).
Proof.
  destruct (nested_stacks_share_alias_iff_short_names_agree
              (Sample.configuration 15)
              "orders-prod-customers" "billing-prod-Customers"
              "customers" "Customers")
    as (s1 & s2 & E1 & E2 & I & _ & _ & A).
  - simpl. split; [reflexivity|]. right. now exists "orders-prod".
  - simpl. split; [reflexivity|]. right. now exists "billing-prod".
  - exists s1, s2. split; [exact E1|]. split; [exact E2|]. split.
    + intros E. apply I in E. discriminate E.
    + apply A. reflexivity.
Defined.

(** ** One validation for all tables *)

Lemma createStack_window shared name :
  exists stack,
    Bin.createStack shared name = OK stack
    /\ incrementalExportWindowSizeInMinutes (Bin.configuration stack)
       = incrementalExportWindowSizeInMinutes shared.
Proof.
  destruct (createStack_expected shared name) as (stack & E & _).
  exists stack. split; [exact E|].
  unfold Bin.createStack in E.
  destruct (if (10 <? String.length name)%nat
            then Bin.lastPart (JsString.split "-" name) else OK name)
    as [picked|msg]; [|discriminate E].
  simpl in E. injection E as <-. reflexivity.
Qed.

(** X9. One sanity check for all tables.  Every nested stack the entry point
    creates carries the window size of the shared configuration, so the
    sanity checks take the same course in all of them: with a shared size
    outside [15, 1440], [init] throws the error of the sanity checks in
    every nested stack, and wherever [init] returns, the shared size is in
    range.  (What follows the checks depends on the alias of each stack.) *)
Theorem nested_stacks_validate_alike :
  forall (K : Constants) (shared : Configuration)
         (n : constructs.Notifications)
         (stacks : list Bin.NestedStack) (stack : Bin.NestedStack)
         (props : ExportsStackResources.Props) (elsewhere : Elsewhere)
         (stateMachineArn schedulerRoleArn : string),
    Bin.main shared n = OK stacks ->
    In stack stacks ->
    incrementalExportWindowSizeInMinutes (Bin.configuration stack)
    = incrementalExportWindowSizeInMinutes shared
    /\ sanityChecks (Bin.configuration stack) = sanityChecks shared
    /\ (~ (15 <= incrementalExportWindowSizeInMinutes shared <= 1440)%Z ->
        exists msg,
          sanityChecks shared = Throw msg
          /\ init K (Bin.configuration stack) props n elsewhere
                  stateMachineArn schedulerRoleArn = Throw msg)
    /\ (forall resources,
          init K (Bin.configuration stack) props n elsewhere
               stateMachineArn schedulerRoleArn = OK resources ->
          (15 <= incrementalExportWindowSizeInMinutes shared <= 1440)%Z).
Proof.
  intros K shared n stacks stack props elsewhere stateMachineArn
         schedulerRoleArn M I.
  assert (W : incrementalExportWindowSizeInMinutes (Bin.configuration stack)
              = incrementalExportWindowSizeInMinutes shared).
  { unfold Bin.main in M.
    destruct (forEach_made
                shared
                (fun _ s =>
                   incrementalExportWindowSizeInMinutes (Bin.configuration s)
                   = incrementalExportWindowSizeInMinutes shared)
                (createStack_window shared) _ _ _ _ M) as (made & -> & HF).
    simpl in I. clear M.
    induction HF as [|name s names ss R _ IH]; [destruct I|].
    destruct I as [<-|I]; [exact R|exact (IH I)]. }
  assert (S : sanityChecks (Bin.configuration stack) = sanityChecks shared)
    by (unfold sanityChecks; now rewrite W).
  split; [exact W|]. split; [exact S|].
  pose proof (sanityChecks_accepts shared) as Acc.
  split.
  - intros N. destruct (sanityChecks shared) as [[]|msg] eqn:E.
    + exfalso. apply N, Acc. reflexivity.
    + exists msg. split; [reflexivity|].
      unfold init. rewrite S. reflexivity.
  - intros resources E. apply Acc.
    unfold init in E. rewrite S in E.
    destruct (sanityChecks shared) as [[]|msg]; [reflexivity|discriminate E].
Qed.

(** Two tables under a window of 10 minutes: the sanity checks refuse
    both. *)
Lemma nested_stacks_validate_alike_witness :
  sanityChecks (mkConfiguration "prod-items" "Items" "exports/Items" "1" 10)
  = sanityChecks (mkConfiguration "prod" "orders-prod-Customers,Items"
                                  "exports" "1" 10).
Proof.
  apply (nested_stacks_validate_alike
           Sample.constants
           (mkConfiguration "prod" "orders-prod-Customers,Items" "exports"
                            "1" 10)
           Sample.notifications
           [ Bin.mkNestedStack "orders-prod-Customers"
               (mkConfiguration "prod-customers" "orders-prod-Customers"
                                "exports/orders-prod-Customers" "1" 10)
               "orders-prod-Customers";
             Bin.mkNestedStack "Items"
               (mkConfiguration "prod-items" "Items" "exports/Items" "1" 10)
               "Items" ]
           (Bin.mkNestedStack "Items"
              (mkConfiguration "prod-items" "Items" "exports/Items" "1" 10)
              "Items")
           Sample.props Sample.elsewhere "stateMachine" "role").
  - reflexivity.
  - right. left. reflexivity.
Defined.

(** ** The notification resources *)
Import constructs.

(** The second condition of the later version adds nothing: the empty string
    is falsy already. *)
Lemma truthy_notEmpty x : truthy x && notEmpty x = truthy x.
Proof. destruct x as [[|c s]|]; reflexivity. Qed.

(** X10. The two versions of the shared stack agree.  Without an existing
    topic, the later version constructs what the first version constructs,
    in the same order, and one thing more: the parameter that publishes the
    ARN of the key, right behind the key.  The topic, the key and the role
    it hands to the nested stacks are the same. *)
Theorem shared_stack_versions_agree :
  forall (configuration : Configuration) (n : Notifications),
    let v1 := SharedResourceStackV1.init configuration n in
    let v2 := SharedResourceStack.init false configuration n in
    SharedResourceStack.ddbExportNotificationTopic v2
    = SharedResourceStackV1.ddbExportNotificationTopic v1
    /\ SharedResourceStack.kmsKeyUsedForSnsTopic v2
       = SharedResourceStackV1.kmsKeyUsedForSnsTopic v1
    /\ SharedResourceStack.schedulerRole v2
       = SharedResourceStackV1.schedulerRole v1
    /\ exists key rest,
        SharedResourceStackV1.children v1 = key :: rest
        /\ SharedResourceStack.children v2
           = key :: StringParameter "ddb-export-notification-kms-arn"
                                    "/dynamodb/export/notification/kms"
                                    (SharedResourceStack.kmsKeyUsedForSnsTopic
                                       v2)
                 :: rest.
Proof.
  intros configuration n v1 v2. subst v1 v2.
  unfold SharedResourceStack.init, SharedResourceStackV1.init,
    SharedResourceStack.deployNotificationModule,
    SharedResourceStackV1.deployNotificationModule.
  rewrite !truthy_notEmpty.
  destruct (truthy (successNotificationSqsArn n));
    destruct (truthy (successNotificationEmail n));
    destruct (truthy (failureNotificationEmail n));
    (repeat split; eexists; eexists; split; reflexivity).
Qed.

(** X11. A stack that uses the existing topic finds the topic and the key
    that a stack of the same version has deployed: the SSM parameter it
    reads for the topic holds the ARN of that topic, and the SSM parameter
    it reads for the key holds the ARN of the key that encrypts the topic.
    Besides the role of the scheduler it constructs, for each of the two
    values, the parameter of the stack that takes the value, the import of
    the SSM parameter and the import of the topic or key, and no key, topic,
    SSM parameter or subscription of its own.  After the first version of
    the stack the SSM parameter of the key does not exist. *)
Theorem existing_topic_is_the_one_deployed :
  forall (configuration configuration' : Configuration)
         (n n' : Notifications),
    let deployed := SharedResourceStack.init false configuration n in
    let reusing := SharedResourceStack.init true configuration' n' in
    let store :=
      ExportsStackResources.published (SharedResourceStack.children deployed)
    in
    ExportsStackResources.resolve
      store (SharedResourceStack.ddbExportNotificationTopic reusing)
    = Some (SharedResourceStack.ddbExportNotificationTopic deployed)
    /\ ExportsStackResources.resolve
         store (SharedResourceStack.kmsKeyUsedForSnsTopic reusing)
       = Some (SharedResourceStack.kmsKeyUsedForSnsTopic deployed)
    /\ In (Topic "ddb-export-notification-topic"
                 (deploymentAlias configuration ++ "-notification-topic")
                 (SharedResourceStack.kmsKeyUsedForSnsTopic deployed))
          (SharedResourceStack.children deployed)
    /\ SharedResourceStack.ddbExportNotificationTopic deployed
       = topicArn "ddb-export-notification-topic"
    /\ SharedResourceStack.children reusing
       = [ CfnParameter
             (SharedResourceStack.importedValueId
                "/dynamodb/export/notification/topic" ++ ".Parameter")
             "AWS::SSM::Parameter::Value<String>"
             "/dynamodb/export/notification/topic";
           ParameterImport
             (SharedResourceStack.importedValueId
                "/dynamodb/export/notification/topic")
             "/dynamodb/export/notification/topic";
           TopicFromArn "ddb-export-notification-topic"
                        (SharedResourceStack.ddbExportNotificationTopic
                           reusing);
           CfnParameter
             (SharedResourceStack.importedValueId
                "/dynamodb/export/notification/kms" ++ ".Parameter")
             "AWS::SSM::Parameter::Value<String>"
             "/dynamodb/export/notification/kms";
           ParameterImport
             (SharedResourceStack.importedValueId
                "/dynamodb/export/notification/kms")
             "/dynamodb/export/notification/kms";
           KeyFromArn "ddb-export-notification-topic-key"
                      (SharedResourceStack.kmsKeyUsedForSnsTopic reusing);
           NewRole "step-function-trigger-role" None SCHEDULER ]
    /\ ExportsStackResources.resolve
         (ExportsStackResources.published
            (SharedResourceStackV1.children
               (SharedResourceStackV1.init configuration n)))
         (SharedResourceStack.kmsKeyUsedForSnsTopic reusing)
       = None.
Proof.
  intros configuration configuration' n n' deployed reusing store.
  subst deployed reusing store.
  unfold SharedResourceStack.init, SharedResourceStackV1.init,
    SharedResourceStack.deployNotificationModule,
    SharedResourceStackV1.deployNotificationModule.
  rewrite !truthy_notEmpty.
  destruct (truthy (successNotificationSqsArn n));
    destruct (truthy (successNotificationEmail n));
    destruct (truthy (failureNotificationEmail n));
    (repeat split; try reflexivity; simpl; auto 10).
Qed.

(** X12. Who hears of an export.  The subscriptions of the shared topic
    filter on the status in the message body: a message with status SUCCESS
    goes to the queue and to the address configured for successes, a message
    with status FAILED to the address configured for failures, each only
    when it is configured and not empty, and a message with any other status
    goes to nobody. *)
Theorem notifications_are_filtered_by_status :
  forall (configuration : Configuration) (n : Notifications)
         (status : string),
    let stack := SharedResourceStack.init false configuration n in
    let receivers :=
      ExportsStackResources.receivers
        (SharedResourceStack.children stack)
        (SharedResourceStack.ddbExportNotificationTopic stack) in
    receivers "SUCCESS"
    = ((if truthy (successNotificationSqsArn n)
        then [(SQS, endpointOf (successNotificationSqsArn n))] else [])
         ++ (if truthy (successNotificationEmail n)
             then [(EMAIL, endpointOf (successNotificationEmail n))]
             else []))%list
    /\ receivers "FAILED"
       = (if truthy (failureNotificationEmail n)
          then [(EMAIL, endpointOf (failureNotificationEmail n))] else [])
    /\ (status <> "SUCCESS" -> status <> "FAILED" -> receivers status = []).
Proof.
  intros configuration n status stack receivers. subst stack receivers.
  unfold SharedResourceStack.init,
    SharedResourceStack.deployNotificationModule.
  rewrite !truthy_notEmpty.
  split; [|split].
  - destruct (truthy (successNotificationSqsArn n));
      destruct (truthy (successNotificationEmail n));
      destruct (truthy (failureNotificationEmail n)); reflexivity.
  - destruct (truthy (successNotificationSqsArn n));
      destruct (truthy (successNotificationEmail n));
      destruct (truthy (failureNotificationEmail n)); reflexivity.
  - intros NS NF.
    apply String.eqb_neq in NS, NF.
    destruct (truthy (successNotificationSqsArn n));
      destruct (truthy (successNotificationEmail n));
      destruct (truthy (failureNotificationEmail n));
      cbn -[String.eqb]; rewrite ?NS, ?NF; reflexivity.
Qed.

(** ** What a nested stack constructs *)

(** X13. A nested stack constructs only what it is not given.  With the
    key, the topic and the role of the shared stack, as the entry point
    passes them, the notification module and [createOrUpdateSchedulerRole]
    construct nothing and hand back the shared resources.  A policy is
    constructed exactly when no role is passed, and it then allows
    [states:StartExecution] on the state machine of the stack to the new
    role; a role that is passed gets no policy.  A stack that is given the
    topic but not the key constructs a key that encrypts no topic, and a
    stack that constructs the topic encrypts it with the key it returns. *)
Theorem nested_stack_constructs_what_it_is_not_given :
  forall (props : ExportsStackResources.Props)
         (shared : SharedResourceStack.t)
         (configuration : Configuration) (n : Notifications)
         (scope : list Construct),
    let notification :=
      ExportsStackResources.deployNotificationModule props configuration n []
    in
    let scheduler :=
      ExportsStackResources.createOrUpdateSchedulerRole configuration props []
    in
    ExportsStackResources.deployNotificationModule
      (ExportsStackResources.propsOfEntryPoint shared) configuration n scope
    = (SharedResourceStack.kmsKeyUsedForSnsTopic shared,
       SharedResourceStack.ddbExportNotificationTopic shared, scope)
    /\ ExportsStackResources.createOrUpdateSchedulerRole
         configuration (ExportsStackResources.propsOfEntryPoint shared) scope
       = (SharedResourceStack.schedulerRole shared, scope)
    /\ (existsb ExportsStackResources.isPolicy (snd scheduler) = true
        <-> ExportsStackResources.schedulerRole props = None)
    /\ (forall c,
          In c (snd scheduler) ->
          ExportsStackResources.isPolicy c = true ->
          c = Policy (deploymentAlias configuration
                        ++ "-step-function-trigger-policy")
                     (sourceDynamoDbTableName configuration
                        ++ "-step-function-trigger-policy")
                     (fst scheduler)
                     ["states:StartExecution"]
                     [stateMachineArn
                        (ExportsStackResources.stateMachineName configuration)]
          /\ fst scheduler = roleArn "step-function-trigger-role")
    /\ (ExportsStackResources.kmsKeyUsedForSnsTopic props = None ->
        ExportsStackResources.ddbExportNotificationTopic props <> None ->
        fst (fst notification) = keyArn "ddb-export-notification-topic-key"
        /\ snd notification
           = [Key "ddb-export-notification-topic-key"
                  (deploymentAlias configuration
                     ++ "-ddb-export-notification-topic-key")])
    /\ (forall id name key,
          In (Topic id name key) (snd notification) ->
          ExportsStackResources.ddbExportNotificationTopic props = None
          /\ key = fst (fst notification)
          /\ snd (fst notification) = topicArn id).
Proof.
  intros props shared configuration n scope notification scheduler.
  subst notification scheduler.
  split; [reflexivity|]. split; [reflexivity|].
  unfold ExportsStackResources.createOrUpdateSchedulerRole,
    ExportsStackResources.deployNotificationModule.
  destruct props as [key role topic]. cbn [ExportsStackResources.schedulerRole
    ExportsStackResources.kmsKeyUsedForSnsTopic
    ExportsStackResources.ddbExportNotificationTopic].
  split; [|split; [|split]].
  - destruct role; simpl; split; intros H; congruence.
  - intros c I P. destruct role; simpl in I.
    + destruct I.
    + destruct I as [<-|[<-|[]]]; [discriminate P|]. split; reflexivity.
  - intros -> T. destruct topic; [|congruence]. split; reflexivity.
  - intros id name k I.
    destruct topic as [t|].
    + exfalso. destruct key; simpl in I; intuition discriminate.
    + rewrite !truthy_notEmpty in I.
      destruct key;
        destruct (truthy (successNotificationSqsArn n));
        destruct (truthy (successNotificationEmail n));
        destruct (truthy (failureNotificationEmail n));
        simpl in I;
        repeat (destruct I as [I|I];
                [try discriminate I; injection I as <- <- <-;
                 repeat split|]);
        destruct I.
Qed.

Import Progress Reports.

(** ** Cycles without polling are short *)

Lemma total_linear (w : nb.node -> nat) (c d : nb.node -> nat) (r : nat) :
  (forall n, w n = 1 + (d n + c n * r)) ->
  forall ns,
    fold_right (fun n acc => w n + acc) 0 ns
    = List.length ns + list_sum (map d ns) + list_sum (map c ns) * r.
Proof.
  intros W. induction ns as [|n ns IH]; simpl; [reflexivity|].
  rewrite IH, W. lia.
Qed.

(** Fifteen tasks have one of the SDK retry handlers; the incremental export
    has the two retries for the invalid export time besides. *)
Lemma stepsBound_eq K :
  stepsBound (stateMachine K) = 55 + 15 * SDK_EXCEPTION_RETRY_ATTEMPTS K.
Proof.
  unfold stepsBound, total.
  rewrite (total_linear
             (weight (stateMachine K))
             (fun n => match Retry (stateMachine Sample.constants n) with
                       | [] => 0
                       | _ => 1
                       end)
             (fun n => match Retry (stateMachine Sample.constants n) with
                       | _ :: _ :: _ => 2
                       | _ => 0
                       end)
             (SDK_EXCEPTION_RETRY_ATTEMPTS K)).
  - replace (List.length order) with 53 by reflexivity.
    match goal with
    | |- _ + list_sum ?a + list_sum ?b * _ = _ =>
        replace (list_sum a) with 2 by (vm_compute; reflexivity);
        replace (list_sum b) with 15 by (vm_compute; reflexivity)
    end.
    lia.
  - intros n. destruct n; vm_compute; reflexivity.
Qed.

Lemma rank_in_order n : nth_error order (rank n) = Some n.
Proof. destruct n; reflexivity. Qed.

Lemma skipn_nth (l : list nb.node) : forall r x,
  nth_error l r = Some x -> skipn r l = x :: skipn (S r) l.
Proof.
  induction l as [|a l IH]; intros [|r] x E; try discriminate E.
  - now injection E as ->.
  - simpl in E. apply IH in E. exact E.
Qed.

Section Potential.
Variable machine : nb.node -> StateJson.
Hypothesis forward : forwardOnly machine = true.

Lemma total_skipn_le (l : list nb.node) : forall r r',
  (r <= r')%nat ->
  (total machine (skipn r' l) <= total machine (skipn r l))%nat.
Proof.
  induction l as [|a l IH]; intros r r' L.
  - now rewrite !skipn_nil.
  - destruct r' as [|r']; [replace r with 0 by lia; reflexivity|].
    destruct r as [|r].
    + specialize (IH 0 r' ltac:(lia)). simpl in *. lia.
    + simpl. apply IH. lia.
Qed.

(** A transition forward uses up the visits of the states it passes. *)
Lemma beyond_forward n m :
  (rank n < rank m)%nat ->
  (weight machine m + beyond machine (rank m) <= beyond machine (rank n))%nat.
Proof.
  intros L. unfold beyond.
  pose proof (total_skipn_le order (S (rank n)) (rank m) ltac:(lia)) as T.
  rewrite (skipn_nth order (rank m) m (rank_in_order m)) in T.
  exact T.
Qed.

(** A run that passes no Wait state is no longer than the retries left at
    its state, one visit more, and the visits of the states behind. *)
Lemma run_bounded evs : forall n v used,
  (forall x, In x (fst (run machine evs n v used)) -> isWait (fst x) = false) ->
  (List.length (fst (run machine evs n v used))
   <= attemptsLeft (Retry (machine n)) used + 1 + beyond machine (rank n))%nat.
Proof.
  induction evs as [|ev evs IH]; intros n v used NW; [simpl; lia|].
  simpl in NW |- *.
  destruct (step (machine n) v used ev) as [[n'|d used'|s] v'] eqn:S.
  - specialize (IH n' v' []).
    destruct (run machine evs n' v' []) as [h o]. simpl in *.
    assert (Wn : isWait n = false).
    { rewrite <- (visit_node machine n ev). apply NW. now left. }
    assert (L : (rank n < rank n')%nat).
    { apply (successor_forward machine forward); [exact Wn|].
      apply step_goto in S. unfold successors. apply in_or_app.
      destruct (snd (visit (machine n) n ev)).
      - right. apply nodeIn_In, S.
      - left. apply nodeIn_In, S. }
    pose proof (beyond_forward n n' L) as B.
    pose proof (attemptsLeft_total (Retry (machine n')) []) as A.
    specialize (IH (fun x H => NW x (or_intror H))).
    unfold weight in B. lia.
  - specialize (IH n v' used').
    destruct (run machine evs n v' used') as [h o]. simpl in *.
    apply step_retry_scan in S as (_ & _ & e & _ & R).
    apply scanRetriers_spends in R.
    specialize (IH (fun x H => NW x (or_intror H))). lia.
  - simpl. lia.
Qed.

End Potential.

(** X14. A cycle that does not poll is short.  An execution that passes no
    Wait state takes at most 55 steps and 15 times the retries of the SDK
    retry handlers: each state is visited in one stretch, and the stretches
    follow the order of the states. *)
Theorem executions_without_polling_are_bounded :
  forall (K : Constants) (v0 : Valuation) (evs : list Event),
    (forall x, In x (fst (execution K v0 evs)) ->
               fst x <> nb.waitForFullExport
               /\ fst x <> nb.waitForIncrementalExport) ->
    (List.length (fst (execution K v0 evs))
     <= 55 + 15 * SDK_EXCEPTION_RETRY_ATTEMPTS K)%nat.
Proof.
  intros K v0 evs NW. rewrite <- stepsBound_eq.
  unfold execution in *. rewrite startAt_getParametersTask in *.
  pose proof (run_bounded (stateMachine K) (stateMachine_forwardOnly K) evs
                          nb.getParametersTask v0 []) as B.
  assert (W : forall x,
             In x (fst (run (stateMachine K) evs nb.getParametersTask v0 [])) ->
             isWait (fst x) = false).
  { intros x I. destruct (NW x I) as [A1 A2].
    destruct (fst x); try reflexivity; congruence. }
  specialize (B W).
  pose proof (attemptsLeft_total
                (Retry (stateMachine K nb.getParametersTask)) []) as A.
  unfold stepsBound. unfold beyond in B.
  change order with (nb.getParametersTask :: skipn 1 order).
  change (rank nb.getParametersTask) with 0 in B.
  change (total (stateMachine K) (nb.getParametersTask :: skipn 1 order))
    with (weight (stateMachine K) nb.getParametersTask
          + total (stateMachine K) (skipn 1 order)).
  unfold weight. lia.
Qed.

(** A paused workflow: four steps. *)
Lemma executions_without_polling_are_bounded_witness :
  (List.length
     (fst (execution Sample.constants
             (fun c => match c with cb.isWorkflowPaused => true | _ => false end)
             (repeat (succeeds (fun _ => true)) 6)))
   <= 55 + 15 * SDK_EXCEPTION_RETRY_ATTEMPTS Sample.constants)%nat.
Proof.
  apply (executions_without_polling_are_bounded
           Sample.constants
           (fun c => match c with cb.isWorkflowPaused => true | _ => false end)
           (repeat (succeeds (fun _ => true)) 6)).
  vm_compute. intros x H.
  repeat (destruct H as [<-|H]; [split; discriminate|]). destruct H.
Defined.

(** ** Reports and the pause *)

Lemma reports_guard_terminals K :
  reportsGuardTerminals (stateMachine K) = true.
Proof. vm_compute. reflexivity. Qed.

(** X15. Every end of a cycle is published, two excepted.  An execution that
    arrives at a Succeed or Fail state has been at the publication that
    reports this end before, and that publication did not fail; only the
    pause and the export that is not needed end a cycle unreported. *)
Theorem every_end_but_two_is_reported :
  forall (K : Constants) (v0 : Valuation) (evs : list Event)
         (pre post : list Visit) (y : Visit),
    fst (execution K v0 evs) = (pre ++ y :: post)%list ->
    isTerminal (fst y) = true ->
    fst y = nb.workflowPaused
    \/ fst y = nb.incrementalExportNotNeeded
    \/ exists report,
        reportOf (fst y) = Some report
        /\ nb.kind report = nb.TaskState
        /\ In (report, None) pre.
Proof.
  intros K v0 evs pre post y E T.
  destruct (reportOf (fst y)) as [report|] eqn:R.
  - right. right. exists report. split; [reflexivity|].
    split; [destruct (fst y); try discriminate R;
            injection R as <-; reflexivity|].
    pose proof (reports_guard_terminals K) as G.
    unfold reportsGuardTerminals in G. rewrite forallb_forall in G.
    specialize (G (fst y) (all_nodes (fst y))). rewrite R in G.
    apply andb_prop in G as [G Cl]. apply andb_prop in G as [Iy St].
    apply negb_true_iff in St.
    exact (execution_passes_through K (behindReport report) report Cl St
                                    v0 evs pre y post E Iy).
  - destruct (fst y); try discriminate T; try discriminate R;
      [right; left; reflexivity|left; reflexivity].
Qed.

(** A paused cycle ends unreported; a full export that is still running is
    reported. *)
Lemma every_end_but_two_is_reported_witness :
  fst (nb.fullExportStillRunning, @None string) = nb.workflowPaused
  \/ fst (nb.fullExportStillRunning, @None string)
     = nb.incrementalExportNotNeeded
  \/ exists report,
      reportOf (fst (nb.fullExportStillRunning, @None string)) = Some report
      /\ nb.kind report = nb.TaskState
      /\ In (report, None)
            (firstn 8 (fst (execution
                              Sample.constants
                              (fun c => match c with
                                        | cb.pitrIsEnabled
                                        | cb.fullExportStillRunning => true
                                        | _ => false
                                        end)
                              (repeat
                                 (succeeds
                                    (fun c => match c with
                                              | cb.pitrIsEnabled
                                              | cb.fullExportStillRunning =>
                                                  true
                                              | _ => false
                                              end))
                                 9)))).
Proof.
  apply (every_end_but_two_is_reported
           Sample.constants
           (fun c => match c with
                     | cb.pitrIsEnabled | cb.fullExportStillRunning => true
                     | _ => false
                     end)
           (repeat
              (succeeds
                 (fun c => match c with
                           | cb.pitrIsEnabled | cb.fullExportStillRunning =>
                               true
                           | _ => false
                           end))
              9)
           _ []).
  - vm_compute. reflexivity.
  - reflexivity.
Defined.

(** A Succeed or Fail state has no way out. *)
Lemma terminal_is_last K x z :
  isTerminal (fst x) = true -> edge (stateMachine K) x z -> False.
Proof.
  destruct x as [n r]. cbn [fst]. intros T Ed. unfold edge in Ed.
  cbn [fst snd] in Ed.
  destruct n; try discriminate T; destruct r as [e|];
    vm_compute in Ed; try discriminate Ed; destruct Ed as [Ed _];
    discriminate Ed.
Qed.

Lemma run_nil machine evs n v used :
  fst (run machine evs n v used) = [] ->
  snd (run machine evs n v used) = Running n.
Proof.
  destruct evs as [|ev evs]; simpl; [reflexivity|].
  destruct (step (machine n) v used ev) as [[n'|d used'|s] v'].
  - destruct (run machine evs n' v' []). discriminate.
  - destruct (run machine evs n v' used'). discriminate.
  - discriminate.
Qed.

(** The outcome of a run is what its last step made of it. *)
Lemma run_outcome machine evs : forall n v used pre y,
  fst (run machine evs n v used) = (pre ++ [y])%list ->
  exists v' used' ev,
    snd (run machine evs n v used)
    = match fst (step (machine (fst y)) v' used' ev) with
      | Goto n' => Running n'
      | RetryAfter _ _ => Running (fst y)
      | Stop s => Finished s
      end.
Proof.
  induction evs as [|ev evs IH]; intros n v used pre y E.
  - simpl in E. destruct pre; discriminate E.
  - simpl in E |- *.
    destruct (step (machine n) v used ev) as [[n'|d used'|s] v'] eqn:S.
    + pose proof (run_nil machine evs n' v' []) as Nil.
      specialize (IH n' v' []).
      destruct (run machine evs n' v' []) as [h o]. simpl in *.
      destruct pre as [|p pre]; simpl in E; injection E as E1 E2.
      * subst h. rewrite (Nil eq_refl). exists v, used, ev.
        rewrite <- E1, visit_node, S. reflexivity.
      * exact (IH pre y E2).
    + pose proof (run_nil machine evs n v' used') as Nil.
      specialize (IH n v' used').
      destruct (run machine evs n v' used') as [h o]. simpl in *.
      destruct pre as [|p pre]; simpl in E; injection E as E1 E2.
      * subst h. rewrite (Nil eq_refl). exists v, used, ev.
        rewrite <- E1, visit_node, S. reflexivity.
      * exact (IH pre y E2).
    + simpl in E. destruct pre as [|p pre]; simpl in E.
      * injection E as E1. exists v, used, ev.
        rewrite <- E1, visit_node, S. reflexivity.
      * injection E as _ E2. destruct pre; discriminate E2.
Qed.

Lemma behindActionCheck_closed K :
  closed (stateMachine K)
         (allBut (beforeActionCheck ++ [nb.workflowPaused])) = true.
Proof. vm_compute. reflexivity. Qed.

(** X16. A paused workflow touches nothing.  The check of the workflow
    action sends the execution to [workflowPaused] exactly when the data say
    that the workflow is paused; an execution that gets there has only read
    and cleaned the parameters and checked the action, and it ends there,
    successfully. *)
Theorem paused_workflow_touches_nothing :
  forall (K : Constants) (v0 : Valuation) (evs : list Event)
         (pre post : list Visit) (y : Visit),
    fst (execution K v0 evs) = (pre ++ y :: post)%list ->
    fst y = nb.workflowPaused ->
    post = []
    /\ snd (execution K v0 evs) = Finished Succeeded
    /\ (forall z, In z pre -> nodeIn (fst z) beforeActionCheck = true)
    /\ (forall v used ev,
          step (stateMachine K nb.checkWorkflowAction) v used ev
          = (Goto (if v cb.isWorkflowPaused
                   then nb.workflowPaused else nb.ensureTableExistsTask), v)).
Proof.
  intros K v0 evs pre post y E Y.
  pose proof (execution_chain K v0 evs) as C. rewrite E in C.
  assert (P : post = []).
  { destruct post as [|p post]; [reflexivity|exfalso].
    apply chain_adjacent in C.
    apply (terminal_is_last K y p); [now rewrite Y|exact C]. }
  subst post. split; [reflexivity|]. split; [|split].
  - unfold execution in *.
    destruct (run_outcome _ _ _ _ _ _ _ E) as (v' & used' & ev & ->).
    rewrite Y. vm_compute. reflexivity.
  - intros z I.
    destruct (nodeIn (fst z) beforeActionCheck) eqn:B; [reflexivity|exfalso].
    apply in_split in I as (p1 & p2 & ->).
    rewrite <- app_assoc in C. apply chain_suffix in C. simpl app in C.
    destruct (nb.node_eq_dec (fst z) nb.workflowPaused) as [Z|Z].
    + assert (exists z', edge (stateMachine K) z z') as (z' & Ed).
      { destruct p2 as [|q p2]; simpl in C; [exists y|exists q]; tauto. }
      apply (terminal_is_last K z z'); [now rewrite Z|exact Ed].
    + assert (In y (p2 ++ [y])) as Iy by (apply in_elt).
      pose proof (chain_stays (stateMachine K) _ (behindActionCheck_closed K)
                              _ z C) as St.
      assert (Zin : nodeIn (fst z)
                           (allBut (beforeActionCheck ++ [nb.workflowPaused]))
                    = true).
      { revert B Z. destruct (fst z); intros B Z; try discriminate B;
          try congruence; reflexivity. }
      specialize (St Zin y Iy). rewrite Y in St. discriminate St.
  - intros v used ev. unfold step.
    replace (Type_ (stateMachine K nb.checkWorkflowAction))
      with nb.ChoiceState by (vm_compute; reflexivity).
    replace (Choices (stateMachine K nb.checkWorkflowAction))
      with [(cb.isWorkflowPaused, nb.workflowPaused)]
      by (vm_compute; reflexivity).
    replace (Default (stateMachine K nb.checkWorkflowAction))
      with (Some nb.ensureTableExistsTask) by (vm_compute; reflexivity).
    rewrite firstChoice_cons. destruct (v cb.isWorkflowPaused); reflexivity.
Qed.

(** The cycle of a paused workflow. *)
Lemma paused_workflow_touches_nothing_witness :
  snd (execution Sample.constants
         (fun c => match c with cb.isWorkflowPaused => true | _ => false end)
         (repeat (succeeds (fun c => match c with
                                     | cb.isWorkflowPaused => true
                                     | _ => false
                                     end)) 6))
  = Finished Succeeded.
Proof.
  apply (paused_workflow_touches_nothing
           Sample.constants
           (fun c => match c with cb.isWorkflowPaused => true | _ => false end)
           (repeat (succeeds (fun c => match c with
                                       | cb.isWorkflowPaused => true
                                       | _ => false
                                       end)) 6)
           [ (nb.getParametersTask, None); (nb.cleanParametersPassState, None);
             (nb.checkWorkflowAction, None) ]
           [] (nb.workflowPaused, None)).
  - vm_compute. reflexivity.
  - reflexivity.
Defined.
